(** * LSR tracker: event eligibility, submission window, ranking and
      monthly aggregation

    A shallow embedding of the Express route handlers of [routes/index.js]
    (joining an event, submitting an event entry, closing and reopening a
    date, the event ranking, the joinable-events listing, the monthly
    listing, the top 10 and the four entry write paths), of the SQLite
    tables they read and write, and of the JavaScript built-ins they rely
    on ([Number], [Date], string comparison, [padStart]).

    Conventions.
    - Text is [string]; JavaScript [<] on two strings and SQLite's BINARY
      collation are both the code-unit order, here [String.ltb]/[String.leb].
    - Instants are [Z] milliseconds since the epoch.
    - Finite JavaScript numbers and SQLite REAL values are exact rationals
      ([Qc]); the rounding of IEEE doubles, the two infinities and the
      negative zero are outside the model.
    - A handler is a [task]: a tree of store calls with their callbacks,
      ended by the response.  [run] executes a task against a store; a
      fault oracle says which store calls come back with [err] set. *)

From Stdlib Require Import ZArith List String Ascii Bool Lia.
From Stdlib Require Import QArith Qcanon Permutation Sorted.
From Stdlib Require Import DecimalString.
Import ListNotations.

Set Implicit Arguments.
Open Scope string_scope.
Open Scope Z_scope.

(* ================================================================== *)
(** ** JavaScript built-ins used by the handlers *)

Module JS.

(** *** Decimal digits *)

Definition is_digit (c : ascii) : bool :=
  let n := N_of_ascii c in (48 <=? n)%N && (n <=? 57)%N.

Definition digit_val (c : ascii) : Z := Z.of_N (N_of_ascii c) - 48.

Fixpoint all_digits (s : string) : bool :=
  match s with
  | EmptyString => true
  | String c r => is_digit c && all_digits r
  end.

Fixpoint digits_value_from (acc : Z) (s : string) : Z :=
  match s with
  | EmptyString => acc
  | String c r => digits_value_from (10 * acc + digit_val c) r
  end.

(** [Number(s)] for a string [s] of decimal digits. *)
Definition digits_value (s : string) : Z := digits_value_from 0 s.

(** [String(n)], the template-literal rendering of an integer. *)
Definition Z_toString (n : Z) : string :=
  NilZero.string_of_int (Z.to_int n).

Fixpoint repeat_char (c : ascii) (n : nat) : string :=
  match n with
  | O => EmptyString
  | S k => String c (repeat_char c k)
  end.

(** [s.padStart(n, c)] for a one-character filler. *)
Definition padStart (n : nat) (c : ascii) (s : string) : string :=
  repeat_char c (n - String.length s) ++ s.

(** [s.slice(0, n)]. *)
Definition slice0 (n : nat) (s : string) : string := substring 0 n s.

(** *** Numbers *)

Inductive jsnum : Type :=
| NaN
| Num (q : Qc).

Definition Qc_of_Z (z : Z) : Qc := Q2Qc (inject_Z z).

Definition Qc_ltb (a b : Qc) : bool :=
  match Qccompare a b with Lt => true | _ => false end.

Definition Qc_leb (a b : Qc) : bool :=
  match Qccompare a b with Gt => false | _ => true end.

Definition Qc_eqb (a b : Qc) : bool :=
  match Qccompare a b with Eq => true | _ => false end.

(** [Number.isInteger]. *)
Definition isInteger (n : jsnum) : bool :=
  match n with
  | NaN => false
  | Num q => Pos.eqb (Qden q) 1
  end.

(** The integer held by a number that passed [Number.isInteger]. *)
Definition int_of (n : jsnum) : Z :=
  match n with
  | NaN => 0
  | Num q => Qnum q
  end.

(** [n <= 0]; any comparison with [NaN] is false. *)
Definition num_le0 (n : jsnum) : bool :=
  match n with
  | NaN => false
  | Num q => Qc_leb q (Qc_of_Z 0)
  end.

Definition num_lt0 (n : jsnum) : bool :=
  match n with
  | NaN => false
  | Num q => Qc_ltb q (Qc_of_Z 0)
  end.

(** [n || 0]: [NaN] and [0] are the falsy numbers. *)
Definition or_zero (n : jsnum) : Qc :=
  match n with
  | NaN => Qc_of_Z 0
  | Num q => if Qc_eqb q (Qc_of_Z 0) then Qc_of_Z 0 else q
  end.

(** *** [Number] on strings: the decimal literals

    White space is trimmed, the empty string is [0], then an optional
    sign, digits and an optional fraction.  Exponents, [0x]/[0o]/[0b]
    literals and [Infinity] are not covered by this grammar. *)

Definition is_space (c : ascii) : bool :=
  let n := N_of_ascii c in
  (n =? 32)%N || ((9 <=? n)%N && (n <=? 13)%N).

Fixpoint ltrim (s : string) : string :=
  match s with
  | EmptyString => EmptyString
  | String c r => if is_space c then ltrim r else s
  end.

Fixpoint rtrim (s : string) : string :=
  match s with
  | EmptyString => EmptyString
  | String c r =>
      match rtrim r with
      | EmptyString => if is_space c then EmptyString else String c EmptyString
      | r' => String c r'
      end
  end.

Definition trim (s : string) : string := rtrim (ltrim s).

(** Splits at the first ["."]: the text before it and, when there is
    one, the text after it. *)
Fixpoint split_dot (s : string) : string * option string :=
  match s with
  | EmptyString => (EmptyString, None)
  | String c r =>
      if Ascii.eqb c "."%char then (EmptyString, Some r)
      else let (a, b) := split_dot r in (String c a, b)
  end.

Definition unsigned_decimal (s : string) : jsnum :=
  let (ip, fo) := split_dot s in
  let fp := match fo with Some f => f | None => EmptyString end in
  if all_digits ip && all_digits fp
     && negb (Nat.eqb (String.length ip + String.length fp) 0)
  then
    let k := Z.of_nat (String.length fp) in
    Num (Q2Qc (Qmake (digits_value ip * 10 ^ k + digits_value fp)
                     (Z.to_pos (10 ^ k))))
  else NaN.

Definition num_neg (n : jsnum) : jsnum :=
  match n with
  | NaN => NaN
  | Num q => Num (Qcopp q)
  end.

Definition StringToNumber (s : string) : jsnum :=
  match trim s with
  | EmptyString => Num (Qc_of_Z 0)
  | String c r =>
      if Ascii.eqb c "-"%char then num_neg (unsigned_decimal r)
      else if Ascii.eqb c "+"%char then unsigned_decimal r
      else unsigned_decimal (String c r)
  end.

(** *** Request values: a form field or a JSON scalar *)

Inductive jsval : Type :=
| JUndefined
| JNull
| JBool (b : bool)
| JNum (n : jsnum)
| JStr (s : string).

(** [Number(v)]. *)
Definition Number (v : jsval) : jsnum :=
  match v with
  | JUndefined => NaN
  | JNull => Num (Qc_of_Z 0)
  | JBool true => Num (Qc_of_Z 1)
  | JBool false => Num (Qc_of_Z 0)
  | JNum n => n
  | JStr s => StringToNumber s
  end.

(** *** Dates *)

Definition msPerDay : Z := 86400000.

(** Days from 1970-01-01 to the given proleptic Gregorian date. *)
Definition days_from_civil (y m d : Z) : Z :=
  let y' := if m <=? 2 then y - 1 else y in
  let era := y' / 400 in
  let yoe := y' - era * 400 in
  let mp := (m + 9) mod 12 in
  let doy := (153 * mp + 2) / 5 + d - 1 in
  let doe := yoe * 365 + yoe / 4 - yoe / 100 + doy in
  era * 146097 + doe - 719468.

(** Year, month (1..12) and day of a day number. *)
Definition civil_from_days (z : Z) : Z * Z * Z :=
  let z := z + 719468 in
  let era := z / 146097 in
  let doe := z - era * 146097 in
  let yoe := (doe - doe / 1460 + doe / 36524 - doe / 146096) / 365 in
  let y := yoe + era * 400 in
  let doy := doe - (365 * yoe + yoe / 4 - yoe / 100) in
  let mp := (5 * doy + 2) / 153 in
  let d := doy - (153 * mp + 2) / 5 + 1 in
  let m := if mp <? 10 then mp + 3 else mp - 9 in
  ((if m <=? 2 then y + 1 else y), m, d).

(** The shape [YYYY-MM-DD]. *)
Definition is_date_shape (s : string) : bool :=
  Nat.eqb (String.length s) 10
  && all_digits (substring 0 4 s)
  && String.eqb (substring 4 1 s) "-"
  && all_digits (substring 5 2 s)
  && String.eqb (substring 7 1 s) "-"
  && all_digits (substring 8 2 s).

(** [new Date(s).getTime()] for a date-only string: midnight UTC of
    that day; [None] is the invalid date.  As in V8 a day up to 31 is
    taken in every month and runs over into the next one.  Strings of
    another shape are outside this model. *)
Definition Date_parse (s : string) : option Z :=
  if is_date_shape s then
    let y := digits_value (substring 0 4 s) in
    let m := digits_value (substring 5 2 s) in
    let d := digits_value (substring 8 2 s) in
    if (1 <=? m) && (m <=? 12) && (1 <=? d) && (d <=? 31)
    then Some ((days_from_civil y m 1 + (d - 1)) * msPerDay)
    else None
  else None.

(** [a < b] on two [Date]s the second of which was parsed. *)
Definition Date_lt (a : Z) (b : option Z) : bool :=
  match b with
  | Some t => a <? t
  | None => false
  end.

Definition Date_gt (a : Z) (b : option Z) : bool :=
  match b with
  | Some t => t <? a
  | None => false
  end.

Definition pad2 (n : Z) : string := padStart 2 "0"%char (Z_toString n).

Definition iso_year (y : Z) : string :=
  if (0 <=? y) && (y <=? 9999) then padStart 4 "0"%char (Z_toString y)
  else if y <? 0 then "-" ++ padStart 6 "0"%char (Z_toString (- y))
  else "+" ++ padStart 6 "0"%char (Z_toString y).

(** [new Date(t).toISOString().split('T')[0]]. *)
Definition toISODate (t : Z) : string :=
  let '(y, m, d) := civil_from_days (t / msPerDay) in
  iso_year y ++ "-" ++ pad2 m ++ "-" ++ pad2 d.

(** [new Date(y, m, 1)] read back with [getFullYear] and [getMonth]:
    a year from 0 to 99 stands for 1900 + y, and a month index beyond
    11 carries into the year. *)
Definition Date_ym (y m : Z) : Z * Z :=
  let yr := if (0 <=? y) && (y <=? 99) then 1900 + y else y in
  let months := yr * 12 + m in
  (months / 12, months mod 12).

End JS.

(* ================================================================== *)
(** ** The store: SQLite tables as lists of rows *)

Module Db.

Record user : Type := mkUser {
  u_id : Z;
  u_email : string;
  u_gender : option string;   (* NULL, 'male' or 'female' *)
  u_is_admin : bool
}.

Record entry : Type := mkEntry {
  e_id : Z;
  e_user_id : Z;
  e_entry_date : string;
  e_km_run : Qc;
  e_hours : Qc;
  e_pace : option Qc
}.

Record upload : Type := mkUpload {
  up_id : Z;
  up_user_id : Z;
  up_entry_id : option Z;
  up_filename : string;
  up_originalname : string;
  up_mimetype : string;
  up_size : Z
}.

Record event : Type := mkEvent {
  ev_id : Z;
  ev_name : string;
  ev_start_date : string;
  ev_end_date : string;
  ev_category : string;
  ev_gender_restriction : string;
  ev_km_goal : Qc;
  ev_created_at : Z;
  ev_created_by : Z;
  ev_is_ended : bool
}.

Record event_participant : Type := mkParticipant {
  ep_id : Z;
  ep_event_id : Z;
  ep_user_id : Z;
  ep_joined_at : Z
}.

Record event_closed_date : Type := mkClosedDate {
  ecd_id : Z;
  ecd_event_id : Z;
  ecd_closed_date : string;
  ecd_created_by : Z;
  ecd_created_at : Z
}.

(** The [seq_*] fields are the AUTOINCREMENT counters of
    [sqlite_sequence]: the largest rowid ever handed out. *)
Record store : Type := mkStore {
  users : list user;
  entries : list entry;
  uploads : list upload;
  events : list event;
  event_participants : list event_participant;
  event_closed_dates : list event_closed_date;
  seq_entries : Z;
  seq_uploads : Z;
  seq_event_participants : Z;
  seq_event_closed_dates : Z
}.

Definition max_id {A : Type} (id : A -> Z) (rows : list A) : Z :=
  fold_right (fun r m => Z.max (id r) m) 0 rows.

(** The rowid an AUTOINCREMENT table gives to its next row. *)
Definition next_id {A : Type} (id : A -> Z) (seq : Z) (rows : list A) : Z :=
  Z.max seq (max_id id rows) + 1.

(** The answer of one store call: the callback's [err] or its value. *)
(** What the driver puts in [err.code]: the primary result code, so
    SQLITE_CONSTRAINT for a UNIQUE or NOT NULL violation. *)
Inductive dberr : Type :=
| Constraint
| Failure.

Definition code (e : dberr) : string :=
  match e with
  | Constraint => "SQLITE_CONSTRAINT"
  | Failure => "SQLITE_ERROR"
  end.

Inductive dbres (A : Type) : Type :=
| Ok (a : A)
| Err (e : dberr).
Arguments Err {A}.

(** [this.lastID] and [this.changes] of a statement that ran. *)
Record run_info : Type := mkRun { lastID : Z; changes : Z }.

(** First row of a SELECT, as [db.get] hands it over. *)
Definition first_row {A : Type} (p : A -> bool) (rows : list A) : option A :=
  find p rows.

(** Stable insertion sort: ORDER BY over the rows in scan order. *)
Fixpoint insert_by {A : Type} (le : A -> A -> bool) (x : A) (l : list A)
  : list A :=
  match l with
  | [] => [x]
  | y :: r => if le x y then x :: y :: r else y :: insert_by le x r
  end.

Definition order_by {A : Type} (le : A -> A -> bool) (l : list A) : list A :=
  fold_right (insert_by le) [] l.

(** SUM over a column that is never NULL. *)
Definition sum_Qc (l : list Qc) : Qc :=
  fold_right Qcplus (JS.Qc_of_Z 0) l.

Fixpoint dedup_strings (l : list string) : list string :=
  match l with
  | [] => []
  | x :: r =>
      if existsb (String.eqb x) r then dedup_strings r
      else x :: dedup_strings r
  end.

(** COUNT(DISTINCT col) over text values. *)
Definition count_distinct (l : list string) : Z :=
  Z.of_nat (List.length (dedup_strings l)).

End Db.

(* ================================================================== *)
(** ** Handlers as trees of store calls *)

Module Http.
Import Db.

(** One ranking row of [GET /api/events/:id/ranking]. *)
Record ranking_row : Type := mkRank {
  r_id : Z;
  r_email : string;
  r_total_km : Qc;
  r_entry_count : Z
}.

(** One row of the per-event standing query of [GET /api/events]. *)
Record standing_row : Type := mkStanding {
  st_id : Z;
  st_total_km : Qc;
  st_total_hours : Qc;
  st_total_days : Z
}.

(** One row of the events query of [GET /api/events]. *)
Record event_row : Type := mkEventRow {
  er_event : event;
  er_created_by_email : string;
  er_has_joined : bool
}.

(** The object sent per event: the row spread, then the rank fields.
    [user_totals] holds user_total_km, user_total_hours and
    user_total_days, keys that the branch for an event the user has
    not joined leaves out. *)
Record event_view : Type := mkEventView {
  v_row : event_row;
  user_rank : option Z;
  total_participants : Z;
  user_totals : option (Qc * Qc * Z)
}.

(** One row of the monthly listing: an entry and the upload joined
    to it, if any. *)
Record entry_row : Type := mkEntryRow {
  er_entry : entry;
  er_upload : option upload
}.

Record top10_row : Type := mkTop {
  t_user_id : Z;
  t_email : string;
  t_total_km : Qc
}.

Inductive body : Type :=
| BError (error : string)
| BOk
| BParticipant (participantId : Z)
| BEntry (entryId : Z)
| BClosedDate (closedDateId : Z)
| BRanking (ev : event) (ranking : list ranking_row) (goal : Qc)
| BEvents (evs : list event_view)
| BEntries (rows : list entry_row) (month : string)
| BTop10 (month : string) (top10 : list top10_row).

Record response : Type := mkResponse { status : Z; json : body }.

Definition fail (code : Z) (msg : string) : response :=
  mkResponse code (BError msg).

(** [res.json(b)] without [res.status]: 200. *)
Definition send (b : body) : response := mkResponse 200 b.

(** The store calls of the handlers, one name per call in the source. *)
Inductive site : Type :=
| Join_event | Join_existing | Join_user | Join_insert
| Ranking_event | Ranking_rows
| Events_rows | Events_standing (event_id : Z)
| Entry_participant | Entry_event | Entry_closed | Entry_insert
| Entry_upload
| Close_event | Close_insert | Open_delete
| Entries_rows | Top10_rows
| Post_insert | Post_upload
| Put_select | Put_update
| AdminPut_select | AdminPut_update.

Inductive task : Type :=
| Respond (r : response)
| Call (A : Type) (q : site) (op : store -> dbres A * store)
       (k : dbres A -> task).

(** [db.get]: the first row or nothing. *)
Definition db_get {A : Type} (q : site) (sel : store -> option A)
    (k : dbres (option A) -> task) : task :=
  Call q (fun s => (Ok (sel s), s)) k.

(** [db.all]: every row. *)
Definition db_all {A : Type} (q : site) (sel : store -> list A)
    (k : dbres (list A) -> task) : task :=
  Call q (fun s => (Ok (sel s), s)) k.

(** [db.run] and [stmt.run]: a write. *)
Definition db_run (q : site) (op : store -> dbres run_info * store)
    (k : dbres run_info -> task) : task :=
  Call q op k.

Section Run.
(** [fault q] holds when the store call [q] fails for a reason of
    the store's own (I/O, lock, corruption). *)
Variable fault : site -> bool.

(** One store call of a request, then its callback. *)
Definition step (t : task) (s : store) : task * store :=
  match t with
  | Respond _ => (t, s)
  | Call q op k =>
      if fault q then (k (Err Failure), s)
      else let (r, s') := op s in (k r, s')
  end.

(** A request served with no other request in between. *)
Fixpoint run (t : task) (s : store) : response * store :=
  match t with
  | Respond r => (r, s)
  | Call q op k =>
      if fault q then run (k (Err Failure)) s
      else let (r, s') := op s in run (k r) s'
  end.

Fixpoint update_nth {A : Type} (n : nat) (x : A) (l : list A) : list A :=
  match l, n with
  | [], _ => []
  | _ :: r, O => x :: r
  | y :: r, S m => y :: update_nth m x r
  end.

(** Requests in flight at once: the schedule names, call after call,
    the request whose next store call is served. *)
Fixpoint interleave (sched : list nat) (pool : list task) (s : store)
  : list task * store :=
  match sched with
  | [] => (pool, s)
  | i :: rest =>
      match nth_error pool i with
      | None => interleave rest pool s
      | Some t =>
          let (t', s') := step t s in
          interleave rest (update_nth i t' pool) s'
      end
  end.
End Run.

Definition no_fault : site -> bool := fun _ => false.

(** *** Middleware *)

Record session : Type := mkSession {
  userId : option Z;
  isAdmin : bool
}.

(** [!req.session.userId]: absent, or the falsy id 0. *)
Definition session_user (ss : session) : option Z :=
  match userId ss with
  | Some u => if u =? 0 then None else Some u
  | None => None
  end.

Definition requireAuth (ss : session) (next : Z -> task) : task :=
  match session_user ss with
  | None => Respond (fail 401 "Unauthorized")
  | Some u => next u
  end.

Definition requireAdmin (ss : session) (next : Z -> task) : task :=
  match session_user ss with
  | None => Respond (fail 403 "Forbidden")
  | Some u => if isAdmin ss then next u else Respond (fail 403 "Forbidden")
  end.

(** [Number(req.params.id)] with the guard
    [!Number.isInteger(id) || id <= 0]. *)
Definition param_id (raw : string) : option Z :=
  let n := JS.Number (JS.JStr raw) in
  if negb (JS.isInteger n) || JS.num_le0 n then None
  else Some (JS.int_of n).

(** *** POST /api/events/:id/join *)

Definition select_event (eventId : Z) (s : store) : option event :=
  first_row (fun e => ev_id e =? eventId) (events s).

Definition select_participant (eventId uid : Z) (s : store)
  : option event_participant :=
  first_row (fun ep => (ep_event_id ep =? eventId) && (ep_user_id ep =? uid))
            (event_participants s).

Definition select_user (uid : Z) (s : store) : option user :=
  first_row (fun u => u_id u =? uid) (users s).

(** INSERT INTO event_participants (event_id, user_id): refused by
    UNIQUE(event_id, user_id) when the pair is there already. *)
Definition insert_participant (now eventId uid : Z) (s : store)
  : dbres run_info * store :=
  match select_participant eventId uid s with
  | Some _ => (Err Constraint, s)
  | None =>
      let id := next_id ep_id (seq_event_participants s)
                        (event_participants s) in
      (Ok (mkRun id 1),
       mkStore (users s) (entries s) (uploads s) (events s)
               (event_participants s ++ [mkParticipant id eventId uid now])
               (event_closed_dates s)
               (seq_entries s) (seq_uploads s) id
               (seq_event_closed_dates s))
  end.

(** A template literal prints NULL as [null]. *)
Definition show_text (v : option string) : string :=
  match v with
  | Some t => t
  | None => "null"
  end.

(** [restriction !== gender]. *)
Definition differs (restriction : string) (gender : option string) : bool :=
  match gender with
  | Some g => negb (String.eqb restriction g)
  | None => true
  end.

Definition gender_message (restriction : string) (gender : option string)
  : string :=
  "This event is exclusive to " ++ restriction
    ++ " participants only. You are " ++ show_text gender ++ ".".

Definition phOffset : Z := 8 * 60 * 60 * 1000.

Definition join (now : Z) (ss : session) (id : string) : task :=
  requireAuth ss (fun uid =>
  match param_id id with
  | None => Respond (fail 400 "Invalid event ID")
  | Some eventId =>
  db_get Join_event (select_event eventId) (fun r =>
  match r with
  | Err _ => Respond (fail 500 "Database error")
  | Ok None => Respond (fail 404 "Event not found")
  | Ok (Some event) =>
  let phTime := now + phOffset in
  let startDate := JS.Date_parse (ev_start_date event) in
  let endDate := JS.Date_parse (ev_end_date event) in
  if JS.Date_lt phTime startDate
  then Respond (fail 400 "Event has not started yet")
  else if JS.Date_gt phTime endDate
  then Respond (fail 400 "Event has already ended")
  else
  db_get Join_existing (select_participant eventId uid) (fun r =>
  match r with
  | Err _ => Respond (fail 500 "Database error")
  | Ok (Some _) => Respond (fail 400 "You have already joined this event")
  | Ok None =>
  db_get Join_user (select_user uid) (fun r =>
  match r with
  | Err _ => Respond (fail 500 "Database error")
  | Ok None => Respond (fail 404 "User not found")
  | Ok (Some user) =>
  if negb (String.eqb (ev_gender_restriction event) "both")
     && differs (ev_gender_restriction event) (u_gender user)
  then Respond (fail 403 (gender_message (ev_gender_restriction event)
                                         (u_gender user)))
  else
  db_run Join_insert (insert_participant now eventId uid) (fun r =>
  match r with
  | Err _ => Respond (fail 500 "Failed to join event")
  | Ok info => Respond (send (BParticipant (lastID info)))
  end)
  end)
  end)
  end)
  end).

(** *** GET /api/events/:id/ranking *)

(** [e.entry_date >= ? AND e.entry_date <= ?]. *)
Definition in_period (startDate endDate : string) (e : entry) : bool :=
  String.leb startDate (e_entry_date e)
  && String.leb (e_entry_date e) endDate.

(** FROM event_participants ep JOIN users u ON u.id = ep.user_id
    LEFT JOIN entries e ON e.user_id = u.id AND (period)
    WHERE ep.event_id = ?  *)
Definition participants_join (eventId : Z) (startDate endDate : string)
    (s : store) : list (user * option entry) :=
  flat_map (fun ep =>
    if ep_event_id ep =? eventId then
      flat_map (fun u =>
        if u_id u =? ep_user_id ep then
          match filter (fun e => (e_user_id e =? u_id u)
                                 && in_period startDate endDate e)
                       (entries s) with
          | [] => [(u, None)]
          | es => map (fun e => (u, Some e)) es
          end
        else []) (users s)
    else []) (event_participants s).

(** The distinct values of a list, each at its first place. *)
Fixpoint distinct {K : Type} (eqb : K -> K -> bool) (l : list K) : list K :=
  match l with
  | [] => []
  | x :: r => x :: filter (fun y => negb (eqb x y)) (distinct eqb r)
  end.

(** GROUP BY: the keys in the order the scan meets them, each with
    its rows.  SQL leaves the order of the groups open; every query
    below orders them afterwards. *)
Definition group_by {A K : Type} (eqb : K -> K -> bool) (key : A -> K)
    (rows : list A) : list (K * list A) :=
  map (fun k => (k, filter (fun r => eqb k (key r)) rows))
      (distinct eqb (map key rows)).

(** The non-NULL values of a column of [e] in a group. *)
Definition column {U B : Type} (f : entry -> B)
    (g : list (U * option entry)) : list B :=
  flat_map (fun r => match snd r with Some e => [f e] | None => [] end) g.

Definition user_key_eqb (a b : Z * string) : bool :=
  (fst a =? fst b) && String.eqb (snd a) (snd b).

(** ORDER BY total_km DESC, u.email ASC. *)
Definition rank_le (a b : ranking_row) : bool :=
  JS.Qc_ltb (r_total_km b) (r_total_km a)
  || (JS.Qc_eqb (r_total_km a) (r_total_km b)
      && String.leb (r_email a) (r_email b)).

Definition ranking_groups (eventId : Z) (startDate endDate : string)
    (s : store) : list ranking_row :=
  map (fun g =>
         mkRank (fst (fst g)) (snd (fst g))
                (sum_Qc (column e_km_run (snd g)))
                (Z.of_nat (List.length (column e_id (snd g)))))
      (group_by user_key_eqb (fun r => (u_id (fst r), u_email (fst r)))
                (participants_join eventId startDate endDate s)).

Definition ranking_select (eventId : Z) (startDate endDate : string)
    (s : store) : list ranking_row :=
  order_by rank_le (ranking_groups eventId startDate endDate s).

Definition ranking (ss : session) (id : string) : task :=
  requireAuth ss (fun _ =>
  match param_id id with
  | None => Respond (fail 400 "Invalid event ID")
  | Some eventId =>
  db_get Ranking_event (select_event eventId) (fun r =>
  match r with
  | Err _ => Respond (fail 500 "Database error")
  | Ok None => Respond (fail 404 "Event not found")
  | Ok (Some event) =>
  let startDate := ev_start_date event in
  let endDate := ev_end_date event in
  db_all Ranking_rows (ranking_select eventId startDate endDate) (fun r =>
  match r with
  | Err _ => Respond (fail 500 "Failed to fetch ranking")
  | Ok rows => Respond (send (BRanking event rows (ev_km_goal event)))
  end)
  end)
  end).

(** *** GET /api/events *)

(** FROM events e JOIN users u ON u.id = e.created_by
    LEFT JOIN event_participants ep
      ON ep.event_id = e.id AND ep.user_id = ?
    WHERE e.end_date >= ?  ORDER BY e.start_date ASC  *)
Definition events_select (uid : Z) (today : string) (s : store)
  : list event_row :=
  order_by (fun a b => String.leb (ev_start_date (er_event a))
                                  (ev_start_date (er_event b)))
    (flat_map (fun e =>
       if String.leb today (ev_end_date e) then
         flat_map (fun u =>
           if u_id u =? ev_created_by e then
             match filter (fun ep => (ep_event_id ep =? ev_id e)
                                     && (ep_user_id ep =? uid))
                          (event_participants s) with
             | [] => [mkEventRow e (u_email u) false]
             | eps => map (fun _ => mkEventRow e (u_email u) true) eps
             end
           else []) (users s)
       else []) (events s)).

(** ORDER BY total_km DESC, u.id ASC. *)
Definition standing_le (a b : standing_row) : bool :=
  JS.Qc_ltb (st_total_km b) (st_total_km a)
  || (JS.Qc_eqb (st_total_km a) (st_total_km b) && (st_id a <=? st_id b)).

Definition standing_groups (eventId : Z) (startDate endDate : string)
    (s : store) : list standing_row :=
  map (fun g =>
         mkStanding (fst g)
                    (sum_Qc (column e_km_run (snd g)))
                    (sum_Qc (column e_hours (snd g)))
                    (count_distinct (column e_entry_date (snd g))))
      (group_by Z.eqb (fun r => u_id (fst r))
                (participants_join eventId startDate endDate s)).

Definition standing_select (eventId : Z) (startDate endDate : string)
    (s : store) : list standing_row :=
  order_by standing_le (standing_groups eventId startDate endDate s).

(** [ranking.findIndex(r => r.id === uid) + 1]. *)
Fixpoint find_rank (uid : Z) (l : list standing_row) : Z :=
  match l with
  | [] => 0
  | r :: rest =>
      if st_id r =? uid then 1
      else let i := find_rank uid rest in
           if i =? 0 then 0 else i + 1
  end.

Definition standing_view (uid : Z) (ev : event_row)
    (r : dbres (list standing_row)) : event_view :=
  match r with
  | Err _ =>
      mkEventView ev None 0
        (Some (JS.Qc_of_Z 0, JS.Qc_of_Z 0, 0))
  | Ok ranking =>
      let userRank := find_rank uid ranking in
      let userStats := find (fun r => st_id r =? uid) ranking in
      mkEventView ev
        (if 0 <? userRank then Some userRank else None)
        (Z.of_nat (List.length ranking))
        (Some match userStats with
              | Some st => (st_total_km st, st_total_hours st,
                            st_total_days st)
              | None => (JS.Qc_of_Z 0, JS.Qc_of_Z 0, 0)
              end)
  end.

(** [events.map(...)] and [Promise.all]: one standing query per
    joined event, in order; none for the others. *)
Fixpoint events_views (uid : Z) (evs : list event_row)
    (k : list event_view -> task) : task :=
  match evs with
  | [] => k []
  | ev :: rest =>
      if negb (er_has_joined ev) then
        events_views uid rest
          (fun vs => k (mkEventView ev None 0 None :: vs))
      else
        db_all (Events_standing (ev_id (er_event ev)))
          (standing_select (ev_id (er_event ev))
                           (ev_start_date (er_event ev))
                           (ev_end_date (er_event ev)))
          (fun r =>
             events_views uid rest
               (fun vs => k (standing_view uid ev r :: vs)))
  end.

Definition list_events (now : Z) (ss : session) : task :=
  requireAuth ss (fun uid =>
  let phTime := now + phOffset in
  let today := JS.toISODate phTime in
  db_all Events_rows (events_select uid today) (fun r =>
  match r with
  | Err _ => Respond (fail 500 "Failed to fetch events")
  | Ok events =>
      events_views uid events (fun eventsData =>
        Respond (send (BEvents eventsData)))
  end)).

(** *** Entry fields and their coercion *)

(** [req.file], as multer leaves it. *)
Record file : Type := mkFile {
  filename : string;
  originalname : string;
  mimetype : string;
  size : Z
}.

(** [date], [km], [hours] and [pace] of [req.body]. *)
Record fields : Type := mkFields {
  date : option string;
  km : JS.jsval;
  hours : JS.jsval;
  pace : JS.jsval
}.

(** [!date]. *)
Definition missing (d : option string) : bool :=
  match d with
  | None => true
  | Some t => String.eqb t ""
  end.

(** [Number(km) || 0]. *)
Definition kmNum (f : fields) : Qc := JS.or_zero (JS.Number (km f)).

(** [Number(hours) || 0]. *)
Definition hoursNum (f : fields) : Qc := JS.or_zero (JS.Number (hours f)).

(** [pace === null || pace === undefined || pace === '' ? null :
    Number(pace)], a NaN being bound as NULL. *)
Definition paceNum (f : fields) : option Qc :=
  match pace f with
  | JS.JNull | JS.JUndefined => None
  | JS.JStr EmptyString => None
  | v => match JS.Number v with
         | JS.NaN => None
         | JS.Num q => Some q
         end
  end.

(** INSERT INTO entries (user_id, entry_date, km_run, hours, pace). *)
Definition insert_entry (uid : Z) (d : string) (k h : Qc) (p : option Qc)
    (s : store) : dbres run_info * store :=
  let id := next_id e_id (seq_entries s) (entries s) in
  (Ok (mkRun id 1),
   mkStore (users s) (entries s ++ [mkEntry id uid d k h p]) (uploads s)
           (events s) (event_participants s) (event_closed_dates s)
           id (seq_uploads s) (seq_event_participants s)
           (seq_event_closed_dates s)).

(** INSERT INTO uploads (user_id, entry_id, filename, originalname,
    mimetype, size). *)
Definition insert_upload (uid entryId : Z) (f : file) (s : store)
  : dbres run_info * store :=
  let id := next_id up_id (seq_uploads s) (uploads s) in
  (Ok (mkRun id 1),
   mkStore (users s) (entries s)
           (uploads s ++ [mkUpload id uid (Some entryId) (filename f)
                                   (originalname f) (mimetype f) (size f)])
           (events s) (event_participants s) (event_closed_dates s)
           (seq_entries s) id (seq_event_participants s)
           (seq_event_closed_dates s)).

(** The entry and upload writes shared by the two submission routes. *)
Definition save_entry (qe qu : site) (uid : Z) (d : string) (f : fields)
    (fl : file) : task :=
  db_run qe (insert_entry uid d (kmNum f) (hoursNum f) (paceNum f)) (fun r =>
  match r with
  | Err _ => Respond (fail 500 "Failed to save entry")
  | Ok info =>
  let entryId := lastID info in
  db_run qu (insert_upload uid entryId fl) (fun r =>
  match r with
  | Err _ => Respond (fail 500 "Failed to save screenshot")
  | Ok _ => Respond (send (BEntry entryId))
  end)
  end).

(** *** POST /api/entries *)

Definition post_entry (ss : session) (f : fields) (fl : option file) : task :=
  requireAuth ss (fun uid =>
  match date f with
  | None => Respond (fail 400 "Missing date")
  | Some d =>
  if String.eqb d "" then Respond (fail 400 "Missing date") else
  match fl with
  | None => Respond (fail 400 "Screenshot file is required")
  | Some fl => save_entry Post_insert Post_upload uid d f fl
  end
  end).

(** *** POST /api/events/:id/entry *)

Definition select_closed (eventId : Z) (d : string) (s : store)
  : option event_closed_date :=
  first_row (fun c => (ecd_event_id c =? eventId)
                      && String.eqb (ecd_closed_date c) d)
            (event_closed_dates s).

Definition event_entry (ss : session) (id : string) (f : fields)
    (fl : option file) : task :=
  requireAuth ss (fun uid =>
  match param_id id with
  | None => Respond (fail 400 "Invalid event ID")
  | Some eventId =>
  match date f with
  | None => Respond (fail 400 "Missing date")
  | Some d =>
  if String.eqb d "" then Respond (fail 400 "Missing date") else
  match fl with
  | None => Respond (fail 400 "Screenshot file is required")
  | Some fl =>
  db_get Entry_participant (select_participant eventId uid) (fun r =>
  match r with
  | Err _ => Respond (fail 500 "Database error")
  | Ok None => Respond (fail 403 "You are not a participant in this event")
  | Ok (Some _) =>
  db_get Entry_event (select_event eventId) (fun r =>
  match r with
  | Err _ => Respond (fail 500 "Database error")
  | Ok None => Respond (fail 404 "Event not found")
  | Ok (Some event) =>
  if String.ltb d (ev_start_date event) || String.ltb (ev_end_date event) d
  then Respond (fail 400 "Entry date must be within event period")
  else
  db_get Entry_closed (select_closed eventId d) (fun r =>
  match r with
  | Err _ => Respond (fail 500 "Database error")
  | Ok (Some _) => Respond (fail 400 "Entry submission is closed for this date")
  | Ok None => save_entry Entry_insert Entry_upload uid d f fl
  end)
  end)
  end)
  end
  end
  end).

(** *** POST and DELETE /api/admin/events/:id/close-date *)

(** Modelled from the spec: the table event_closed_dates, whose CREATE
    TABLE is not among the sources, holds (event_id, closed_date) as a
    unique pair with created_by and created_at; an INSERT of a pair
    that is there already is refused. *)
Definition insert_closed (now eventId : Z) (d : string) (uid : Z)
    (s : store) : dbres run_info * store :=
  match select_closed eventId d s with
  | Some _ => (Err Constraint, s)
  | None =>
      let id := next_id ecd_id (seq_event_closed_dates s)
                        (event_closed_dates s) in
      (Ok (mkRun id 1),
       mkStore (users s) (entries s) (uploads s) (events s)
               (event_participants s)
               (event_closed_dates s ++ [mkClosedDate id eventId d uid now])
               (seq_entries s) (seq_uploads s) (seq_event_participants s)
               id)
  end.

(** DELETE FROM event_closed_dates WHERE event_id = ? AND
    closed_date = ?. *)
Definition delete_closed (eventId : Z) (d : string) (s : store)
  : dbres run_info * store :=
  let hit := fun c => (ecd_event_id c =? eventId)
                      && String.eqb (ecd_closed_date c) d in
  (Ok (mkRun 0 (Z.of_nat (List.length (filter hit (event_closed_dates s))))),
   mkStore (users s) (entries s) (uploads s) (events s)
           (event_participants s)
           (filter (fun c => negb (hit c)) (event_closed_dates s))
           (seq_entries s) (seq_uploads s) (seq_event_participants s)
           (seq_event_closed_dates s)).

Definition close_date (now : Z) (ss : session) (id : string)
    (bdate : option string) : task :=
  requireAdmin ss (fun uid =>
  match param_id id with
  | None => Respond (fail 400 "Invalid event ID")
  | Some eventId =>
  match bdate with
  | None => Respond (fail 400 "Missing date")
  | Some d =>
  if String.eqb d "" then Respond (fail 400 "Missing date") else
  if negb (JS.is_date_shape d)
  then Respond (fail 400 "Invalid date format. Use YYYY-MM-DD")
  else
  db_get Close_event (select_event eventId) (fun r =>
  match r with
  | Err _ => Respond (fail 500 "Database error")
  | Ok None => Respond (fail 404 "Event not found")
  | Ok (Some event) =>
  if String.ltb d (ev_start_date event) || String.ltb (ev_end_date event) d
  then Respond (fail 400 "Date must be within event period")
  else
  db_run Close_insert (insert_closed now eventId d uid) (fun r =>
  match r with
  | Err e =>
      if String.eqb (code e) "SQLITE_CONSTRAINT_UNIQUE"
      then Respond (fail 400 "This date is already closed for submissions")
      else Respond (fail 500 "Failed to close date")
  | Ok info => Respond (send (BClosedDate (lastID info)))
  end)
  end)
  end
  end).

Definition open_date (ss : session) (id : string) (bdate : option string)
  : task :=
  requireAdmin ss (fun _ =>
  match param_id id with
  | None => Respond (fail 400 "Invalid event ID")
  | Some eventId =>
  match bdate with
  | None => Respond (fail 400 "Missing date")
  | Some d =>
  if String.eqb d "" then Respond (fail 400 "Missing date") else
  db_run Open_delete (delete_closed eventId d) (fun r =>
  match r with
  | Err _ => Respond (fail 500 "Database error")
  | Ok info =>
      if changes info =? 0 then Respond (fail 404 "Closed date not found")
      else Respond (send BOk)
  end)
  end
  end).

(** *** PUT /api/entries/:id and PUT /api/admin/entries/:id *)

Definition select_entry (entryId : Z) (owner : option Z) (s : store)
  : option entry :=
  first_row (fun e => (e_id e =? entryId)
                      && match owner with
                         | Some u => e_user_id e =? u
                         | None => true
                         end)
            (entries s).

(** UPDATE entries SET entry_date = ?, km_run = ?, hours = ?, pace = ?
    WHERE id = ? [AND user_id = ?]; a missing date is bound as NULL
    and refused by NOT NULL when a row matches. *)
Definition update_entry (entryId : Z) (owner : option Z) (d : option string)
    (k h : Qc) (p : option Qc) (s : store) : dbres run_info * store :=
  let hit := fun e => (e_id e =? entryId)
                      && match owner with
                         | Some u => e_user_id e =? u
                         | None => true
                         end in
  match d with
  | None =>
      if existsb hit (entries s) then (Err Constraint, s)
      else (Ok (mkRun 0 0), s)
  | Some d =>
      (Ok (mkRun 0 (Z.of_nat (List.length (filter hit (entries s))))),
       mkStore (users s)
               (map (fun e => if hit e
                              then mkEntry (e_id e) (e_user_id e) d k h p
                              else e) (entries s))
               (uploads s) (events s) (event_participants s)
               (event_closed_dates s)
               (seq_entries s) (seq_uploads s) (seq_event_participants s)
               (seq_event_closed_dates s))
  end.

Definition put_entry (ss : session) (id : string) (f : fields) : task :=
  requireAuth ss (fun uid =>
  match param_id id with
  | None => Respond (fail 400 "Invalid entry ID")
  | Some entryId =>
  db_get Put_select (select_entry entryId (Some uid)) (fun r =>
  match r with
  | Err _ => Respond (fail 500 "Database error")
  | Ok None => Respond (fail 404 "Entry not found or not authorized")
  | Ok (Some _) =>
  db_run Put_update
    (update_entry entryId (Some uid) (date f) (kmNum f) (hoursNum f)
                  (paceNum f)) (fun r =>
  match r with
  | Err _ => Respond (fail 500 "Failed to update entry")
  | Ok info =>
      if changes info =? 0 then Respond (fail 404 "Entry not found")
      else Respond (send BOk)
  end)
  end)
  end).

Definition admin_put_entry (ss : session) (id : string) (f : fields) : task :=
  requireAdmin ss (fun _ =>
  match param_id id with
  | None => Respond (fail 400 "Invalid entry ID")
  | Some entryId =>
  db_get AdminPut_select (select_entry entryId None) (fun r =>
  match r with
  | Err _ => Respond (fail 500 "Database error")
  | Ok None => Respond (fail 404 "Entry not found")
  | Ok (Some _) =>
  db_run AdminPut_update
    (update_entry entryId None (date f) (kmNum f) (hoursNum f)
                  (paceNum f)) (fun r =>
  match r with
  | Err _ => Respond (fail 500 "Failed to update entry")
  | Ok info =>
      if changes info =? 0 then Respond (fail 404 "Entry not found")
      else Respond (send BOk)
  end)
  end)
  end).

(** *** The month window of GET /api/entries and GET /api/admin/top10 *)

(** [/^\d{4}-\d{2}$/.test(month)]. *)
Definition is_month_shape (s : string) : bool :=
  Nat.eqb (String.length s) 7
  && JS.all_digits (substring 0 4 s)
  && String.eqb (substring 4 1 s) "-"
  && JS.all_digits (substring 5 2 s).

(** First day of the month after month index [m] (0-based) of year
    [y], as [`${nextY}-${nextM}-01`]. *)
Definition next_month_start (y m : Z) : string :=
  let (nextY, nextM0) := JS.Date_ym y m in
  JS.Z_toString nextY ++ "-" ++ JS.pad2 (nextM0 + 1) ++ "-01".

(** [start] and [end] of the window.  [localNow] is the wall clock of
    the server's own time zone, read when no month is given. *)
Definition month_window (month : option string) (localNow : Z)
  : string * string :=
  let given := match month with
               | Some mo => negb (String.eqb mo "") && is_month_shape mo
               | None => false
               end in
  match month, given with
  | Some mo, true =>
      let y := JS.digits_value (substring 0 4 mo) in
      let m := JS.digits_value (substring 5 2 mo) in
      (mo ++ "-01", next_month_start y m)
  | _, _ =>
      let '(y, m, _) := JS.civil_from_days (localNow / JS.msPerDay) in
      (JS.Z_toString y ++ "-" ++ JS.pad2 m ++ "-01", next_month_start y m)
  end.

(** [e.entry_date >= ? AND e.entry_date < ?]. *)
Definition in_month (start stop : string) (e : entry) : bool :=
  String.leb start (e_entry_date e) && String.ltb (e_entry_date e) stop.

(** FROM entries e LEFT JOIN uploads u ON u.entry_id = e.id
    WHERE e.user_id = ? AND (window)  ORDER BY e.entry_date DESC  *)
Definition entries_select (uid : Z) (start stop : string) (s : store)
  : list entry_row :=
  order_by (fun a b => String.leb (e_entry_date (er_entry b))
                                  (e_entry_date (er_entry a)))
    (flat_map (fun e =>
       if (e_user_id e =? uid) && in_month start stop e then
         match filter (fun u => match up_entry_id u with
                                | Some i => i =? e_id e
                                | None => false
                                end) (uploads s) with
         | [] => [mkEntryRow e None]
         | us => map (fun u => mkEntryRow e (Some u)) us
         end
       else []) (entries s)).

Definition list_entries (localNow : Z) (ss : session) (month : option string)
  : task :=
  requireAuth ss (fun uid =>
  let (start, stop) := month_window month localNow in
  db_all Entries_rows (entries_select uid start stop) (fun r =>
  match r with
  | Err _ => Respond (fail 500 "Failed to fetch")
  | Ok rows => Respond (send (BEntries rows (JS.slice0 7 start)))
  end)).

(** ROUND(x, 2): to the nearest hundredth, a half away from zero. *)
Definition round2 (q : Qc) : Qc :=
  let n := Qnum q in
  let d := Zpos (Qden q) in
  Q2Qc (Qmake (Z.sgn n * ((200 * Z.abs n + d) / (2 * d))) 100).

(** FROM entries e JOIN users u ON u.id = e.user_id WHERE (window). *)
Definition month_join (start stop : string) (s : store)
  : list (entry * user) :=
  flat_map (fun e =>
    if in_month start stop e then
      map (fun u => (e, u)) (filter (fun u => u_id u =? e_user_id e) (users s))
    else []) (entries s).

(** GROUP BY e.user_id with ROUND(SUM(e.km_run), 2); the bare columns
    u.id and u.email come from a row of the group. *)
Definition top10_groups (start stop : string) (s : store) : list top10_row :=
  flat_map (fun g =>
         match snd g with
         | [] => []
         | (_, u) :: _ =>
             [mkTop (u_id u) (u_email u)
                    (round2 (sum_Qc (map (fun r => e_km_run (fst r)) (snd g))))]
         end)
      (group_by Z.eqb (fun r => e_user_id (fst r)) (month_join start stop s)).

(** ORDER BY total_km DESC LIMIT 10. *)
Definition top10_select (start stop : string) (s : store) : list top10_row :=
  firstn 10 (order_by (fun a b => JS.Qc_leb (t_total_km b) (t_total_km a))
                      (top10_groups start stop s)).

Definition top10 (localNow : Z) (ss : session) (month : option string)
  : task :=
  requireAdmin ss (fun _ =>
  let (start, stop) := month_window month localNow in
  db_all Top10_rows (top10_select start stop) (fun r =>
  match r with
  | Err _ => Respond (fail 500 "Failed to compute top 10")
  | Ok rows => Respond (send (BTop10 (JS.slice0 7 start) rows))
  end)).

End Http.

Import Db Http.

(* ================================================================== *)
(** ** A sample store: the scenario of the specification

    Event 1 runs from 2024-06-01 to 2024-06-30 for women with a goal of
    50 km; user 2 is a woman, user 3 a man, user 1 the administrator. *)

Module Sample.

Definition admin : user := mkUser 1 "admin" None true.
Definition userA : user := mkUser 2 "a@x.com" (Some "female") false.
Definition userB : user := mkUser 3 "b@x.com" (Some "male") false.

Definition june : event :=
  mkEvent 1 "June run" "2024-06-01" "2024-06-30" "advanced" "female"
          (JS.Qc_of_Z 50) 0 1 false.

Definition s0 : store :=
  mkStore [admin; userA; userB] [] [] [june] [] [] 0 0 0 0.

Definition asA : session := mkSession (Some 2) false.
Definition asB : session := mkSession (Some 3) false.
Definition asAdmin : session := mkSession (Some 1) true.

(** 2024-06-15 12:00 and 2024-06-30 10:00 in Manila, as instants. *)
Definition mid_june : Z := 1718424000000.
Definition last_day : Z := 1719712800000.

End Sample.

(* ================================================================== *)
(** ** Notions used in the statements *)

(** The gender gate of the join handler. *)
Definition gender_refused (ev : event) (u : user) : bool :=
  negb (String.eqb (ev_gender_restriction ev) "both")
  && differs (ev_gender_restriction ev) (u_gender u).

(** The calendar date in Manila at the instant [now]. *)
Definition today_ph (now : Z) : string := JS.toISODate (now + phOffset).

(** [start_date <= today <= end_date], the dates compared as calendar
    dates. *)
Definition within_dates (ev : event) (today : string) : bool :=
  String.leb (ev_start_date ev) today && String.leb today (ev_end_date ev).

(** The rows a user holds for an event. *)
Definition rows_of (eventId uid : Z) (s : store) : list event_participant :=
  filter (fun ep => (ep_event_id ep =? eventId) && (ep_user_id ep =? uid))
         (event_participants s).

(** The rows of an event. *)
Definition participants_of (eventId : Z) (s : store)
  : list event_participant :=
  filter (fun ep => ep_event_id ep =? eventId) (event_participants s).

Definition pair_of (ep : event_participant) : Z * Z :=
  (ep_event_id ep, ep_user_id ep).

(** What the schema declares of the tables: the primary key and the
    unique email of users, UNIQUE(event_id, user_id) and, by the
    foreign key of event_participants with its cascade, a user row
    behind every participant row. *)
Record consistent (s : store) : Prop := mkConsistent {
  user_ids_unique : NoDup (map u_id (users s));
  user_emails_unique : NoDup (map u_email (users s));
  pairs_unique : NoDup (map pair_of (event_participants s));
  participants_have_users :
    forall ep, In ep (event_participants s) ->
               exists u, In u (users s) /\ u_id u = ep_user_id ep
}.

(** The object the listing builds for one row of its events query:
    the standing query is sent for a joined event only, and may fail. *)
Definition view_of (fault : site -> bool) (uid : Z) (s : store)
    (ev : event_row) : event_view :=
  if negb (er_has_joined ev) then mkEventView ev None 0 None
  else standing_view uid ev
         (if fault (Events_standing (ev_id (er_event ev)))
          then Err Failure
          else Ok (standing_select (ev_id (er_event ev))
                                   (ev_start_date (er_event ev))
                                   (ev_end_date (er_event ev)) s)).

(** A store in which user 2 has joined event 1. *)
Definition joined_store : store :=
  snd (run no_fault (join Sample.mid_june Sample.asA "1") Sample.s0).

(** The standing query of event 1 fails; every other call works. *)
Definition standing_fails (q : site) : bool :=
  match q with
  | Events_standing 1 => true
  | _ => false
  end.

(** The invariant of the data model on the entries table. *)
Definition nonneg_entries (s : store) : Prop :=
  forall e, In e (entries s) ->
            (JS.Qc_of_Z 0 <= e_km_run e)%Qc /\ (JS.Qc_of_Z 0 <= e_hours e)%Qc.

(** What a request with the fields [f] may do to the entries table:
    nothing, one row added with the coerced fields, or rows rewritten
    with the coerced fields. *)
Definition entries_written (f : fields) (s s' : store) : Prop :=
  entries s' = entries s
  \/ (exists id uid d,
        entries s' = (entries s
                      ++ [mkEntry id uid d (kmNum f) (hoursNum f) (paceNum f)])%list)
  \/ (exists hit d,
        entries s' = map (fun e => if hit e : bool
                                   then mkEntry (e_id e) (e_user_id e) d
                                                (kmNum f) (hoursNum f) (paceNum f)
                                   else e) (entries s)).

Definition shot : file := mkFile "1718424000000-1.png" "run.png" "image/png" 1024.

(** Fields of a submission of 5 km in one hour on the given date. *)
Definition five_km (d : string) : fields :=
  mkFields (Some d) (JS.JStr "5") (JS.JStr "1") JS.JUndefined.

(** Fields with a negative distance and a negative duration. *)
Definition negative_km : fields :=
  mkFields (Some "2024-06-10") (JS.JStr "-5") (JS.JNum (JS.Num (JS.Qc_of_Z (-1))))
           JS.JUndefined.

Definition digits10 : list ascii :=
  ["0"; "1"; "2"; "3"; "4"; "5"; "6"; "7"; "8"; "9"]%char.

(** A month token spelt with the six digits given. *)
Definition month_token (c1 c2 c3 c4 c5 c6 : ascii) : string :=
  String c1 (String c2 (String c3 (String c4 (String "-"
    (String c5 (String c6 EmptyString)))))).

(** The token names a month of the calendar in a year written with
    four digits and no leading zero, and the month after it is still in
    such a year: 1000-01 to 9999-11. *)
Definition calendar_month (mo : string) : bool :=
  let y := JS.digits_value (substring 0 4 mo) in
  let m := JS.digits_value (substring 5 2 mo) in
  ((1 <=? m) && (m <=? 12))
  && ((1000 <=? y) && ((y <? 9999) || (m <? 12))).

(** The first day of the month after the one the token names, as a
    calendar date: December is followed by January of the next year. *)
Definition first_of_next_month (mo : string) : string :=
  let y := JS.digits_value (substring 0 4 mo) in
  let m := JS.digits_value (substring 5 2 mo) in
  if m =? 12 then JS.iso_year (y + 1) ++ "-01-01"
  else JS.iso_year y ++ "-" ++ JS.pad2 (m + 1) ++ "-01".

(** For a calendar month the end of the window is the first day of the
    next month, and the start is before it in the order of strings. *)
Definition window_ordered (mo : string) : bool :=
  negb (calendar_month mo)
  || (String.ltb (mo ++ "-01")
        (next_month_start (JS.digits_value (substring 0 4 mo))
                          (JS.digits_value (substring 5 2 mo)))
      && String.eqb
           (next_month_start (JS.digits_value (substring 0 4 mo))
                             (JS.digits_value (substring 5 2 mo)))
           (first_of_next_month mo)).

(** The check of [window_ordered] over every year of a month. *)
Definition years_checked (c5 c6 : ascii) : bool :=
  forallb (fun c1 => forallb (fun c2 => forallb (fun c3 => forallb (fun c4 =>
    window_ordered (month_token c1 c2 c3 c4 c5 c6))
  digits10) digits10) digits10) digits10.

Definition month_checked (c5 c6 : ascii) : bool :=
  if calendar_month (month_token "2" "0" "0" "0" c5 c6)
  then years_checked c5 c6
  else true.

(** The entries of a user dated inside a period, both ends included. *)
Definition period_entries (uid : Z) (startDate endDate : string) (s : store)
  : list entry :=
  filter (fun e => (e_user_id e =? uid) && in_period startDate endDate e)
         (entries s).

(** The users behind the participant rows of an event, in scan order. *)
Definition participant_users (eventId : Z) (s : store) : list user :=
  flat_map (fun ep =>
              if ep_event_id ep =? eventId
              then filter (fun u => u_id u =? ep_user_id ep) (users s)
              else [])
           (event_participants s).

(** The rows that the LEFT JOIN yields for one participant. *)
Definition joined_rows (startDate endDate : string) (s : store) (u : user)
  : list (user * option entry) :=
  match period_entries (u_id u) startDate endDate s with
  | [] => [(u, None)]
  | es => map (fun e => (u, Some e)) es
  end.

(** The ranking row of a participant, from the entries of the period. *)
Definition rank_row (startDate endDate : string) (s : store) (u : user)
  : ranking_row :=
  mkRank (u_id u) (u_email u)
         (sum_Qc (map e_km_run (period_entries (u_id u) startDate endDate s)))
         (Z.of_nat (List.length (period_entries (u_id u) startDate endDate s))).

(** The standing row of a participant. *)
Definition stand_row (startDate endDate : string) (s : store) (u : user)
  : standing_row :=
  mkStanding (u_id u)
    (sum_Qc (map e_km_run (period_entries (u_id u) startDate endDate s)))
    (sum_Qc (map e_hours (period_entries (u_id u) startDate endDate s)))
    (count_distinct
       (map e_entry_date (period_entries (u_id u) startDate endDate s))).

(** A store with the tie of the specification: in event 2, open to all,
    user 3 joined first and ran 12.5 km in one entry, user 2 joined
    second and ran 5 km and 7.5 km, user 1 joined last and has no
    entry; an entry of user 2 on 2024-07-01 lies outside the period. *)
Definition open_run : event :=
  mkEvent 2 "Open run" "2024-06-01" "2024-06-30" "intermediate" "both"
          (JS.Qc_of_Z 50) 0 1 false.

Definition tie_store : store :=
  mkStore [Sample.admin; Sample.userA; Sample.userB]
          [mkEntry 1 3 "2024-06-05" (Q2Qc (25 # 2)) (JS.Qc_of_Z 1) None;
           mkEntry 2 2 "2024-06-01" (JS.Qc_of_Z 5) (JS.Qc_of_Z 1) None;
           mkEntry 3 2 "2024-06-30" (Q2Qc (15 # 2)) (JS.Qc_of_Z 1) None;
           mkEntry 4 2 "2024-07-01" (JS.Qc_of_Z 3) (JS.Qc_of_Z 1) None]
          []
          [Sample.june; open_run]
          [mkParticipant 1 2 3 Sample.mid_june;
           mkParticipant 2 2 2 Sample.mid_june;
           mkParticipant 3 2 1 Sample.mid_june]
          [] 4 0 3 0.

(** [a] may stand before [b] under ORDER BY total_km DESC, email ASC. *)
Definition rank_before (a b : ranking_row) : Prop :=
  (r_total_km b < r_total_km a)%Qc
  \/ (r_total_km a = r_total_km b
      /\ String.leb (r_email a) (r_email b) = true).

(** Two stores hold the same rows, in whatever order, in the three
    tables the ranking reads. *)
Definition same_rows (s s' : store) : Prop :=
  Permutation (users s) (users s')
  /\ Permutation (event_participants s) (event_participants s')
  /\ Permutation (entries s) (entries s').

(* ================================================================== *)
(** ** Further routes

    Deleting an entry or a user, creating, editing and ending an event,
    the entries and the participants of an event and the list of its
    closed dates, with the store calls of their own. *)

Module Admin.

Inductive call : Type :=
| Entry_delete | AdminEntry_delete
| User_lookup | User_delete
| Event_insert | Event_update | Event_end
| Entries_event | Entries_participant | Entries_rows
| Participants_rows | ClosedDates_rows.

(** One row of [GET /api/events/:id/participants]. *)
Record participant_row : Type := mkParticipantRow {
  pr_id : Z;
  pr_email : string;
  pr_joined_at : Z
}.

(** One row of [GET /api/admin/events/:id/closed-dates]. *)
Record closed_row : Type := mkClosedRow {
  cr_id : Z;
  cr_closed_date : string;
  cr_created_at : Z;
  cr_closed_by_email : string
}.

Inductive answer : Type :=
| AError (error : string)
| AOk
| ADeleted (deleted : Z)
| AEvent (eventId : Z)
| AEntries (rows : list entry_row) (ev : event)
| AParticipants (participants : list participant_row)
| AClosedDates (closedDates : list closed_row).

Record reply : Type := mkReply { http_status : Z; content : answer }.

Definition refuse (c : Z) (msg : string) : reply := mkReply c (AError msg).

Definition accept (a : answer) : reply := mkReply 200 a.

Inductive job : Type :=
| Reply (r : reply)
| Ask (A : Type) (q : call) (op : store -> dbres A * store)
      (k : dbres A -> job).

(** A request served alone; [fault q] makes the store call [q] fail. *)
Fixpoint serve (fault : call -> bool) (t : job) (s : store) : reply * store :=
  match t with
  | Reply r => (r, s)
  | Ask q op k =>
      if fault q then serve fault (k (Err Failure)) s
      else let (r, s') := op s in serve fault (k r) s'
  end.

Definition ask_get {A : Type} (q : call) (sel : store -> option A)
    (k : dbres (option A) -> job) : job :=
  Ask q (fun s => (Ok (sel s), s)) k.

Definition ask_all {A : Type} (q : call) (sel : store -> list A)
    (k : dbres (list A) -> job) : job :=
  Ask q (fun s => (Ok (sel s), s)) k.

Definition authed (ss : session) (next : Z -> job) : job :=
  match session_user ss with
  | None => Reply (refuse 401 "Unauthorized")
  | Some u => next u
  end.

Definition as_admin (ss : session) (next : Z -> job) : job :=
  match session_user ss with
  | None => Reply (refuse 403 "Forbidden")
  | Some u => if isAdmin ss then next u else Reply (refuse 403 "Forbidden")
  end.

(** *** DELETE /api/entries/:id and DELETE /api/admin/entries/:id *)

(** DELETE FROM entries WHERE id = ? [AND user_id = ?].  The uploads
    of a deleted entry go with it (ON DELETE CASCADE) when the
    connection enforces foreign keys, which [foreign_keys] says. *)
Definition delete_entries (foreign_keys : bool) (entryId : Z)
    (owner : option Z) (s : store) : dbres run_info * store :=
  let hit := fun e => (e_id e =? entryId)
                      && match owner with
                         | Some u => e_user_id e =? u
                         | None => true
                         end in
  let gone := filter hit (entries s) in
  (Ok (mkRun 0 (Z.of_nat (List.length gone))),
   mkStore (users s)
           (filter (fun e => negb (hit e)) (entries s))
           (if foreign_keys
            then filter (fun u => match up_entry_id u with
                                  | Some i => negb (existsb (fun e => e_id e =? i) gone)
                                  | None => true
                                  end) (uploads s)
            else uploads s)
           (events s) (event_participants s) (event_closed_dates s)
           (seq_entries s) (seq_uploads s) (seq_event_participants s)
           (seq_event_closed_dates s)).

Definition delete_entry (foreign_keys : bool) (ss : session) (id : string)
  : job :=
  authed ss (fun uid =>
  match param_id id with
  | None => Reply (refuse 400 "Invalid entry ID")
  | Some entryId =>
  Ask Entry_delete (delete_entries foreign_keys entryId (Some uid)) (fun r =>
  match r with
  | Err _ => Reply (refuse 500 "Failed to delete entry")
  | Ok info =>
      if changes info =? 0 then Reply (refuse 404 "Entry not found")
      else Reply (accept AOk)
  end)
  end).

Definition admin_delete_entry (foreign_keys : bool) (ss : session)
    (id : string) : job :=
  as_admin ss (fun _ =>
  match param_id id with
  | None => Reply (refuse 400 "Invalid entry ID")
  | Some entryId =>
  Ask AdminEntry_delete (delete_entries foreign_keys entryId None) (fun r =>
  match r with
  | Err _ => Reply (refuse 500 "Failed to delete entry")
  | Ok info =>
      if changes info =? 0 then Reply (refuse 404 "Entry not found")
      else Reply (accept AOk)
  end)
  end).

(** *** DELETE /api/admin/users/:id *)

(** DELETE FROM users WHERE id = ?.  [cascade] stands for what the
    store deletes along with the user in the tables that refer to it,
    when it enforces their foreign keys. *)
Definition delete_users (cascade : Z -> store -> store) (targetId : Z)
    (s : store) : dbres run_info * store :=
  let gone := filter (fun u => u_id u =? targetId) (users s) in
  (Ok (mkRun 0 (Z.of_nat (List.length gone))),
   cascade targetId
     (mkStore (filter (fun u => negb (u_id u =? targetId)) (users s))
              (entries s) (uploads s) (events s) (event_participants s)
              (event_closed_dates s)
              (seq_entries s) (seq_uploads s) (seq_event_participants s)
              (seq_event_closed_dates s))).

Definition delete_user (cascade : Z -> store -> store) (ss : session)
    (id : string) : job :=
  as_admin ss (fun uid =>
  match param_id id with
  | None => Reply (refuse 400 "Invalid user id")
  | Some targetId =>
  if targetId =? uid then Reply (refuse 400 "Cannot delete yourself") else
  ask_get User_lookup (select_user targetId) (fun r =>
  match r with
  | Err _ => Reply (refuse 500 "Lookup failed")
  | Ok None => Reply (refuse 404 "User not found")
  | Ok (Some row) =>
  if String.eqb (u_email row) "admin"
  then Reply (refuse 400 "Cannot delete primary admin")
  else
  Ask User_delete (delete_users cascade targetId) (fun r =>
  match r with
  | Err _ => Reply (refuse 500 "Delete failed")
  | Ok info => Reply (accept (ADeleted (changes info)))
  end)
  end)
  end).

(** *** POST /api/admin/events, PUT /api/admin/events/:id and
        POST /api/admin/events/:id/end *)

(** The fields of [req.body]: texts that may be absent, and km_goal. *)
Record event_body : Type := mkEventBody {
  name : option string;
  start_date : option string;
  end_date : option string;
  category : option string;
  gender_restriction : option string;
  km_goal : JS.jsval
}.

Definition text_of (v : option string) : string :=
  match v with
  | Some t => t
  | None => EmptyString
  end.

(** [a >= b] on two [Date]s; false when either is invalid. *)
Definition Date_ge (a b : option Z) : bool :=
  match a, b with
  | Some x, Some y => y <=? x
  | _, _ => false
  end.

Definition kmGoalNum (b : event_body) : Qc := JS.or_zero (JS.Number (km_goal b)).

(** The checks that the two routes share, in their order; [None] when
    the body passes.  [getTime s] is [new Date(s).getTime()]. *)
Definition event_checks (getTime : string -> option Z) (b : event_body)
  : option reply :=
  if missing (name b) || missing (start_date b) || missing (end_date b)
     || missing (category b) || missing (gender_restriction b)
     || match km_goal b with
        | JS.JUndefined | JS.JNull => true
        | _ => false
        end
  then Some (refuse 400 "Missing required fields")
  else if negb (existsb (String.eqb (text_of (category b)))
                        ["advanced"; "intermediate"])
  then Some (refuse 400 "Invalid category")
  else if negb (existsb (String.eqb (text_of (gender_restriction b)))
                        ["male"; "female"; "both"])
  then Some (refuse 400 "Invalid gender restriction")
  else if Date_ge (getTime (text_of (start_date b)))
                  (getTime (text_of (end_date b)))
  then Some (refuse 400 "End date must be after start date")
  else if JS.Qc_ltb (kmGoalNum b) (JS.Qc_of_Z 0)
  then Some (refuse 400 "KM goal must be a positive number")
  else None.

(** INSERT INTO events (name, start_date, end_date, category,
    gender_restriction, km_goal, created_by).  [rowid] is the id that
    AUTOINCREMENT hands out, the counter of this table not being part
    of the store record. *)
Definition insert_event (now rowid uid : Z) (b : event_body) (s : store)
  : dbres run_info * store :=
  (Ok (mkRun rowid 1),
   mkStore (users s) (entries s) (uploads s)
           (events s
            ++ [mkEvent rowid (text_of (name b)) (text_of (start_date b))
                        (text_of (end_date b)) (text_of (category b))
                        (text_of (gender_restriction b)) (kmGoalNum b)
                        now uid false])
           (event_participants s) (event_closed_dates s)
           (seq_entries s) (seq_uploads s) (seq_event_participants s)
           (seq_event_closed_dates s)).

Definition create_event (getTime : string -> option Z) (now rowid : Z)
    (ss : session) (b : event_body) : job :=
  as_admin ss (fun uid =>
  match event_checks getTime b with
  | Some r => Reply r
  | None =>
  Ask Event_insert (insert_event now rowid uid b) (fun r =>
  match r with
  | Err _ => Reply (refuse 500 "Failed to create event")
  | Ok info => Reply (accept (AEvent (lastID info)))
  end)
  end).

(** UPDATE events SET the six fields WHERE id = ?. *)
Definition update_events (eventId : Z) (b : event_body) (s : store)
  : dbres run_info * store :=
  let hit := fun e => ev_id e =? eventId in
  (Ok (mkRun 0 (Z.of_nat (List.length (filter hit (events s))))),
   mkStore (users s) (entries s) (uploads s)
           (map (fun e => if hit e
                          then mkEvent (ev_id e) (text_of (name b))
                                       (text_of (start_date b))
                                       (text_of (end_date b))
                                       (text_of (category b))
                                       (text_of (gender_restriction b))
                                       (kmGoalNum b) (ev_created_at e)
                                       (ev_created_by e) (ev_is_ended e)
                          else e) (events s))
           (event_participants s) (event_closed_dates s)
           (seq_entries s) (seq_uploads s) (seq_event_participants s)
           (seq_event_closed_dates s)).

Definition update_event (getTime : string -> option Z) (ss : session)
    (id : string) (b : event_body) : job :=
  as_admin ss (fun _ =>
  match param_id id with
  | None => Reply (refuse 400 "Invalid event ID")
  | Some eventId =>
  match event_checks getTime b with
  | Some r => Reply r
  | None =>
  Ask Event_update (update_events eventId b) (fun r =>
  match r with
  | Err _ => Reply (refuse 500 "Failed to update event")
  | Ok info =>
      if changes info =? 0 then Reply (refuse 404 "Event not found")
      else Reply (accept AOk)
  end)
  end
  end).

(** UPDATE events SET is_ended = 1 WHERE id = ?. *)
Definition end_events (eventId : Z) (s : store) : dbres run_info * store :=
  let hit := fun e => ev_id e =? eventId in
  (Ok (mkRun 0 (Z.of_nat (List.length (filter hit (events s))))),
   mkStore (users s) (entries s) (uploads s)
           (map (fun e => if hit e
                          then mkEvent (ev_id e) (ev_name e) (ev_start_date e)
                                       (ev_end_date e) (ev_category e)
                                       (ev_gender_restriction e) (ev_km_goal e)
                                       (ev_created_at e) (ev_created_by e) true
                          else e) (events s))
           (event_participants s) (event_closed_dates s)
           (seq_entries s) (seq_uploads s) (seq_event_participants s)
           (seq_event_closed_dates s)).

Definition end_event (ss : session) (id : string) : job :=
  as_admin ss (fun _ =>
  match param_id id with
  | None => Reply (refuse 400 "Invalid event ID")
  | Some eventId =>
  Ask Event_end (end_events eventId) (fun r =>
  match r with
  | Err _ => Reply (refuse 500 "Failed to end event")
  | Ok info =>
      if changes info =? 0 then Reply (refuse 404 "Event not found")
      else Reply (accept AOk)
  end)
  end).

(** *** GET /api/events/:id/entries *)

(** FROM entries e LEFT JOIN uploads up ON up.entry_id = e.id
    WHERE e.user_id = ? AND e.entry_date >= ? AND e.entry_date <= ?
    ORDER BY e.entry_date DESC  *)
Definition event_entries_select (uid : Z) (startDate endDate : string)
    (s : store) : list entry_row :=
  order_by (fun a b => String.leb (e_entry_date (er_entry b))
                                  (e_entry_date (er_entry a)))
    (flat_map (fun e =>
       if (e_user_id e =? uid) && in_period startDate endDate e then
         match filter (fun u => match up_entry_id u with
                                | Some i => i =? e_id e
                                | None => false
                                end) (uploads s) with
         | [] => [mkEntryRow e None]
         | us => map (fun u => mkEntryRow e (Some u)) us
         end
       else []) (entries s)).

Definition event_entries (ss : session) (id : string) : job :=
  authed ss (fun uid =>
  match param_id id with
  | None => Reply (refuse 400 "Invalid event ID")
  | Some eventId =>
  ask_get Entries_event (select_event eventId) (fun r =>
  match r with
  | Err _ => Reply (refuse 500 "Database error")
  | Ok None => Reply (refuse 404 "Event not found")
  | Ok (Some event) =>
  ask_get Entries_participant (select_participant eventId uid) (fun r =>
  match r with
  | Err _ => Reply (refuse 500 "Database error")
  | Ok None => Reply (refuse 403 "You are not a participant in this event")
  | Ok (Some _) =>
  ask_all Entries_rows
    (event_entries_select uid (ev_start_date event) (ev_end_date event))
    (fun r =>
  match r with
  | Err _ => Reply (refuse 500 "Failed to fetch entries")
  | Ok rows => Reply (accept (AEntries rows event))
  end)
  end)
  end)
  end).

(** *** GET /api/events/:id/participants *)

(** FROM event_participants ep JOIN users u ON u.id = ep.user_id
    WHERE ep.event_id = ?  ORDER BY ep.joined_at ASC  *)
Definition participants_select (eventId : Z) (s : store)
  : list participant_row :=
  order_by (fun a b => pr_joined_at a <=? pr_joined_at b)
    (flat_map (fun ep =>
       if ep_event_id ep =? eventId then
         map (fun u => mkParticipantRow (u_id u) (u_email u) (ep_joined_at ep))
             (filter (fun u => u_id u =? ep_user_id ep) (users s))
       else []) (event_participants s)).

Definition participants (ss : session) (id : string) : job :=
  authed ss (fun _ =>
  match param_id id with
  | None => Reply (refuse 400 "Invalid event ID")
  | Some eventId =>
  ask_all Participants_rows (participants_select eventId) (fun r =>
  match r with
  | Err _ => Reply (refuse 500 "Failed to fetch participants")
  | Ok rows => Reply (accept (AParticipants rows))
  end)
  end).

(** *** GET /api/admin/events/:id/closed-dates *)

(** FROM event_closed_dates ecd JOIN users u ON u.id = ecd.created_by
    WHERE ecd.event_id = ?  ORDER BY ecd.closed_date ASC  *)
Definition closed_dates_select (eventId : Z) (s : store) : list closed_row :=
  order_by (fun a b => String.leb (cr_closed_date a) (cr_closed_date b))
    (flat_map (fun c =>
       if ecd_event_id c =? eventId then
         map (fun u => mkClosedRow (ecd_id c) (ecd_closed_date c)
                                   (ecd_created_at c) (u_email u))
             (filter (fun u => u_id u =? ecd_created_by c) (users s))
       else []) (event_closed_dates s)).

Definition closed_dates (ss : session) (id : string) : job :=
  as_admin ss (fun _ =>
  match param_id id with
  | None => Reply (refuse 400 "Invalid event ID")
  | Some eventId =>
  ask_all ClosedDates_rows (closed_dates_select eventId) (fun r =>
  match r with
  | Err _ => Reply (refuse 500 "Failed to fetch closed dates")
  | Ok rows => Reply (accept (AClosedDates rows))
  end)
  end).

(** *** The file name of the Content-Disposition header *)

Definition quote : ascii := ascii_of_nat 34.

(** [name.replaceAll(quote, '')]. *)
Fixpoint strip_quotes (s : string) : string :=
  match s with
  | EmptyString => EmptyString
  | String c r =>
      if Ascii.eqb c quote then strip_quotes r else String c (strip_quotes r)
  end.

(** [`inline; filename=...`] with the name between two quotes. *)
Definition content_disposition (originalname : string) : string :=
  "inline; filename=" ++ String quote (strip_quotes originalname
                                        ++ String quote EmptyString).

End Admin.

(* ================================================================== *)
(** ** Notions for the invariants of the store *)

(** The primary keys that AUTOINCREMENT hands out in entries, uploads
    and event_participants are pairwise different. *)
Definition keys_unique (s : store) : Prop :=
  NoDup (map e_id (entries s))
  /\ NoDup (map up_id (uploads s))
  /\ NoDup (map ep_id (event_participants s)).

(** A request each of whose store calls keeps [P], its callbacks being
    given a failure or what the call answers on a store where [P]
    holds. *)
Inductive keeps (P : store -> Prop) : task -> Prop :=
| keeps_respond (r : response) : keeps P (Respond r)
| keeps_call (A : Type) (q : site) (op : store -> dbres A * store)
    (k : dbres A -> task) :
    (forall s, P s -> P (snd (op s))) ->
    (forall r, r = Err Failure \/ (exists s, P s /\ r = fst (op s)) ->
               keeps P (k r)) ->
    keeps P (Call q op k).

(** The requests of the routes that reach the store through [task]. *)
Inductive route : task -> Prop :=
| route_join (now : Z) (ss : session) (id : string) : route (join now ss id)
| route_ranking (ss : session) (id : string) : route (ranking ss id)
| route_list_events (now : Z) (ss : session) : route (list_events now ss)
| route_post_entry (ss : session) (f : fields) (fl : option file) :
    route (post_entry ss f fl)
| route_event_entry (ss : session) (id : string) (f : fields)
    (fl : option file) : route (event_entry ss id f fl)
| route_close_date (now : Z) (ss : session) (id : string)
    (bdate : option string) : route (close_date now ss id bdate)
| route_open_date (ss : session) (id : string) (bdate : option string) :
    route (open_date ss id bdate)
| route_put_entry (ss : session) (id : string) (f : fields) :
    route (put_entry ss id f)
| route_admin_put_entry (ss : session) (id : string) (f : fields) :
    route (admin_put_entry ss id f)
| route_list_entries (localNow : Z) (ss : session) (month : option string) :
    route (list_entries localNow ss month)
| route_top10 (localNow : Z) (ss : session) (month : option string) :
    route (top10 localNow ss month).

(** What POST and PUT /api/admin/events check of an event before they
    write it: the texts are there, category and gender restriction are
    of the allowed values and the km goal is not negative. *)
Definition event_well_formed (e : event) : Prop :=
  ev_name e <> EmptyString
  /\ ev_start_date e <> EmptyString
  /\ ev_end_date e <> EmptyString
  /\ In (ev_category e) ["advanced"; "intermediate"]
  /\ In (ev_gender_restriction e) ["male"; "female"; "both"]
  /\ (JS.Qc_of_Z 0 <= ev_km_goal e)%Qc.

(* ================================================================== *)
(** ** Running a handler *)

Unset Implicit Arguments.

Section RunLemmas.
Variable fault : site -> bool.

Lemma run_db_get {A : Type} (q : site) (sel : store -> option A)
    (k : dbres (option A) -> task) (s : store) :
  run fault (db_get q sel k) s =
  if fault q then run fault (k (Err Failure)) s
  else run fault (k (Ok (sel s))) s.
Proof. reflexivity. Qed.

Lemma run_db_all {A : Type} (q : site) (sel : store -> list A)
    (k : dbres (list A) -> task) (s : store) :
  run fault (db_all q sel k) s =
  if fault q then run fault (k (Err Failure)) s
  else run fault (k (Ok (sel s))) s.
Proof. reflexivity. Qed.

Lemma run_db_run (q : site) (op : store -> dbres run_info * store)
    (k : dbres run_info -> task) (s : store) :
  run fault (db_run q op k) s =
  if fault q then run fault (k (Err Failure)) s
  else run fault (k (fst (op s))) (snd (op s)).
Proof. simpl. destruct (fault q); [reflexivity|]. destruct (op s); reflexivity. Qed.

(** Serving a request alone is stepping it to its response. *)
Lemma run_step (t : task) (s : store) :
  run fault t s = run fault (fst (step fault t s)) (snd (step fault t s)).
Proof.
  destruct t as [r | A q op k]; simpl; [reflexivity|].
  destruct (fault q); [reflexivity|]. destruct (op s); reflexivity.
Qed.
End RunLemmas.

(* ================================================================== *)
(** ** Joining an event *)

Lemma find_some_filter {A : Type} (p : A -> bool) (l : list A) :
  find p l = None <-> filter p l = [].
Proof.
  induction l as [|x l IH]; simpl; [tauto|].
  destruct (p x); [split; discriminate | exact IH].
Qed.

Lemma find_app_none {A : Type} (p : A -> bool) (l : list A) (x : A) :
  find p l = None -> find p (l ++ [x]) = if p x then Some x else None.
Proof.
  induction l as [|y l IH]; simpl; [reflexivity|].
  destruct (p y); [discriminate | exact IH].
Qed.

Section Join.
Variables (now uid eventId : Z) (ss : session) (id : string) (s : store).
Hypothesis Hsession : session_user ss = Some uid.
Hypothesis Hid : param_id id = Some eventId.

(** What the handler answers when the store does not fail. *)
Lemma join_outcome (ev : event) :
  select_event eventId s = Some ev ->
  run no_fault (join now ss id) s =
  if JS.Date_lt (now + phOffset) (JS.Date_parse (ev_start_date ev))
  then (fail 400 "Event has not started yet", s)
  else if JS.Date_gt (now + phOffset) (JS.Date_parse (ev_end_date ev))
  then (fail 400 "Event has already ended", s)
  else match select_participant eventId uid s with
       | Some _ => (fail 400 "You have already joined this event", s)
       | None =>
           match select_user uid s with
           | None => (fail 404 "User not found", s)
           | Some u =>
               if gender_refused ev u
               then (fail 403 (gender_message (ev_gender_restriction ev)
                                              (u_gender u)), s)
               else (send (BParticipant
                             (next_id ep_id (seq_event_participants s)
                                      (event_participants s))),
                     snd (insert_participant now eventId uid s))
           end
       end.
Proof.
  intros Hev. unfold join, requireAuth. rewrite Hsession, Hid.
  rewrite run_db_get. cbn [no_fault]. rewrite Hev.
  destruct (JS.Date_lt _ _); [reflexivity|].
  destruct (JS.Date_gt _ _); [reflexivity|].
  rewrite run_db_get. cbn [no_fault].
  destruct (select_participant eventId uid s) eqn:Hp; [reflexivity|].
  rewrite run_db_get. cbn [no_fault].
  destruct (select_user uid s) as [u|]; [|reflexivity].
  unfold gender_refused.
  destruct (negb _ && _); [reflexivity|].
  rewrite run_db_run. cbn [no_fault].
  unfold insert_participant. rewrite Hp. reflexivity.
Qed.

(** The handler answers 200 exactly when the instant [now + 8h] is
    neither before midnight of the start date nor after midnight of the
    end date, the user holds no row, and the gender gate lets the user
    through. *)
Lemma join_succeeds_iff (ev : event) (u : user) :
  select_event eventId s = Some ev ->
  select_user uid s = Some u ->
  status (fst (run no_fault (join now ss id) s)) = 200 <->
  JS.Date_lt (now + phOffset) (JS.Date_parse (ev_start_date ev)) = false
  /\ JS.Date_gt (now + phOffset) (JS.Date_parse (ev_end_date ev)) = false
  /\ select_participant eventId uid s = None
  /\ gender_refused ev u = false.
Proof.
  intros Hev Hu. rewrite (join_outcome _ Hev), Hu.
  destruct (JS.Date_lt _ _); [simpl; split; [discriminate | intros [? _]; discriminate]|].
  destruct (JS.Date_gt _ _); [simpl; split; [discriminate | intros (_ & ? & _); discriminate]|].
  destruct (select_participant eventId uid s);
    [simpl; split; [discriminate | intros (_ & _ & ? & _); discriminate]|].
  destruct (gender_refused ev u);
    [simpl; split; [discriminate | intros (_ & _ & _ & ?); discriminate]|].
  simpl. tauto.
Qed.

(** Outside the window the two reasons are told apart. *)
Lemma join_outside_window (ev : event) (t0 t1 : Z) :
  select_event eventId s = Some ev ->
  JS.Date_parse (ev_start_date ev) = Some t0 ->
  JS.Date_parse (ev_end_date ev) = Some t1 ->
  t0 <= t1 ->
  (now + phOffset < t0 ->
   run no_fault (join now ss id) s = (fail 400 "Event has not started yet", s))
  /\ (t1 < now + phOffset ->
      run no_fault (join now ss id) s = (fail 400 "Event has already ended", s)).
Proof.
  intros Hev H0 H1 Hle. rewrite (join_outcome _ Hev), H0, H1. simpl. split; intros H.
  - apply Z.ltb_lt in H. rewrite H. reflexivity.
  - assert ((now + phOffset <? t0) = false) as -> by (apply Z.ltb_ge; lia).
    apply Z.ltb_lt in H. rewrite H. reflexivity.
Qed.

(** A join that went through leaves exactly one row for the pair, and
    the same request sent again is told that the user has joined. *)
Lemma join_twice (r : response) (s' : store) :
  run no_fault (join now ss id) s = (r, s') ->
  status r = 200 ->
  rows_of eventId uid s = []
  /\ List.length (rows_of eventId uid s') = 1%nat
  /\ run no_fault (join now ss id) s'
     = (fail 400 "You have already joined this event", s').
Proof.
  intros Hrun Hok.
  destruct (select_event eventId s) as [ev|] eqn:Hev.
  2:{ revert Hrun. unfold join, requireAuth. rewrite Hsession, Hid, run_db_get.
      cbn [no_fault]. rewrite Hev. simpl. intros [= <- <-]. discriminate. }
  pose proof (join_outcome _ Hev) as Hout. rewrite Hrun in Hout.
  destruct (JS.Date_lt _ _) eqn:Hlt; [inversion Hout; subst; discriminate|].
  destruct (JS.Date_gt _ _) eqn:Hgt; [inversion Hout; subst; discriminate|].
  destruct (select_participant eventId uid s) eqn:Hp; [inversion Hout; subst; discriminate|].
  destruct (select_user uid s) as [u|] eqn:Hu; [|inversion Hout; subst; discriminate].
  destruct (gender_refused ev u) eqn:Hg; [inversion Hout; subst; discriminate|].
  inversion Hout; subst r s'; clear Hout.
  assert (Hnone : rows_of eventId uid s = []).
  { apply find_some_filter. exact Hp. }
  assert (Hev' : select_event eventId (snd (insert_participant now eventId uid s)) = Some ev).
  { unfold insert_participant. rewrite Hp. exact Hev. }
  assert (Hp' : exists p, select_participant eventId uid
                  (snd (insert_participant now eventId uid s)) = Some p).
  { unfold insert_participant. rewrite Hp. unfold select_participant, first_row.
    cbn [snd event_participants]. rewrite find_app_none by exact Hp.
    cbn [ep_event_id ep_user_id]. rewrite !Z.eqb_refl. simpl. eauto. }
  split; [exact Hnone|]. split.
  - unfold rows_of, insert_participant. rewrite Hp. cbn [snd event_participants].
    rewrite filter_app. unfold rows_of in Hnone. rewrite Hnone.
    cbn [filter ep_event_id ep_user_id]. rewrite !Z.eqb_refl. reflexivity.
  - destruct Hp' as [p Hp'].
    unfold join, requireAuth. rewrite Hsession, Hid, run_db_get. cbn [no_fault].
    rewrite Hev', Hlt, Hgt, run_db_get. cbn [no_fault]. rewrite Hp'. reflexivity.
Qed.
End Join.

(** Past midnight of the end date the handler never lets a user in,
    whatever the calendar says. *)
Lemma join_closed_after_midnight (now uid eventId t1 : Z) (ss : session)
    (id : string) (s : store) (ev : event) :
  session_user ss = Some uid ->
  param_id id = Some eventId ->
  select_event eventId s = Some ev ->
  JS.Date_parse (ev_end_date ev) = Some t1 ->
  t1 < now + phOffset ->
  status (fst (run no_fault (join now ss id) s)) = 400.
Proof.
  intros Hss Hid Hev H1 Hlt. rewrite (join_outcome now _ _ _ _ _ Hss Hid _ Hev), H1.
  destruct (JS.Date_lt _ _); [reflexivity|].
  simpl. apply Z.ltb_lt in Hlt. rewrite Hlt. reflexivity.
Qed.

(** C1 (the code departs from the claim).  On 2024-06-30 at 10:00 in
    Manila the calendar date is the end date of the event, so
    [start_date <= today <= end_date] holds as calendar dates; user 2
    holds no row and is a woman in an event for women.  The listing of
    joinable events still offers the event as not joined, but the join
    handler answers 400 "Event has already ended" and inserts nothing:
    it compares the instant with midnight of the end date. *)
Theorem C1_join_refused_on_end_date :
  today_ph Sample.last_day = ev_end_date Sample.june
  /\ within_dates Sample.june (today_ph Sample.last_day) = true
  /\ rows_of 1 2 Sample.s0 = []
  /\ gender_refused Sample.june Sample.userA = false
  /\ json (fst (run no_fault (list_events Sample.last_day Sample.asA) Sample.s0))
     = BEvents [mkEventView (mkEventRow Sample.june "admin" false) None 0 None]
  /\ run no_fault (join Sample.last_day Sample.asA "1") Sample.s0
     = (fail 400 "Event has already ended", Sample.s0).
Proof. vm_compute. repeat split; reflexivity. Qed.

(** C5 (the code departs from the claim).  Two join requests of user 2
    for event 1 are in flight at once and their store calls alternate:
    both pre-checks find no row, the first INSERT goes through and
    UNIQUE(event_id, user_id) refuses the second.  One row is stored,
    but the loser is answered 500 "Failed to join event", the very
    answer given when the INSERT fails for a fault of the store, and
    not the answer "You have already joined this event" of the
    pre-check. *)
Theorem C5_lost_race_answer :
  let req := join Sample.mid_june Sample.asA "1" in
  let out := interleave no_fault [0; 1; 0; 1; 0; 1; 0; 1]%nat [req; req]
                        Sample.s0 in
  fst out = [Respond (send (BParticipant 1));
             Respond (fail 500 "Failed to join event")]
  /\ List.length (rows_of 1 2 (snd out)) = 1%nat
  /\ run (fun q => match q with Join_insert => true | _ => false end)
         req Sample.s0
     = (fail 500 "Failed to join event", Sample.s0)
  /\ run no_fault req (snd out)
     = (fail 400 "You have already joined this event", snd out).
Proof. vm_compute. repeat split; reflexivity. Qed.




(* ================================================================== *)
(** ** The listing of joinable events *)

Section Listing.
Variable fault : site -> bool.
Variables (now uid : Z) (ss : session) (s : store).
Hypothesis Hsession : session_user ss = Some uid.

Lemma run_events_views (evs : list event_row) :
  forall k : list event_view -> task,
  run fault (events_views uid evs k) s
  = run fault (k (map (view_of fault uid s) evs)) s.
Proof.
  induction evs as [|ev evs IH]; intros k; [reflexivity|].
  change (map (view_of fault uid s) (ev :: evs))
    with (view_of fault uid s ev :: map (view_of fault uid s) evs).
  assert (Hv : view_of fault uid s ev
               = if negb (er_has_joined ev) then mkEventView ev None 0 None
                 else standing_view uid ev
                        (if fault (Events_standing (ev_id (er_event ev)))
                         then Err Failure
                         else Ok (standing_select (ev_id (er_event ev))
                                    (ev_start_date (er_event ev))
                                    (ev_end_date (er_event ev)) s)))
    by reflexivity.
  rewrite Hv. clear Hv. cbn [events_views].
  destruct (negb (er_has_joined ev)).
  - rewrite IH. reflexivity.
  - rewrite run_db_all.
    destruct (fault (Events_standing (ev_id (er_event ev)))); rewrite IH; reflexivity.
Qed.

Lemma list_events_outcome :
  run fault (list_events now ss) s
  = if fault Events_rows then (fail 500 "Failed to fetch events", s)
    else (send (BEvents (map (view_of fault uid s)
                             (events_select uid (today_ph now) s))), s).
Proof.
  unfold list_events, requireAuth. rewrite Hsession, run_db_all.
  destruct (fault Events_rows); [reflexivity|].
  rewrite run_events_views. reflexivity.
Qed.

Lemma ranking_outcome (id : string) (eventId : Z) :
  param_id id = Some eventId ->
  run fault (ranking ss id) s
  = if fault Ranking_event then (fail 500 "Database error", s)
    else match select_event eventId s with
         | None => (fail 404 "Event not found", s)
         | Some ev =>
             if fault Ranking_rows then (fail 500 "Failed to fetch ranking", s)
             else (send (BRanking ev
                           (ranking_select eventId (ev_start_date ev)
                                           (ev_end_date ev) s)
                           (ev_km_goal ev)), s)
         end.
Proof.
  intros Hid. unfold ranking, requireAuth. rewrite Hsession, Hid, run_db_get.
  destruct (fault Ranking_event); [reflexivity|].
  destruct (select_event eventId s) as [ev|]; [|reflexivity].
  rewrite run_db_all. destruct (fault Ranking_rows); reflexivity.
Qed.
End Listing.

(** C2, refuted as stated: user 2 has joined event 1, which has one
    participant; the standing query of the listing fails and the
    listing is answered 200 with user_rank null, total_participants 0
    and zero totals for that event. *)
Lemma C2_failure_swallowed :
  let r := fst (run standing_fails (list_events Sample.mid_june Sample.asA)
                    joined_store) in
  List.length (participants_of 1 joined_store) = 1%nat
  /\ status r = 200
  /\ exists v, json r = BEvents [v]
               /\ er_has_joined (v_row v) = true
               /\ user_rank v = None
               /\ total_participants v = 0.
Proof.
  vm_compute. repeat split.
  eexists. repeat split.
Qed.

(** C2, amended: a failure of the event lookup or of the ranking query
    of GET /api/events/:id/ranking, and a failure of the events query
    of GET /api/events, are answered 500 with an error and no ranking;
    a failure of the standing query that the listing sends for a joined
    event is not reported: the listing is answered 200 and shows that
    event with user_rank null, total_participants 0 and zero totals. *)
Theorem C2_store_failures (fault : site -> bool) (now uid eventId : Z)
    (ss : session) (id : string) (s : store) :
  session_user ss = Some uid ->
  param_id id = Some eventId ->
  (fault Ranking_event = true ->
   run fault (ranking ss id) s = (fail 500 "Database error", s))
  /\ (forall ev, fault Ranking_event = false ->
        select_event eventId s = Some ev ->
        fault Ranking_rows = true ->
        run fault (ranking ss id) s = (fail 500 "Failed to fetch ranking", s))
  /\ (fault Events_rows = true ->
      run fault (list_events now ss) s = (fail 500 "Failed to fetch events", s))
  /\ (fault Events_rows = false ->
      exists views,
        run fault (list_events now ss) s = (send (BEvents views), s)
        /\ forall row,
             In row (events_select uid (today_ph now) s) ->
             er_has_joined row = true ->
             fault (Events_standing (ev_id (er_event row))) = true ->
             In (mkEventView row None 0
                   (Some (JS.Qc_of_Z 0, JS.Qc_of_Z 0, 0))) views).
Proof.
  intros Hss Hid. repeat split.
  - intros H. rewrite (ranking_outcome fault uid ss s Hss id eventId Hid), H.
    reflexivity.
  - intros ev H0 Hev H1.
    rewrite (ranking_outcome fault uid ss s Hss id eventId Hid), H0, Hev, H1.
    reflexivity.
  - intros H. rewrite (list_events_outcome fault now uid ss s Hss), H. reflexivity.
  - intros H. eexists. split.
    + rewrite (list_events_outcome fault now uid ss s Hss), H. reflexivity.
    + intros row Hin Hj Hf. apply in_map_iff. exists row. split; [|exact Hin].
      unfold view_of. rewrite Hj, Hf. reflexivity.
Qed.

Lemma C2_store_failures_witness :
  exists views,
    run standing_fails (list_events Sample.mid_june Sample.asA) joined_store
    = (send (BEvents views), joined_store)
    /\ In (mkEventView (mkEventRow Sample.june "admin" true) None 0
             (Some (JS.Qc_of_Z 0, JS.Qc_of_Z 0, 0))) views.
Proof.
  destruct (C2_store_failures standing_fails Sample.mid_june 2 1 Sample.asA "1"
              joined_store eq_refl eq_refl) as (_ & _ & _ & H).
  destruct (H eq_refl) as (views & Hrun & Hin).
  exists views. split; [exact Hrun|].
  apply Hin; [|reflexivity|reflexivity].
  vm_compute. left. reflexivity.
Defined.

Lemma view_of_row (fault : site -> bool) (uid : Z) (s : store)
    (row : event_row) :
  v_row (view_of fault uid s row) = row.
Proof.
  unfold view_of, standing_view.
  destruct (er_has_joined row); [|reflexivity].
  destruct (fault (Events_standing _)); reflexivity.
Qed.

(** C10: in the answer of GET /api/events every event the user has not
    joined carries user_rank null and total_participants 0 (and no
    totals), whatever rows event_participants holds for it; for a
    joined event whose standing query works, total_participants is the
    number of rows of that query. *)
Theorem C10_not_joined_shows_no_participants (fault : site -> bool)
    (now uid : Z) (ss : session) (s : store) :
  session_user ss = Some uid ->
  fault Events_rows = false ->
  exists views,
    run fault (list_events now ss) s = (send (BEvents views), s)
    /\ map v_row views = events_select uid (today_ph now) s
    /\ (forall v, In v views -> er_has_joined (v_row v) = false ->
          user_rank v = None /\ total_participants v = 0
          /\ user_totals v = None)
    /\ (forall v, In v views -> er_has_joined (v_row v) = true ->
          fault (Events_standing (ev_id (er_event (v_row v)))) = false ->
          total_participants v
          = Z.of_nat (List.length
                        (standing_select (ev_id (er_event (v_row v)))
                           (ev_start_date (er_event (v_row v)))
                           (ev_end_date (er_event (v_row v))) s))).
Proof.
  intros Hss Hf. eexists. split; [|split; [|split]].
  - rewrite (list_events_outcome fault now uid ss s Hss), Hf. reflexivity.
  - rewrite map_map. rewrite <- (map_id (events_select _ _ _)) at 2.
    apply map_ext. intros row. apply view_of_row.
  - intros v Hin Hj. apply in_map_iff in Hin. destruct Hin as (row & <- & _).
    rewrite view_of_row in Hj. unfold view_of. rewrite Hj. repeat split.
  - intros v Hin Hj Hfs. apply in_map_iff in Hin. destruct Hin as (row & <- & _).
    rewrite view_of_row in Hj, Hfs |- *. unfold view_of. rewrite Hj, Hfs.
    reflexivity.
Qed.

Lemma C10_not_joined_shows_no_participants_witness :
  List.length (participants_of 1 joined_store) = 1%nat
  /\ exists views,
       run no_fault (list_events Sample.mid_june Sample.asB) joined_store
       = (send (BEvents views), joined_store)
       /\ forall v, In v views -> er_has_joined (v_row v) = false ->
            user_rank v = None /\ total_participants v = 0
            /\ user_totals v = None.
Proof.
  split; [reflexivity|].
  destruct (C10_not_joined_shows_no_participants no_fault Sample.mid_june 3
              Sample.asB joined_store eq_refl eq_refl)
    as (views & Hrun & _ & H & _).
  exists views. split; [exact Hrun | exact H].
Defined.

(* ================================================================== *)
(** ** Submitting an event entry; closing and reopening a date *)

Lemma ltb_false_of_leb (a b : string) :
  String.leb a b = true -> String.ltb b a = false.
Proof.
  unfold String.leb, String.ltb. rewrite (String.compare_antisym b a).
  destruct (String.compare a b); simpl; congruence.
Qed.

Lemma date_shape_not_empty (d : string) :
  JS.is_date_shape d = true -> String.eqb d "" = false.
Proof. destruct d; [discriminate | reflexivity]. Qed.

Lemma find_filter_negb {A : Type} (p : A -> bool) (l : list A) :
  find p (filter (fun x => negb (p x)) l) = None.
Proof.
  induction l as [|x l IH]; [reflexivity|]. simpl.
  destruct (p x) eqn:E; simpl; [exact IH|]. rewrite E. exact IH.
Qed.

Section Submission.
Variables (uid eventId : Z) (ss : session) (id d : string) (f : fields)
          (fl : file).
Hypothesis Hsession : session_user ss = Some uid.
Hypothesis Hid : param_id id = Some eventId.
Hypothesis Hdate : date f = Some d.
Hypothesis Hd : String.eqb d "" = false.

(** The three gates of the submission, each read from the store the
    request runs against, then the two writes. *)
Lemma event_entry_outcome (s : store) :
  run no_fault (event_entry ss id f (Some fl)) s =
  match select_participant eventId uid s with
  | None => (fail 403 "You are not a participant in this event", s)
  | Some _ =>
      match select_event eventId s with
      | None => (fail 404 "Event not found", s)
      | Some ev =>
          if String.ltb d (ev_start_date ev) || String.ltb (ev_end_date ev) d
          then (fail 400 "Entry date must be within event period", s)
          else
            match select_closed eventId d s with
            | Some _ => (fail 400 "Entry submission is closed for this date", s)
            | None =>
                let entryId := next_id e_id (seq_entries s) (entries s) in
                (send (BEntry entryId),
                 snd (insert_upload uid entryId fl
                        (snd (insert_entry uid d (kmNum f) (hoursNum f)
                                           (paceNum f) s))))
            end
      end
  end.
Proof.
  unfold event_entry, requireAuth. rewrite Hsession, Hid, Hdate, Hd.
  rewrite run_db_get. cbn [no_fault].
  destruct (select_participant eventId uid s); [|reflexivity].
  rewrite run_db_get. cbn [no_fault].
  destruct (select_event eventId s) as [ev|]; [|reflexivity].
  destruct (_ || _); [reflexivity|].
  rewrite run_db_get. cbn [no_fault].
  destruct (select_closed eventId d s); reflexivity.
Qed.
End Submission.

Section Closing.
Variables (now admin eventId : Z) (adm : session) (id d : string).
Hypothesis Hsession : session_user adm = Some admin.
Hypothesis Hadmin : isAdmin adm = true.
Hypothesis Hid : param_id id = Some eventId.
Hypothesis Hshape : JS.is_date_shape d = true.

Lemma close_date_outcome (s : store) (ev : event) :
  select_event eventId s = Some ev ->
  within_dates ev d = true ->
  select_closed eventId d s = None ->
  run no_fault (close_date now adm id (Some d)) s
  = (send (BClosedDate (next_id ecd_id (seq_event_closed_dates s)
                                (event_closed_dates s))),
     snd (insert_closed now eventId d admin s)).
Proof.
  intros Hev Hin Hc. unfold close_date, requireAdmin.
  rewrite Hsession, Hadmin, Hid, (date_shape_not_empty d Hshape), Hshape.
  cbn [negb]. rewrite run_db_get. cbn [no_fault]. rewrite Hev.
  unfold within_dates in Hin. apply andb_true_iff in Hin. destruct Hin as [H0 H1].
  rewrite (ltb_false_of_leb _ _ H0), (ltb_false_of_leb _ _ H1). cbn [orb].
  rewrite run_db_run. cbn [no_fault]. unfold insert_closed. rewrite Hc.
  reflexivity.
Qed.

Lemma open_date_outcome (s : store) (c : event_closed_date) :
  select_closed eventId d s = Some c ->
  run no_fault (open_date adm id (Some d)) s
  = (send BOk, snd (delete_closed eventId d s)).
Proof.
  intros Hc. unfold open_date, requireAdmin.
  rewrite Hsession, Hadmin, Hid, (date_shape_not_empty d Hshape).
  rewrite run_db_run. cbn [no_fault delete_closed fst snd changes].
  destruct (filter _ (event_closed_dates s)) eqn:E.
  - apply find_some_filter in E. unfold select_closed, first_row in Hc. congruence.
  - reflexivity.
Qed.
End Closing.



(* ================================================================== *)
(** ** The four entry write paths *)

Lemma or_zero_nonneg (n : JS.jsnum) :
  JS.num_lt0 n = false -> (JS.Qc_of_Z 0 <= JS.or_zero n)%Qc.
Proof.
  destruct n as [|q]; simpl; intros H; [apply Qcle_refl|].
  destruct (JS.Qc_eqb q (JS.Qc_of_Z 0)); [apply Qcle_refl|].
  apply Qcnot_lt_le. intros Hlt. apply Qclt_alt in Hlt.
  unfold JS.Qc_ltb in H.
  change (Qccompare q (JS.Qc_of_Z 0) = Lt) in Hlt.
  rewrite Hlt in H. discriminate.
Qed.

Lemma or_zero_negative (q : Qc) :
  (q < JS.Qc_of_Z 0)%Qc -> JS.or_zero (JS.Num q) = q.
Proof.
  intros H. simpl. unfold JS.Qc_eqb.
  apply Qclt_alt in H. change (Qccompare q (JS.Qc_of_Z 0) = Lt) in H.
  rewrite H. reflexivity.
Qed.

Section Writes.
Variable fault : site -> bool.
Variables (ss : session) (f : fields) (s : store).

Lemma save_entry_written (qe qu : site) (uid : Z) (d : string) (fl : file) :
  entries_written f s (snd (run fault (save_entry qe qu uid d f fl) s)).
Proof.
  unfold save_entry. rewrite run_db_run.
  destruct (fault qe); [left; reflexivity|].
  cbn [insert_entry fst snd lastID]. rewrite run_db_run.
  right. left. do 3 eexists.
  destruct (fault qu); reflexivity.
Qed.

Lemma post_entry_written (fl : option file) :
  entries_written f s (snd (run fault (post_entry ss f fl) s)).
Proof.
  unfold post_entry, requireAuth.
  destruct (session_user ss) as [uid|]; [|left; reflexivity].
  destruct (date f) as [d|]; [|left; reflexivity].
  destruct (String.eqb d ""); [left; reflexivity|].
  destruct fl as [fl|]; [|left; reflexivity].
  apply save_entry_written.
Qed.

Lemma event_entry_written (id : string) (fl : option file) :
  entries_written f s (snd (run fault (event_entry ss id f fl) s)).
Proof.
  unfold event_entry, requireAuth.
  destruct (session_user ss) as [uid|]; [|left; reflexivity].
  destruct (param_id id) as [eventId|]; [|left; reflexivity].
  destruct (date f) as [d|]; [|left; reflexivity].
  destruct (String.eqb d ""); [left; reflexivity|].
  destruct fl as [fl|]; [|left; reflexivity].
  rewrite run_db_get. destruct (fault Entry_participant); [left; reflexivity|].
  destruct (select_participant eventId uid s); [|left; reflexivity].
  rewrite run_db_get. destruct (fault Entry_event); [left; reflexivity|].
  destruct (select_event eventId s) as [ev|]; [|left; reflexivity].
  destruct (_ || _); [left; reflexivity|].
  rewrite run_db_get. destruct (fault Entry_closed); [left; reflexivity|].
  destruct (select_closed eventId d s); [left; reflexivity|].
  apply save_entry_written.
Qed.

Lemma update_entry_written (entryId : Z) (owner : option Z) :
  entries_written f s
    (snd (update_entry entryId owner (date f) (kmNum f) (hoursNum f)
                       (paceNum f) s)).
Proof.
  unfold update_entry. destruct (date f) as [d|].
  - right. right. do 2 eexists. reflexivity.
  - left. destruct (existsb _ _); reflexivity.
Qed.

Lemma put_entry_written (id : string) :
  entries_written f s (snd (run fault (put_entry ss id f) s)).
Proof.
  unfold put_entry, requireAuth.
  destruct (session_user ss) as [uid|]; [|left; reflexivity].
  destruct (param_id id) as [entryId|]; [|left; reflexivity].
  rewrite run_db_get. destruct (fault Put_select); [left; reflexivity|].
  destruct (select_entry entryId (Some uid) s); [|left; reflexivity].
  rewrite run_db_run. destruct (fault Put_update); [left; reflexivity|].
  pose proof (update_entry_written entryId (Some uid)) as H.
  destruct (update_entry _ _ _ _ _ _ s) as [[info|err] s']; cbn [fst snd] in *.
  - destruct (changes info =? 0); exact H.
  - exact H.
Qed.

Lemma admin_put_entry_written (id : string) :
  entries_written f s (snd (run fault (admin_put_entry ss id f) s)).
Proof.
  unfold admin_put_entry, requireAdmin.
  destruct (session_user ss) as [uid|]; [|left; reflexivity].
  destruct (isAdmin ss); [|left; reflexivity].
  destruct (param_id id) as [entryId|]; [|left; reflexivity].
  rewrite run_db_get. destruct (fault AdminPut_select); [left; reflexivity|].
  destruct (select_entry entryId None s); [|left; reflexivity].
  rewrite run_db_run. destruct (fault AdminPut_update); [left; reflexivity|].
  pose proof (update_entry_written entryId None) as H.
  destruct (update_entry _ _ _ _ _ _ s) as [[info|err] s']; cbn [fst snd] in *.
  - destruct (changes info =? 0); exact H.
  - exact H.
Qed.

Lemma written_keeps_nonneg (s' : store) :
  JS.num_lt0 (JS.Number (km f)) = false ->
  JS.num_lt0 (JS.Number (hours f)) = false ->
  entries_written f s s' ->
  nonneg_entries s -> nonneg_entries s'.
Proof.
  intros Hk Hh Hw Hs e0 He.
  assert (Hnew : (JS.Qc_of_Z 0 <= kmNum f)%Qc /\ (JS.Qc_of_Z 0 <= hoursNum f)%Qc).
  { split; apply or_zero_nonneg; assumption. }
  destruct Hw as [Hw | [(i & u & d & Hw) | (hit & d & Hw)]]; rewrite Hw in He.
  - apply Hs, He.
  - apply in_app_or in He. destruct He as [He | [<- | []]]; [apply Hs, He | exact Hnew].
  - apply in_map_iff in He. destruct He as (e1 & <- & He1).
    destruct (hit e1); [exact Hnew | apply Hs, He1].
Qed.
End Writes.




(* ================================================================== *)
(** ** ORDER BY *)

Section OrderBy.
Context {A : Type}.
Variable le : A -> A -> bool.

Lemma insert_by_perm (x : A) (l : list A) :
  Permutation (insert_by le x l) (x :: l).
Proof.
  induction l as [|y l IH]; simpl; [apply Permutation_refl|].
  destruct (le x y); [apply Permutation_refl|].
  apply perm_trans with (y :: x :: l); [apply perm_skip, IH | apply perm_swap].
Qed.

Lemma order_by_perm (l : list A) : Permutation (order_by le l) l.
Proof.
  induction l as [|x l IH]; simpl; [apply perm_nil|].
  apply perm_trans with (x :: order_by le l);
    [apply insert_by_perm | apply perm_skip, IH].
Qed.

Lemma order_by_in (x : A) (l : list A) : In x (order_by le l) <-> In x l.
Proof.
  split; apply Permutation_in;
    [apply order_by_perm | apply Permutation_sym, order_by_perm].
Qed.

Lemma order_by_length (l : list A) :
  List.length (order_by le l) = List.length l.
Proof. apply Permutation_length, order_by_perm. Qed.

Hypothesis le_total : forall x y, le x y = true \/ le y x = true.
Hypothesis le_trans :
  forall x y z, le x y = true -> le y z = true -> le x z = true.

Lemma insert_by_sorted (x : A) (l : list A) :
  StronglySorted (fun a b => le a b = true) l ->
  StronglySorted (fun a b => le a b = true) (insert_by le x l).
Proof.
  induction 1 as [|y l Hs IH Hy]; simpl.
  - constructor; constructor.
  - destruct (le x y) eqn:E.
    + constructor; [constructor; assumption|].
      constructor; [exact E|].
      apply Forall_forall. intros z Hz.
      apply le_trans with y; [exact E|].
      rewrite Forall_forall in Hy. apply Hy, Hz.
    + constructor; [exact IH|].
      apply Forall_forall. intros z Hz.
      apply (Permutation_in _ (insert_by_perm x l)) in Hz.
      destruct Hz as [<- | Hz].
      * destruct (le_total x y) as [H | H]; [congruence | exact H].
      * rewrite Forall_forall in Hy. apply Hy, Hz.
Qed.

Lemma order_by_sorted (l : list A) :
  StronglySorted (fun a b => le a b = true) (order_by le l).
Proof.
  induction l as [|x l IH]; simpl; [constructor | apply insert_by_sorted, IH].
Qed.

(** Two sorted lists with the same rows are the same list when no two
    distinct rows are tied. *)
Lemma sorted_perm_unique (l1 : list A) :
  forall l2,
  (forall x y, In x l1 -> In y l1 -> le x y = true -> le y x = true -> x = y) ->
  StronglySorted (fun a b => le a b = true) l1 ->
  StronglySorted (fun a b => le a b = true) l2 ->
  Permutation l1 l2 -> l1 = l2.
Proof.
  induction l1 as [|x l1 IH]; intros l2 Hanti H1 H2 Hp.
  - apply Permutation_nil in Hp. congruence.
  - destruct l2 as [|y l2];
      [apply Permutation_sym, Permutation_nil in Hp; discriminate|].
    apply StronglySorted_inv in H1. destruct H1 as [H1 Hx].
    apply StronglySorted_inv in H2. destruct H2 as [H2 Hy].
    rewrite Forall_forall in Hx, Hy.
    assert (Hxy : x = y).
    { assert (Hin1 : In x (y :: l2)) by (apply (Permutation_in _ Hp); left; reflexivity).
      assert (Hin2 : In y (x :: l1))
        by (apply (Permutation_in _ (Permutation_sym Hp)); left; reflexivity).
      destruct Hin1 as [-> | Hin1]; [reflexivity|].
      destruct Hin2 as [-> | Hin2]; [reflexivity|].
      apply Hanti; [left; reflexivity | right; exact Hin2 | apply Hx, Hin2 | apply Hy, Hin1]. }
    subst y. f_equal. apply IH.
    + intros a b Ha Hb. apply Hanti; right; assumption.
    + exact H1.
    + exact H2.
    + apply Permutation_cons_inv with x. exact Hp.
Qed.
End OrderBy.

(* ================================================================== *)
(** ** The month window and the event period *)

Lemma forallb_at {A : Type} (P : A -> bool) (l : list A) (x : A) :
  forallb P l = true -> In x l -> P x = true.
Proof. intros H. apply forallb_forall. exact H. Qed.

(** Every calendar month from 0000-01 to 9999-11, checked one by one. *)
Lemma months_checked (c5 c6 : ascii) :
  In c5 digits10 -> In c6 digits10 -> month_checked c5 c6 = true.
Proof.
  intros H5 H6.
  assert (H : forallb (fun a => forallb (fun b => month_checked a b) digits10)
                      digits10 = true)
    by (vm_cast_no_check (@eq_refl bool true)).
  exact (forallb_at _ _ c6 (forallb_at _ _ c5 H H5) H6).
Qed.

Lemma is_digit_in (c : ascii) : JS.is_digit c = true -> In c digits10.
Proof.
  destruct c as [b0 b1 b2 b3 b4 b5 b6 b7].
  destruct b0, b1, b2, b3, b4, b5, b6, b7; intros H;
    try discriminate H; simpl; tauto.
Qed.

Lemma month_shape_inv (mo : string) :
  is_month_shape mo = true ->
  exists c1 c2 c3 c4 c5 c6,
    mo = month_token c1 c2 c3 c4 c5 c6
    /\ In c1 digits10 /\ In c2 digits10 /\ In c3 digits10
    /\ In c4 digits10 /\ In c5 digits10 /\ In c6 digits10.
Proof.
  destruct mo as [|c1 [|c2 [|c3 [|c4 [|c0 [|c5 [|c6 [|c7 r]]]]]]]];
    try discriminate.
  unfold is_month_shape. cbn [String.length Nat.eqb substring JS.all_digits andb].
  set (dg := JS.is_digit). intros H.
  repeat match goal with
         | H : _ && _ = true |- _ =>
             apply andb_true_iff in H; destruct H as [? ?]
         end.
  subst dg.
  assert (c0 = "-"%char) as ->.
  { match goal with
    | H : String.eqb (String c0 _) _ = true |- _ =>
        apply String.eqb_eq in H; inversion H; reflexivity
    end. }
  exists c1, c2, c3, c4, c5, c6.
  split; [reflexivity|]. repeat split; apply is_digit_in; assumption.
Qed.

Lemma calendar_month_2000 (c1 c2 c3 c4 c5 c6 : ascii) :
  calendar_month (month_token c1 c2 c3 c4 c5 c6) = true ->
  calendar_month (month_token "2" "0" "0" "0" c5 c6) = true.
Proof.
  unfold calendar_month, month_token.
  cbn [substring]. intros Hcal.
  apply andb_true_iff in Hcal. destruct Hcal as [Hcal _].
  rewrite Hcal. reflexivity.
Qed.

(** The window of a calendar month starts before it ends, and ends on
    the first day of the next month. *)
Lemma month_window_ordered (mo : string) :
  is_month_shape mo = true ->
  calendar_month mo = true ->
  String.ltb (mo ++ "-01")
    (next_month_start (JS.digits_value (substring 0 4 mo))
                      (JS.digits_value (substring 5 2 mo))) = true
  /\ next_month_start (JS.digits_value (substring 0 4 mo))
                      (JS.digits_value (substring 5 2 mo))
     = first_of_next_month mo.
Proof.
  intros Hshape Hcal.
  destruct (month_shape_inv mo Hshape)
    as (c1 & c2 & c3 & c4 & c5 & c6 & -> & H1 & H2 & H3 & H4 & H5 & H6).
  pose proof (months_checked c5 c6 H5 H6) as Hm.
  unfold month_checked in Hm.
  rewrite (calendar_month_2000 _ _ _ _ _ _ Hcal) in Hm.
  unfold years_checked in Hm.
  pose proof (forallb_at _ _ c4 (forallb_at _ _ c3 (forallb_at _ _ c2
                (forallb_at _ _ c1 Hm H1) H2) H3) H4) as Hw.
  cbv beta in Hw. unfold window_ordered in Hw. rewrite Hcal in Hw.
  cbn [negb orb] in Hw. apply andb_true_iff in Hw. destruct Hw as [Hlt Heq].
  split; [exact Hlt | apply String.eqb_eq, Heq].
Qed.

Lemma month_window_given (mo : string) (localNow : Z) :
  is_month_shape mo = true ->
  month_window (Some mo) localNow
  = ((mo ++ "-01")%string,
     next_month_start (JS.digits_value (substring 0 4 mo))
                      (JS.digits_value (substring 5 2 mo))).
Proof.
  intros H. unfold month_window. rewrite H.
  destruct mo; [discriminate | reflexivity].
Qed.

Lemma ltb_irrefl (a : string) : String.ltb a a = false.
Proof.
  unfold String.ltb.
  assert (H : String.compare a a = Eq).
  { induction a as [|c a IH]; [reflexivity|]. simpl.
    unfold Ascii.compare. rewrite N.compare_refl. exact IH. }
  rewrite H. reflexivity.
Qed.

Lemma leb_refl (a : string) : String.leb a a = true.
Proof.
  unfold String.leb.
  assert (H : String.compare a a = Eq).
  { induction a as [|c a IH]; [reflexivity|]. simpl.
    unfold Ascii.compare. rewrite N.compare_refl. exact IH. }
  rewrite H. reflexivity.
Qed.

Lemma list_entries_outcome (fault : site -> bool) (localNow uid : Z)
    (ss : session) (month : option string) (s : store) :
  session_user ss = Some uid ->
  run fault (list_entries localNow ss month) s
  = if fault Entries_rows then (fail 500 "Failed to fetch", s)
    else (send (BEntries
                  (entries_select uid (fst (month_window month localNow))
                                  (snd (month_window month localNow)) s)
                  (JS.slice0 7 (fst (month_window month localNow)))), s).
Proof.
  intros Hss. unfold list_entries, requireAuth. rewrite Hss.
  destruct (month_window month localNow) as [start stop].
  rewrite run_db_all. destruct (fault Entries_rows); reflexivity.
Qed.

Lemma entries_select_in (uid : Z) (start stop : string) (s : store)
    (row : entry_row) :
  In row (entries_select uid start stop s) ->
  In (er_entry row) (entries s)
  /\ e_user_id (er_entry row) = uid
  /\ in_month start stop (er_entry row) = true.
Proof.
  unfold entries_select. rewrite order_by_in, in_flat_map.
  intros (e & He & Hrow).
  destruct ((e_user_id e =? uid) && in_month start stop e) eqn:E; [|destruct Hrow].
  apply andb_true_iff in E. destruct E as [Eu Em]. apply Z.eqb_eq in Eu.
  assert (er_entry row = e) as ->.
  { destruct (filter _ (uploads s)) as [|u us].
    - destruct Hrow as [<- | []]. reflexivity.
    - apply in_map_iff in Hrow. destruct Hrow as (u' & <- & _). reflexivity. }
  auto.
Qed.

Lemma entries_select_has (uid : Z) (start stop : string) (s : store)
    (e : entry) :
  In e (entries s) -> e_user_id e = uid -> in_month start stop e = true ->
  exists row, In row (entries_select uid start stop s) /\ er_entry row = e.
Proof.
  intros He Hu Hm. unfold entries_select.
  destruct (filter (fun u => match up_entry_id u with
                             | Some i => i =? e_id e
                             | None => false
                             end) (uploads s)) as [|u us] eqn:F.
  - exists (mkEntryRow e None). split; [|reflexivity].
    apply order_by_in, in_flat_map. exists e. split; [exact He|].
    rewrite Hu, Z.eqb_refl, Hm, F. left. reflexivity.
  - exists (mkEntryRow e (Some u)). split; [|reflexivity].
    apply order_by_in, in_flat_map. exists e. split; [exact He|].
    rewrite Hu, Z.eqb_refl, Hm, F. left. reflexivity.
Qed.

Lemma month_join_in (start stop : string) (s : store) (e : entry) (u : user) :
  In (e, u) (month_join start stop s) <->
  In e (entries s) /\ In u (users s) /\ u_id u = e_user_id e
  /\ in_month start stop e = true.
Proof.
  unfold month_join. rewrite in_flat_map. split.
  - intros (e' & He & H). destruct (in_month start stop e') eqn:E; [|destruct H].
    apply in_map_iff in H. destruct H as (u' & [= <- <-] & Hu).
    apply filter_In in Hu. destruct Hu as [Hu Hid]. apply Z.eqb_eq in Hid. auto.
  - intros (He & Hu & Hid & Hm). exists e. split; [exact He|]. rewrite Hm.
    apply in_map_iff. exists u. split; [reflexivity|].
    apply filter_In. split; [exact Hu | apply Z.eqb_eq, Hid].
Qed.

Lemma participants_join_has (eventId : Z) (startDate endDate : string)
    (s : store) (ep : event_participant) (u : user) (e : entry) :
  In ep (event_participants s) -> ep_event_id ep = eventId ->
  In u (users s) -> u_id u = ep_user_id ep ->
  In e (entries s) -> e_user_id e = u_id u ->
  in_period startDate endDate e = true ->
  In (u, Some e) (participants_join eventId startDate endDate s).
Proof.
  intros Hep Hev Hu Hid He Heu Hin. unfold participants_join.
  apply in_flat_map. exists ep. split; [exact Hep|].
  rewrite Hev, Z.eqb_refl. apply in_flat_map. exists u. split; [exact Hu|].
  rewrite Hid, Z.eqb_refl.
  assert (Hf : In e (filter (fun e0 => (e_user_id e0 =? ep_user_id ep)
                                       && in_period startDate endDate e0)
                            (entries s))).
  { apply filter_In. split; [exact He|].
    rewrite Heu, Hid, Z.eqb_refl, Hin. reflexivity. }
  destruct (filter _ (entries s)) as [|e0 es]; [destruct Hf|].
  apply in_map_iff. exists e. split; [reflexivity | exact Hf].
Qed.



(* ================================================================== *)
(** ** Lists: joins and groups *)

Section Groups.
Context {A K U : Type}.
Variable eqb : K -> K -> bool.
Hypothesis eqb_spec : forall a b, eqb a b = true <-> a = b.

Lemma filter_all {B : Type} (p : B -> bool) (l : list B) :
  (forall x, In x l -> p x = true) -> filter p l = l.
Proof.
  induction l as [|x l IH]; intros H; [reflexivity|]. simpl.
  rewrite (H x (or_introl eq_refl)). f_equal. apply IH.
  intros y Hy. apply H. right. exact Hy.
Qed.

Lemma filter_none {B : Type} (p : B -> bool) (l : list B) :
  (forall x, In x l -> p x = false) -> filter p l = [].
Proof.
  induction l as [|x l IH]; intros H; [reflexivity|]. simpl.
  rewrite (H x (or_introl eq_refl)). apply IH.
  intros y Hy. apply H. right. exact Hy.
Qed.

Lemma filter_idem {B : Type} (p : B -> bool) (l : list B) :
  filter p (filter p l) = filter p l.
Proof.
  apply filter_all. intros x Hx. apply filter_In in Hx. tauto.
Qed.

Lemma distinct_in (l : list K) (x : K) : In x (distinct eqb l) -> In x l.
Proof.
  induction l as [|y l IH]; simpl; [tauto|].
  intros [-> | H]; [left; reflexivity|].
  apply filter_In in H. right. apply IH. tauto.
Qed.

(** A run of rows with one key puts that key once in front. *)
Lemma distinct_block (k : K) (l1 l2 : list K) :
  l1 <> [] -> (forall x, In x l1 -> x = k) -> ~ In k l2 ->
  distinct eqb (l1 ++ l2) = k :: distinct eqb l2.
Proof.
  intros Hne Hall Hnot.
  assert (Hkeep : filter (fun y => negb (eqb k y)) (distinct eqb l2)
                  = distinct eqb l2).
  { apply filter_all. intros x Hx. apply negb_true_iff.
    destruct (eqb k x) eqn:E; [|reflexivity].
    apply eqb_spec in E. subst x. destruct Hnot. apply distinct_in, Hx. }
  induction l1 as [|x l1 IH]; [congruence|].
  assert (x = k) as -> by (apply Hall; left; reflexivity).
  destruct l1 as [|y l1].
  - simpl. rewrite Hkeep. reflexivity.
  - change (distinct eqb ((k :: y :: l1) ++ l2))
      with (k :: filter (fun z => negb (eqb k z))
                        (distinct eqb ((y :: l1) ++ l2))).
    rewrite IH; [|discriminate | intros z Hz; apply Hall; right; exact Hz].
    simpl. assert (E : eqb k k = true) by (apply eqb_spec; reflexivity).
    rewrite E. simpl. rewrite Hkeep. reflexivity.
Qed.

Lemma distinct_complete (l : list K) (x : K) :
  In x l -> In x (distinct eqb l).
Proof.
  induction l as [|y l IH]; simpl; [tauto|].
  intros [-> | H]; [left; reflexivity|].
  destruct (eqb y x) eqn:E.
  - apply eqb_spec in E. left. exact E.
  - right. apply filter_In. split; [apply IH, H | rewrite E; reflexivity].
Qed.

Variable key : A -> K.

(** Every row of the join is in the group of its key. *)
Lemma group_by_has (rows : list A) (r : A) :
  In r rows ->
  exists g, In g (group_by eqb key rows) /\ fst g = key r /\ In r (snd g).
Proof.
  intros Hr. exists (key r, filter (fun x => eqb (key r) (key x)) rows).
  split; [|split; [reflexivity|]].
  - unfold group_by.
    apply (in_map (fun k => (k, filter (fun x => eqb k (key x)) rows))).
    apply distinct_complete, in_map, Hr.
  - apply filter_In. split; [exact Hr | apply eqb_spec; reflexivity].
Qed.

Variable block : U -> list A.
Variable kf : U -> K.
Hypothesis block_nonempty : forall u, block u <> [].
Hypothesis block_key : forall u a, In a (block u) -> key a = kf u.

Lemma block_keys (us : list U) (a : A) :
  In a (flat_map block us) -> In (key a) (map kf us).
Proof.
  rewrite in_flat_map. intros (u & Hu & Ha).
  rewrite (block_key u a Ha). apply in_map, Hu.
Qed.

(** GROUP BY over a join that lists the rows participant by
    participant: one group per participant, holding its rows. *)
Lemma group_by_blocks (us : list U) :
  NoDup (map kf us) ->
  group_by eqb key (flat_map block us) = map (fun u => (kf u, block u)) us.
Proof.
  unfold group_by. induction us as [|u us IH]; intros Hnd; [reflexivity|].
  inversion Hnd as [|? ? Hnot Hnd']; subst.
  cbn [flat_map map]. rewrite map_app.
  rewrite (distinct_block (kf u)).
  - cbn [map]. f_equal.
    + f_equal. rewrite filter_app. rewrite filter_all, filter_none.
      * apply app_nil_r.
      * intros a Ha. destruct (eqb (kf u) (key a)) eqn:E; [|reflexivity].
        apply eqb_spec in E. destruct Hnot. rewrite E. apply block_keys, Ha.
      * intros a Ha. apply eqb_spec. symmetry. apply block_key, Ha.
    + rewrite <- (IH Hnd'). apply map_ext_in. intros k Hk. f_equal.
      rewrite filter_app. rewrite filter_none; [reflexivity|].
      intros a Ha. destruct (eqb k (key a)) eqn:E; [|reflexivity].
      apply eqb_spec in E. destruct Hnot.
      rewrite <- (block_key u a Ha), <- E.
      apply distinct_in in Hk. apply in_map_iff in Hk.
      destruct Hk as (a' & <- & Ha'). apply block_keys, Ha'.
  - destruct (block u) eqn:E; [destruct (block_nonempty u E) | discriminate].
  - intros x Hx. apply in_map_iff in Hx. destruct Hx as (a & <- & Ha).
    apply block_key, Ha.
  - intros Hin. apply Hnot. apply in_map_iff in Hin.
    destruct Hin as (a & Hk & Ha). rewrite <- Hk. apply block_keys, Ha.
Qed.
End Groups.

Lemma flat_map_filter {B C : Type} (p : B -> bool) (f : B -> list C)
    (l : list B) :
  flat_map (fun x => if p x then f x else []) l = flat_map f (filter p l).
Proof.
  induction l as [|x l IH]; [reflexivity|]. simpl.
  destruct (p x); simpl; rewrite IH; reflexivity.
Qed.

Lemma flat_map_nested {B C D : Type} (g : B -> list C) (f : C -> list D)
    (l : list B) :
  flat_map (fun x => flat_map f (g x)) l = flat_map f (flat_map g l).
Proof.
  induction l as [|x l IH]; [reflexivity|]. simpl.
  rewrite flat_map_app, IH. reflexivity.
Qed.

Lemma NoDup_map_inj {B C : Type} (f : B -> C) (l : list B) (a b : B) :
  NoDup (map f l) -> In a l -> In b l -> f a = f b -> a = b.
Proof.
  induction l as [|x l IH]; intros Hnd Ha Hb Hf; [destruct Ha|].
  inversion Hnd as [|? ? Hnot Hnd']; subst.
  destruct Ha as [-> | Ha], Hb as [-> | Hb].
  - reflexivity.
  - destruct Hnot. rewrite Hf. apply in_map, Hb.
  - destruct Hnot. rewrite <- Hf. apply in_map, Ha.
  - apply IH; assumption.
Qed.

(** A key that is unique in a table selects at most the row that
    carries it. *)
Lemma filter_unique_key {B : Type} (f : B -> Z) (l : list B) (x : B) :
  NoDup (map f l) -> In x l ->
  filter (fun y => f y =? f x) l = [x].
Proof.
  induction l as [|y l IH]; intros Hnd Hx; [destruct Hx|].
  inversion Hnd as [|? ? Hnot Hnd']; subst. simpl.
  destruct Hx as [-> | Hx].
  - rewrite Z.eqb_refl. f_equal. apply filter_none.
    intros z Hz. apply Z.eqb_neq. intros E. apply Hnot. rewrite <- E.
    apply in_map, Hz.
  - destruct (f y =? f x) eqn:E.
    + apply Z.eqb_eq in E. destruct Hnot. rewrite E. apply in_map, Hx.
    + apply IH; assumption.
Qed.

(* ================================================================== *)
(** ** The ranking query over a consistent store *)

Lemma participants_join_blocks (eventId : Z) (sd ed : string) (s : store) :
  participants_join eventId sd ed s
  = flat_map (joined_rows sd ed s) (participant_users eventId s).
Proof.
  unfold participants_join, participant_users.
  rewrite <- flat_map_nested. apply flat_map_ext. intros ep.
  destruct (ep_event_id ep =? eventId); [|reflexivity].
  rewrite <- flat_map_filter. reflexivity.
Qed.

Lemma joined_rows_nonempty (sd ed : string) (s : store) (u : user) :
  joined_rows sd ed s u <> [].
Proof.
  unfold joined_rows. destruct (period_entries _ _ _ _); discriminate.
Qed.

Lemma joined_rows_user (sd ed : string) (s : store) (u : user)
    (r : user * option entry) :
  In r (joined_rows sd ed s u) -> fst r = u.
Proof.
  unfold joined_rows. destruct (period_entries _ _ _ _) as [|e es].
  - intros [<- | []]. reflexivity.
  - intros H. apply in_map_iff in H. destruct H as (e' & <- & _). reflexivity.
Qed.

Lemma column_joined_rows {B : Type} (f : entry -> B) (sd ed : string)
    (s : store) (u : user) :
  column f (joined_rows sd ed s u)
  = map f (period_entries (u_id u) sd ed s).
Proof.
  unfold joined_rows, column.
  destruct (period_entries _ _ _ _) as [|e es]; [reflexivity|].
  generalize (e :: es). intros l.
  induction l as [|x l IH]; [reflexivity|]. simpl. f_equal. exact IH.
Qed.

Lemma participant_users_in (eventId : Z) (s : store) (u : user) :
  In u (participant_users eventId s) ->
  In u (users s)
  /\ exists ep, In ep (participants_of eventId s) /\ ep_user_id ep = u_id u.
Proof.
  unfold participant_users, participants_of. rewrite in_flat_map.
  intros (ep & Hep & Hu).
  destruct (ep_event_id ep =? eventId) eqn:E; [|destruct Hu].
  apply filter_In in Hu. destruct Hu as [Hu Hid]. apply Z.eqb_eq in Hid.
  split; [exact Hu|]. exists ep. split; [|congruence].
  apply filter_In. split; assumption.
Qed.

Lemma NoDup_user_ids_of_pairs (eventId : Z) (eps : list event_participant) :
  NoDup (map pair_of eps) ->
  NoDup (map ep_user_id (filter (fun ep => ep_event_id ep =? eventId) eps)).
Proof.
  induction eps as [|ep eps IH]; intros Hnd; [constructor|].
  inversion Hnd as [|? ? Hnot Hnd']; subst. simpl.
  destruct (ep_event_id ep =? eventId) eqn:E; [|apply IH, Hnd'].
  simpl. constructor; [|apply IH, Hnd'].
  intros Hin. apply Hnot. apply in_map_iff in Hin.
  destruct Hin as (ep' & Hid & Hep'). apply filter_In in Hep'.
  destruct Hep' as [Hep' E']. apply Z.eqb_eq in E, E'.
  apply in_map_iff. exists ep'. split; [|exact Hep'].
  unfold pair_of. congruence.
Qed.

Section Consistent.
Variables (eventId : Z) (sd ed : string) (s : store).
Hypothesis Hs : consistent s.

(** Every participant row of the event brings exactly its user. *)
Lemma participant_users_ids :
  map u_id (participant_users eventId s)
  = map ep_user_id (participants_of eventId s).
Proof.
  unfold participant_users, participants_of.
  pose proof (participants_have_users Hs) as Hfk.
  pose proof (user_ids_unique Hs) as Hnd.
  induction (event_participants s) as [|ep eps IH]; [reflexivity|].
  simpl. rewrite map_app, IH by (intros ep' H; apply Hfk; right; exact H).
  destruct (ep_event_id ep =? eventId); [|reflexivity].
  destruct (Hfk ep (or_introl eq_refl)) as (u & Hu & Hid).
  rewrite <- Hid. rewrite (filter_unique_key u_id (users s) u Hnd Hu).
  simpl. rewrite Hid. reflexivity.
Qed.

Lemma participant_users_nodup : NoDup (map u_id (participant_users eventId s)).
Proof.
  rewrite participant_users_ids. apply NoDup_user_ids_of_pairs.
  apply (pairs_unique Hs).
Qed.

Lemma participant_users_length :
  List.length (participant_users eventId s)
  = List.length (participants_of eventId s).
Proof.
  rewrite <- (length_map u_id), participant_users_ids. apply length_map.
Qed.

Lemma NoDup_map_pair {B C D : Type} (f : B -> C) (g : B -> D) (l : list B) :
  NoDup (map f l) -> NoDup (map (fun x => (f x, g x)) l).
Proof.
  induction l as [|x l IH]; intros Hnd; [constructor|].
  inversion Hnd as [|? ? Hnot Hnd']; subst. simpl. constructor; [|apply IH, Hnd'].
  intros Hin. apply Hnot. apply in_map_iff in Hin.
  destruct Hin as (y & [= E _] & Hy). rewrite <- E. apply in_map, Hy.
Qed.

Lemma user_key_eqb_spec (a b : Z * string) : user_key_eqb a b = true <-> a = b.
Proof.
  unfold user_key_eqb. destruct a as [i e], b as [j g]. simpl.
  rewrite andb_true_iff, Z.eqb_eq, String.eqb_eq. split.
  - intros [-> ->]. reflexivity.
  - intros [= -> ->]. split; reflexivity.
Qed.

(** The groups of the ranking query: one row per participant row of
    the event, with the sum and the count of that user's entries of
    the period. *)
Lemma ranking_groups_rows :
  ranking_groups eventId sd ed s
  = map (rank_row sd ed s) (participant_users eventId s).
Proof.
  unfold ranking_groups. rewrite participants_join_blocks.
  rewrite (group_by_blocks user_key_eqb user_key_eqb_spec
             (fun r => (u_id (fst r), u_email (fst r)))
             (joined_rows sd ed s)
             (fun u => (u_id u, u_email u))).
  - rewrite map_map. apply map_ext. intros u. unfold rank_row. cbn [fst snd].
    rewrite !column_joined_rows, !length_map. reflexivity.
  - apply joined_rows_nonempty.
  - intros u r Hr. rewrite (joined_rows_user sd ed s u r Hr). reflexivity.
  - apply NoDup_map_pair, participant_users_nodup.
Qed.

Lemma standing_groups_rows :
  standing_groups eventId sd ed s
  = map (stand_row sd ed s) (participant_users eventId s).
Proof.
  unfold standing_groups. rewrite participants_join_blocks.
  rewrite (group_by_blocks Z.eqb Z.eqb_eq
             (fun r => u_id (fst r))
             (joined_rows sd ed s)
             u_id).
  - rewrite map_map. apply map_ext. intros u. unfold stand_row. cbn [fst snd].
    rewrite !column_joined_rows. reflexivity.
  - apply joined_rows_nonempty.
  - intros u r Hr. rewrite (joined_rows_user sd ed s u r Hr). reflexivity.
  - apply participant_users_nodup.
Qed.
End Consistent.

(* ================================================================== *)
(** ** Ranks and participant counts *)

Lemma find_rank_nonneg (uid : Z) (l : list standing_row) :
  0 <= find_rank uid l.
Proof.
  induction l as [|r l IH]; simpl; [lia|].
  destruct (st_id r =? uid); [lia|].
  destruct (find_rank uid l =? 0) eqn:E; lia.
Qed.

Lemma find_rank_absent (uid : Z) (l : list standing_row) :
  ~ In uid (map st_id l) -> find_rank uid l = 0.
Proof.
  induction l as [|r l IH]; simpl; intros H; [reflexivity|].
  destruct (st_id r =? uid) eqn:E.
  - apply Z.eqb_eq in E. tauto.
  - rewrite IH by tauto. reflexivity.
Qed.

(** The rank of a row is its place counted from 1, whatever the totals
    of the rows before it. *)
Lemma find_rank_position (l : list standing_row) :
  NoDup (map st_id l) ->
  forall i r, nth_error l i = Some r ->
              find_rank (st_id r) l = Z.of_nat i + 1.
Proof.
  induction l as [|x l IH]; intros Hnd i r Hi; [destruct i; discriminate|].
  inversion Hnd as [|? ? Hnot Hnd']; subst.
  destruct i as [|i]; simpl in Hi.
  - injection Hi as ->. simpl. rewrite Z.eqb_refl. reflexivity.
  - cbn [find_rank].
    assert (Hr : In r l) by (apply nth_error_In with i; exact Hi).
    destruct (st_id x =? st_id r) eqn:E.
    + apply Z.eqb_eq in E. destruct Hnot. rewrite E. apply in_map, Hr.
    + rewrite (IH Hnd' i r Hi).
      assert ((Z.of_nat i + 1 =? 0) = false) as -> by (apply Z.eqb_neq; lia).
      lia.
Qed.

Lemma events_select_joined (uid : Z) (today : string) (s : store)
    (row : event_row) :
  In row (events_select uid today s) ->
  er_has_joined row = true ->
  exists ep, In ep (participants_of (ev_id (er_event row)) s)
             /\ ep_user_id ep = uid.
Proof.
  unfold events_select. rewrite order_by_in, in_flat_map.
  intros (e & He & Hrow) Hj.
  destruct (String.leb today (ev_end_date e)); [|destruct Hrow].
  apply in_flat_map in Hrow. destruct Hrow as (u & Hu & Hrow).
  destruct (u_id u =? ev_created_by e); [|destruct Hrow].
  destruct (filter _ (event_participants s)) as [|ep eps] eqn:F.
  - destruct Hrow as [<- | []]. discriminate.
  - assert (Hep : In ep (filter (fun ep => (ep_event_id ep =? ev_id e)
                                           && (ep_user_id ep =? uid))
                                (event_participants s)))
      by (rewrite F; left; reflexivity).
    apply filter_In in Hep. destruct Hep as [Hep Hc].
    apply andb_true_iff in Hc. destruct Hc as [Hc1 Hc2].
    apply Z.eqb_eq in Hc2.
    apply in_map_iff in Hrow. destruct Hrow as (ep' & <- & _).
    exists ep. split; [|exact Hc2].
    apply filter_In. split; [exact Hep | exact Hc1].
Qed.

Section Standing.
Variables (eventId : Z) (sd ed : string) (s : store).
Hypothesis Hs : consistent s.

Lemma standing_ids :
  Permutation (map st_id (standing_select eventId sd ed s))
              (map ep_user_id (participants_of eventId s)).
Proof.
  unfold standing_select.
  eapply perm_trans; [apply Permutation_map, order_by_perm|].
  rewrite (standing_groups_rows eventId sd ed s Hs), map_map.
  cbn [stand_row st_id].
  rewrite <- (participant_users_ids eventId s Hs). apply Permutation_refl.
Qed.

Lemma standing_nodup : NoDup (map st_id (standing_select eventId sd ed s)).
Proof.
  apply (Permutation_NoDup (Permutation_sym standing_ids)).
  apply NoDup_user_ids_of_pairs, (pairs_unique Hs).
Qed.

Lemma standing_length :
  List.length (standing_select eventId sd ed s)
  = List.length (participants_of eventId s).
Proof.
  rewrite <- (length_map st_id), (Permutation_length standing_ids).
  apply length_map.
Qed.

Lemma ranking_length :
  List.length (ranking_select eventId sd ed s)
  = List.length (participants_of eventId s).
Proof.
  unfold ranking_select.
  rewrite order_by_length, (ranking_groups_rows eventId sd ed s Hs), length_map.
  apply participant_users_length, Hs.
Qed.

Lemma ranking_has_participant (ep : event_participant) :
  In ep (participants_of eventId s) ->
  exists u, In u (participant_users eventId s)
            /\ u_id u = ep_user_id ep
            /\ In (rank_row sd ed s u) (ranking_select eventId sd ed s).
Proof.
  intros Hep.
  assert (Hid : In (ep_user_id ep) (map u_id (participant_users eventId s))).
  { rewrite (participant_users_ids eventId s Hs). apply in_map, Hep. }
  apply in_map_iff in Hid. destruct Hid as (u & Hid & Hu).
  exists u. split; [exact Hu|]. split; [exact Hid|].
  unfold ranking_select. apply order_by_in.
  rewrite (ranking_groups_rows eventId sd ed s Hs). apply in_map, Hu.
Qed.
End Standing.


Lemma tie_store_consistent : consistent tie_store.
Proof.
  constructor.
  - repeat constructor; simpl; intuition discriminate.
  - repeat constructor; simpl; intuition discriminate.
  - repeat constructor; simpl; intuition discriminate.
  - intros ep [<- | [<- | [<- | []]]];
      [exists Sample.userB | exists Sample.userA | exists Sample.admin];
      (split; [simpl; tauto | reflexivity]).
Qed.


(* ================================================================== *)
(** ** The order of the ranking *)

Lemma Qc_ltb_lt (a b : Qc) : JS.Qc_ltb a b = true <-> (a < b)%Qc.
Proof.
  unfold JS.Qc_ltb. rewrite Qclt_alt.
  destruct (a ?= b)%Qc; split; congruence.
Qed.

Lemma Qc_eqb_eq (a b : Qc) : JS.Qc_eqb a b = true <-> a = b.
Proof.
  unfold JS.Qc_eqb. rewrite Qceq_alt.
  destruct (a ?= b)%Qc; split; congruence.
Qed.

Lemma Qclt_irrefl (a : Qc) : ~ (a < a)%Qc.
Proof. intros H. apply (Qclt_not_eq a a H). reflexivity. Qed.

Lemma ascii_compare_refl (c : ascii) : Ascii.compare c c = Eq.
Proof. unfold Ascii.compare. apply N.compare_refl. Qed.

Lemma ascii_compare_lt_trans (a b c : ascii) :
  Ascii.compare a b = Lt -> Ascii.compare b c = Lt -> Ascii.compare a c = Lt.
Proof.
  unfold Ascii.compare. rewrite !N.compare_lt_iff. apply N.lt_trans.
Qed.

Lemma string_compare_lt_trans (a : string) :
  forall b c, String.compare a b = Lt -> String.compare b c = Lt ->
              String.compare a c = Lt.
Proof.
  induction a as [|x a IH]; intros [|y b] [|z c]; simpl; try congruence.
  destruct (Ascii.compare x y) eqn:Exy; try discriminate;
    destruct (Ascii.compare y z) eqn:Eyz; try discriminate; intros H1 H2.
  - apply Ascii.compare_eq_iff in Exy, Eyz. subst y z.
    rewrite ascii_compare_refl. apply IH with b; assumption.
  - apply Ascii.compare_eq_iff in Exy. subst y. rewrite Eyz. reflexivity.
  - apply Ascii.compare_eq_iff in Eyz. subst z. rewrite Exy. reflexivity.
  - rewrite (ascii_compare_lt_trans x y z Exy Eyz). reflexivity.
Qed.

Lemma leb_trans (a b c : string) :
  String.leb a b = true -> String.leb b c = true -> String.leb a c = true.
Proof.
  unfold String.leb.
  destruct (String.compare a b) eqn:Eab; try discriminate;
    destruct (String.compare b c) eqn:Ebc; try discriminate; intros _ _.
  - apply String.compare_eq_iff in Eab. subst b. rewrite Ebc. reflexivity.
  - apply String.compare_eq_iff in Eab. subst b. rewrite Ebc. reflexivity.
  - apply String.compare_eq_iff in Ebc. subst c. rewrite Eab. reflexivity.
  - rewrite (string_compare_lt_trans a b c Eab Ebc). reflexivity.
Qed.

Lemma leb_false_of_ltb (a b : string) :
  String.ltb a b = true -> String.leb b a = false.
Proof.
  unfold String.leb, String.ltb. rewrite (String.compare_antisym b a).
  destruct (String.compare a b); simpl; congruence.
Qed.

Lemma rank_le_iff (a b : ranking_row) : rank_le a b = true <-> rank_before a b.
Proof.
  unfold rank_le, rank_before.
  rewrite orb_true_iff, andb_true_iff, Qc_ltb_lt, Qc_eqb_eq. tauto.
Qed.

Lemma rank_le_refl (a : ranking_row) : rank_le a a = true.
Proof. apply rank_le_iff. right. split; [reflexivity | apply leb_refl]. Qed.

Lemma rank_le_total (a b : ranking_row) :
  rank_le a b = true \/ rank_le b a = true.
Proof.
  rewrite !rank_le_iff. unfold rank_before.
  destruct (Qc_dec (r_total_km a) (r_total_km b)) as [[H | H] | H].
  - right. left. exact H.
  - left. left. exact H.
  - destruct (String.leb_total (r_email a) (r_email b)) as [L | L].
    + left. right. split; assumption.
    + right. right. split; [symmetry|]; assumption.
Qed.

Lemma rank_le_trans (a b c : ranking_row) :
  rank_le a b = true -> rank_le b c = true -> rank_le a c = true.
Proof.
  rewrite !rank_le_iff. unfold rank_before.
  intros [H1 | [E1 L1]] [H2 | [E2 L2]].
  - left. apply Qclt_trans with (r_total_km b); assumption.
  - left. rewrite <- E2. exact H1.
  - left. rewrite E1. exact H2.
  - right. split; [congruence | apply leb_trans with (r_email b); assumption].
Qed.

(** Rows tied both ways have the same total and the same email. *)
Lemma rank_le_tied (a b : ranking_row) :
  rank_le a b = true -> rank_le b a = true ->
  r_total_km a = r_total_km b /\ r_email a = r_email b.
Proof.
  rewrite !rank_le_iff. unfold rank_before.
  intros [H1 | [E1 L1]] [H2 | [E2 L2]].
  - destruct (Qclt_irrefl (r_total_km a)).
    apply Qclt_trans with (r_total_km b); assumption.
  - rewrite E2 in H1. destruct (Qclt_irrefl _ H1).
  - rewrite E1 in H2. destruct (Qclt_irrefl _ H2).
  - split; [exact E1 | apply String.leb_antisym; assumption].
Qed.

(** In a sorted list a row that may not stand after another one
    stands before it. *)
Lemma sorted_before {A : Type} (R : A -> A -> Prop) (l : list A) (a b : A) :
  (forall x, R x x) ->
  StronglySorted R l -> In a l -> In b l -> ~ R b a ->
  exists l1 l2 l3, l = (l1 ++ a :: l2 ++ b :: l3)%list.
Proof.
  intros Hrefl Hs. induction Hs as [|x l Hs IH Hx]; intros Ha Hb Hn;
    [destruct Ha|].
  rewrite Forall_forall in Hx.
  destruct Ha as [-> | Ha], Hb as [-> | Hb].
  - destruct Hn. apply Hrefl.
  - apply in_split in Hb. destruct Hb as (l2 & l3 & ->).
    exists [], l2, l3. reflexivity.
  - destruct Hn. apply Hx, Ha.
  - destruct (IH Ha Hb Hn) as (l1 & l2 & l3 & ->).
    exists (x :: l1), l2, l3. reflexivity.
Qed.

Lemma filter_perm {A : Type} (p : A -> bool) (l l' : list A) :
  Permutation l l' -> Permutation (filter p l) (filter p l').
Proof.
  induction 1 as [|x l l' _ IH|x y l|l l' l'' _ IH1 _ IH2]; simpl.
  - apply perm_nil.
  - destruct (p x); [apply perm_skip|]; exact IH.
  - destruct (p x), (p y); try apply Permutation_refl. apply perm_swap.
  - apply perm_trans with (filter p l'); assumption.
Qed.

Lemma sum_Qc_perm (l l' : list Qc) :
  Permutation l l' -> sum_Qc l = sum_Qc l'.
Proof.
  induction 1 as [|x l l' _ IH|x y l|l l' l'' _ IH1 _ IH2]; simpl.
  - reflexivity.
  - rewrite IH. reflexivity.
  - rewrite !Qcplus_assoc, (Qcplus_comm y x). reflexivity.
  - congruence.
Qed.

Lemma participant_users_member (eventId : Z) (s : store) (u : user) :
  In u (participant_users eventId s) <->
  In u (users s)
  /\ exists ep, In ep (event_participants s)
                /\ ep_event_id ep = eventId /\ ep_user_id ep = u_id u.
Proof.
  unfold participant_users. rewrite in_flat_map. split.
  - intros (ep & Hep & Hu).
    destruct (ep_event_id ep =? eventId) eqn:E; [|destruct Hu].
    apply filter_In in Hu. destruct Hu as [Hu Hid].
    apply Z.eqb_eq in E, Hid. split; [exact Hu|]. exists ep. auto.
  - intros (Hu & ep & Hep & E & Hid). exists ep. split; [exact Hep|].
    rewrite E, Z.eqb_refl. apply filter_In. split; [exact Hu|].
    apply Z.eqb_eq. congruence.
Qed.

Section SameRows.
Variables (eventId : Z) (sd ed : string) (s s' : store).
Hypothesis Hsame : same_rows s s'.

Lemma rank_row_same (u : user) : rank_row sd ed s u = rank_row sd ed s' u.
Proof.
  destruct Hsame as (_ & _ & He).
  assert (Hp : Permutation (period_entries (u_id u) sd ed s)
                           (period_entries (u_id u) sd ed s'))
    by (apply filter_perm, He).
  unfold rank_row. f_equal.
  - apply sum_Qc_perm, Permutation_map, Hp.
  - f_equal. apply Permutation_length, Hp.
Qed.

Lemma consistent_same : consistent s -> consistent s'.
Proof.
  destruct Hsame as (Hu & Hp & _). intros [H1 H2 H3 H4]. constructor.
  - apply (Permutation_NoDup (Permutation_map u_id Hu)), H1.
  - apply (Permutation_NoDup (Permutation_map u_email Hu)), H2.
  - apply (Permutation_NoDup (Permutation_map pair_of Hp)), H3.
  - intros ep Hep.
    apply (Permutation_in _ (Permutation_sym Hp)) in Hep.
    destruct (H4 ep Hep) as (u & Hin & Hid). exists u.
    split; [apply (Permutation_in _ Hu), Hin | exact Hid].
Qed.

Lemma participant_users_same :
  consistent s ->
  Permutation (participant_users eventId s) (participant_users eventId s').
Proof.
  intros Hs. pose proof (consistent_same Hs) as Hs'.
  destruct Hsame as (Hu & Hp & _).
  apply NoDup_Permutation.
  - apply NoDup_map_inv with (f := u_id), participant_users_nodup, Hs.
  - apply NoDup_map_inv with (f := u_id), participant_users_nodup, Hs'.
  - intros u. rewrite !participant_users_member. split.
    + intros (Hin & ep & Hep & H). split; [apply (Permutation_in _ Hu), Hin|].
      exists ep. split; [apply (Permutation_in _ Hp), Hep | exact H].
    + intros (Hin & ep & Hep & H).
      split; [apply (Permutation_in _ (Permutation_sym Hu)), Hin|].
      exists ep. split; [apply (Permutation_in _ (Permutation_sym Hp)), Hep | exact H].
Qed.
End SameRows.

(** In the ranking of a consistent store no two rows are tied. *)
Lemma ranking_rows_not_tied (eventId : Z) (sd ed : string) (s : store)
    (x y : ranking_row) :
  consistent s ->
  In x (ranking_groups eventId sd ed s) ->
  In y (ranking_groups eventId sd ed s) ->
  rank_le x y = true -> rank_le y x = true -> x = y.
Proof.
  intros Hs Hx Hy Hxy Hyx.
  rewrite (ranking_groups_rows eventId sd ed s Hs) in Hx, Hy.
  apply in_map_iff in Hx, Hy.
  destruct Hx as (u & <- & Hu), Hy as (v & <- & Hv).
  destruct (rank_le_tied _ _ Hxy Hyx) as [_ Hemail]. cbn [rank_row r_email] in Hemail.
  apply participant_users_in in Hu, Hv.
  rewrite (NoDup_map_inj u_email (users s) u v (user_emails_unique Hs)
             (proj1 Hu) (proj1 Hv) Hemail).
  reflexivity.
Qed.



(* ================================================================== *)
(** ** The boundaries of the two windows *)

Lemma top10_outcome (fault : site -> bool) (localNow aid : Z)
    (adm : session) (month : option string) (s : store) :
  session_user adm = Some aid ->
  isAdmin adm = true ->
  run fault (top10 localNow adm month) s
  = if fault Top10_rows then (fail 500 "Failed to compute top 10", s)
    else (send (BTop10 (JS.slice0 7 (fst (month_window month localNow)))
                  (top10_select (fst (month_window month localNow))
                                (snd (month_window month localNow)) s)), s).
Proof.
  intros Hss Hadm. unfold top10, requireAdmin. rewrite Hss, Hadm.
  destruct (month_window month localNow) as [start stop].
  rewrite run_db_all. destruct (fault Top10_rows); reflexivity.
Qed.



(* ================================================================== *)
(** ** Further properties: what a join does to the store *)

Lemma find_none_not_in {A : Type} (p : A -> bool) (l : list A) (x : A) :
  find p l = None -> In x l -> p x = false.
Proof.
  intros H Hx. destruct (p x) eqn:E; [|reflexivity].
  pose proof (find_none p l H x Hx). congruence.
Qed.

Lemma max_id_bound {A : Type} (id : A -> Z) (rows : list A) (x : A) :
  In x rows -> id x <= max_id id rows.
Proof.
  induction rows as [|y rows IH]; [intros []|].
  intros [-> | H]; simpl; [lia|]. specialize (IH H). lia.
Qed.

Lemma next_id_fresh {A : Type} (id : A -> Z) (seq : Z) (rows : list A) :
  ~ In (next_id id seq rows) (map id rows).
Proof.
  intros H. apply in_map_iff in H. destruct H as (x & Hx & Hin).
  pose proof (max_id_bound id rows x Hin). unfold next_id in Hx. lia.
Qed.

(** Every way a join request can end, whichever store calls fail:
    either nothing is stored and the answer is not 200, or every check
    of the handler passed against the store and the one row is added. *)
Lemma join_any_fault (fault : site -> bool) (now : Z) (ss : session)
    (id : string) (s : store) :
  let out := run fault (join now ss id) s in
  (snd out = s /\ status (fst out) <> 200)
  \/ (exists uid eventId ev u,
        session_user ss = Some uid /\ param_id id = Some eventId
        /\ select_event eventId s = Some ev
        /\ JS.Date_lt (now + phOffset) (JS.Date_parse (ev_start_date ev)) = false
        /\ JS.Date_gt (now + phOffset) (JS.Date_parse (ev_end_date ev)) = false
        /\ select_participant eventId uid s = None
        /\ select_user uid s = Some u
        /\ gender_refused ev u = false
        /\ out = (send (BParticipant (next_id ep_id (seq_event_participants s)
                                              (event_participants s))),
                  snd (insert_participant now eventId uid s))).
Proof.
  unfold join, requireAuth.
  destruct (session_user ss) as [uid|] eqn:Hss; [|left; split; [reflexivity | discriminate]].
  destruct (param_id id) as [eventId|] eqn:Hid; [|left; split; [reflexivity | discriminate]].
  rewrite run_db_get.
  destruct (fault Join_event); [left; split; [reflexivity | discriminate]|].
  destruct (select_event eventId s) as [ev|] eqn:Hev;
    [|left; split; [reflexivity | discriminate]].
  destruct (JS.Date_lt _ _) eqn:Hlt; [left; split; [reflexivity | discriminate]|].
  destruct (JS.Date_gt _ _) eqn:Hgt; [left; split; [reflexivity | discriminate]|].
  rewrite run_db_get.
  destruct (fault Join_existing); [left; split; [reflexivity | discriminate]|].
  destruct (select_participant eventId uid s) eqn:Hp;
    [left; split; [reflexivity | discriminate]|].
  rewrite run_db_get.
  destruct (fault Join_user); [left; split; [reflexivity | discriminate]|].
  destruct (select_user uid s) as [u|] eqn:Hu;
    [|left; split; [reflexivity | discriminate]].
  fold (gender_refused ev u).
  destruct (gender_refused ev u) eqn:Hg; [left; split; [reflexivity | discriminate]|].
  rewrite run_db_run.
  destruct (fault Join_insert); [left; split; [reflexivity | discriminate]|].
  right. exists uid, eventId, ev, u.
  repeat (split; [first [assumption | reflexivity]|]).
  unfold insert_participant. rewrite Hp. reflexivity.
Qed.

Lemma insert_participant_consistent (now eventId uid : Z) (s : store) (u : user) :
  consistent s ->
  select_participant eventId uid s = None ->
  select_user uid s = Some u ->
  consistent (snd (insert_participant now eventId uid s)).
Proof.
  intros [H1 H2 H3 H4] Hp Hu. unfold insert_participant. rewrite Hp.
  cbn [snd]. constructor; cbn [users event_participants].
  - exact H1.
  - exact H2.
  - rewrite map_app. cbn [map pair_of ep_event_id ep_user_id].
    apply NoDup_app_remove_l with (l := []). simpl.
    apply Permutation_NoDup with ((eventId, uid) :: map pair_of (event_participants s)).
    + apply Permutation_cons_append.
    + constructor; [|exact H3]. intros Hin. apply in_map_iff in Hin.
      destruct Hin as (ep & Hpair & Hep).
      pose proof (find_none_not_in _ _ ep Hp Hep) as Hf. cbn beta in Hf.
      unfold pair_of in Hpair. injection Hpair as E1 E2.
      rewrite E1, E2, !Z.eqb_refl in Hf. discriminate.
  - intros ep Hep. apply in_app_or in Hep. destruct Hep as [Hep | [<- | []]].
    + apply H4, Hep.
    + exists u. unfold select_user, first_row in Hu. apply find_some in Hu.
      destruct Hu as [Hin Hid]. apply Z.eqb_eq in Hid. split; [exact Hin | exact Hid].
Qed.



(** X2: a join request keeps the store consistent (unique user ids and
    emails, one row per user and event, a user behind every
    participant row), whatever it answers and whichever store calls
    fail. *)
Theorem join_keeps_consistent (fault : site -> bool) (now : Z) (ss : session)
    (id : string) (s : store) :
  consistent s -> consistent (snd (run fault (join now ss id) s)).
Proof.
  intros Hs. pose proof (join_any_fault fault now ss id s) as H. cbv zeta in H.
  destruct H as [[-> _] | (uid & eventId & ev & u & _ & _ & _ & _ & _ & Hp & Hu & _ & ->)].
  - exact Hs.
  - cbn [snd]. apply (insert_participant_consistent now eventId uid s u Hs Hp Hu).
Qed.

Lemma join_keeps_consistent_witness : consistent joined_store.
Proof.
  apply (join_keeps_consistent no_fault Sample.mid_june Sample.asA "1" Sample.s0).
  constructor; simpl.
  - repeat constructor; simpl; intuition discriminate.
  - repeat constructor; simpl; intuition discriminate.
  - constructor.
  - intros ep [].
Defined.

(* ================================================================== *)
(** ** Further properties: who may call what, and what reading costs *)

Lemma serve_ask_get {A : Type} (fault : Admin.call -> bool) (q : Admin.call)
    (sel : store -> option A) (k : dbres (option A) -> Admin.job) (s : store) :
  Admin.serve fault (Admin.ask_get q sel k) s =
  if fault q then Admin.serve fault (k (Err Failure)) s
  else Admin.serve fault (k (Ok (sel s))) s.
Proof. reflexivity. Qed.

Lemma serve_ask_all {A : Type} (fault : Admin.call -> bool) (q : Admin.call)
    (sel : store -> list A) (k : dbres (list A) -> Admin.job) (s : store) :
  Admin.serve fault (Admin.ask_all q sel k) s =
  if fault q then Admin.serve fault (k (Err Failure)) s
  else Admin.serve fault (k (Ok (sel s))) s.
Proof. reflexivity. Qed.

Lemma serve_ask (fault : Admin.call -> bool) (q : Admin.call)
    (op : store -> dbres run_info * store) (k : dbres run_info -> Admin.job)
    (s : store) :
  Admin.serve fault (Admin.Ask q op k) s =
  if fault q then Admin.serve fault (k (Err Failure)) s
  else Admin.serve fault (k (fst (op s))) (snd (op s)).
Proof. simpl. destruct (fault q); [reflexivity|]. destruct (op s); reflexivity. Qed.

(** X3: the routes that only read (the event ranking, the listing of
    joinable events, the monthly listing, the top 10 and the entries of
    an event) leave the store as it was, whatever the session, the
    parameters and the store calls that fail. *)
Theorem reads_leave_the_store (fault : site -> bool)
    (afault : Admin.call -> bool) (now localNow : Z) (ss : session)
    (id : string) (month : option string) (s : store) :
  snd (run fault (ranking ss id) s) = s
  /\ snd (run fault (list_events now ss) s) = s
  /\ snd (run fault (list_entries localNow ss month) s) = s
  /\ snd (run fault (top10 localNow ss month) s) = s
  /\ snd (Admin.serve afault (Admin.event_entries ss id) s) = s.
Proof.
  split; [|split; [|split; [|split]]].
  - unfold ranking, requireAuth.
    destruct (session_user ss); [|reflexivity].
    destruct (param_id id); [|reflexivity].
    rewrite run_db_get. destruct (fault Ranking_event); [reflexivity|].
    destruct (select_event _ s); [|reflexivity].
    rewrite run_db_all. destruct (fault Ranking_rows); reflexivity.
  - destruct (session_user ss) as [uid|] eqn:Hss.
    + rewrite (list_events_outcome fault now uid ss s Hss).
      destruct (fault Events_rows); reflexivity.
    + unfold list_events, requireAuth. rewrite Hss. reflexivity.
  - destruct (session_user ss) as [uid|] eqn:Hss.
    + rewrite (list_entries_outcome fault localNow uid ss month s Hss).
      destruct (fault Entries_rows); reflexivity.
    + unfold list_entries, requireAuth. rewrite Hss. reflexivity.
  - unfold top10, requireAdmin.
    destruct (session_user ss); [|reflexivity].
    destruct (isAdmin ss); [|reflexivity].
    destruct (month_window month localNow) as [start stop].
    rewrite run_db_all. destruct (fault Top10_rows); reflexivity.
  - unfold Admin.event_entries, Admin.authed.
    destruct (session_user ss); [|reflexivity].
    destruct (param_id id); [|reflexivity].
    rewrite serve_ask_get. destruct (afault Admin.Entries_event); [reflexivity|].
    destruct (select_event _ s); [|reflexivity].
    rewrite serve_ask_get. destruct (afault Admin.Entries_participant); [reflexivity|].
    destruct (select_participant _ _ s); [|reflexivity].
    rewrite serve_ask_all. destruct (afault Admin.Entries_rows); reflexivity.
Qed.



(* ================================================================== *)
(** ** Further properties: what a submission stores *)

Lemma leb_of_ltb_false (a b : string) :
  String.ltb b a = false -> String.leb a b = true.
Proof.
  unfold String.leb, String.ltb. rewrite (String.compare_antisym a b).
  destruct (String.compare b a); simpl; congruence.
Qed.

(** Every way the two writes of a submission can end. *)
Lemma save_entry_cases (fault : site -> bool) (qe qu : site) (uid : Z)
    (d : string) (f : fields) (fl : file) (s : store) :
  let s1 := snd (insert_entry uid d (kmNum f) (hoursNum f) (paceNum f) s) in
  let entryId := next_id e_id (seq_entries s) (entries s) in
  run fault (save_entry qe qu uid d f fl) s
  = if fault qe then (fail 500 "Failed to save entry", s)
    else if fault qu then (fail 500 "Failed to save screenshot", s1)
    else (send (BEntry entryId), snd (insert_upload uid entryId fl s1)).
Proof.
  unfold save_entry. rewrite run_db_run.
  destruct (fault qe); [reflexivity|].
  cbn [insert_entry fst snd lastID]. rewrite run_db_run.
  destruct (fault qu); reflexivity.
Qed.

(** Every way a submission for an event can end, whichever store calls
    fail: either nothing is stored, or the three gates were passed
    against the store and the writes were attempted. *)
Lemma event_entry_any_fault (fault : site -> bool) (ss : session)
    (id : string) (f : fields) (fl : option file) (s : store) :
  let out := run fault (event_entry ss id f fl) s in
  (snd out = s /\ status (fst out) <> 200)
  \/ (exists uid eventId d shot p ev,
        session_user ss = Some uid /\ param_id id = Some eventId
        /\ date f = Some d /\ fl = Some shot
        /\ select_participant eventId uid s = Some p
        /\ select_event eventId s = Some ev
        /\ within_dates ev d = true
        /\ select_closed eventId d s = None
        /\ out = run fault (save_entry Entry_insert Entry_upload uid d f shot) s).
Proof.
  unfold event_entry, requireAuth.
  destruct (session_user ss) as [uid|]; [|left; split; [reflexivity | discriminate]].
  destruct (param_id id) as [eventId|]; [|left; split; [reflexivity | discriminate]].
  destruct (date f) as [d|]; [|left; split; [reflexivity | discriminate]].
  destruct (String.eqb d ""); [left; split; [reflexivity | discriminate]|].
  destruct fl as [shot|]; [|left; split; [reflexivity | discriminate]].
  rewrite run_db_get.
  destruct (fault Entry_participant); [left; split; [reflexivity | discriminate]|].
  destruct (select_participant eventId uid s) as [p|] eqn:Hp;
    [|left; split; [reflexivity | discriminate]].
  rewrite run_db_get.
  destruct (fault Entry_event); [left; split; [reflexivity | discriminate]|].
  destruct (select_event eventId s) as [ev|] eqn:Hev;
    [|left; split; [reflexivity | discriminate]].
  destruct (String.ltb d (ev_start_date ev) || String.ltb (ev_end_date ev) d) eqn:Hw;
    [left; split; [reflexivity | discriminate]|].
  rewrite run_db_get.
  destruct (fault Entry_closed); [left; split; [reflexivity | discriminate]|].
  destruct (select_closed eventId d s) eqn:Hc;
    [left; split; [reflexivity | discriminate]|].
  right. exists uid, eventId, d, shot, p, ev.
  apply orb_false_iff in Hw. destruct Hw as [W0 W1].
  repeat (split; [first [assumption | reflexivity]|]).
  split; [|split; [assumption | reflexivity]].
  unfold within_dates. rewrite (leb_of_ltb_false _ _ W0), (leb_of_ltb_false _ _ W1).
  reflexivity.
Qed.





Lemma entries_select_has_upload (uid : Z) (start stop : string) (s : store)
    (e : entry) (u : upload) :
  In e (entries s) -> e_user_id e = uid -> in_month start stop e = true ->
  In u (uploads s) -> up_entry_id u = Some (e_id e) ->
  In (mkEntryRow e (Some u)) (entries_select uid start stop s).
Proof.
  intros He Hu Hm Hin Hid. unfold entries_select.
  apply order_by_in, in_flat_map. exists e. split; [exact He|].
  rewrite Hu, Z.eqb_refl, Hm. cbn [andb].
  assert (Hf : In u (filter (fun u0 => match up_entry_id u0 with
                                       | Some i => i =? e_id e
                                       | None => false
                                       end) (uploads s))).
  { apply filter_In. split; [exact Hin|]. rewrite Hid. apply Z.eqb_refl. }
  destruct (filter _ (uploads s)) as [|u0 us]; [destruct Hf|].
  apply (in_map (fun u1 => mkEntryRow e (Some u1))). exact Hf.
Qed.



(* ================================================================== *)
(** ** Further properties: closed dates *)

Lemma store_eta (s : store) :
  mkStore (users s) (entries s) (uploads s) (events s) (event_participants s)
          (event_closed_dates s) (seq_entries s) (seq_uploads s)
          (seq_event_participants s) (seq_event_closed_dates s) = s.
Proof. destruct s. reflexivity. Qed.

Lemma find_app_miss {A : Type} (p : A -> bool) (l : list A) (x : A) :
  p x = false -> find p (l ++ [x]) = find p l.
Proof.
  intros H. induction l as [|y l IH]; simpl; [rewrite H; reflexivity|].
  destruct (p y); [reflexivity | exact IH].
Qed.

(** Every way a request to close a date can end. *)
Lemma close_date_any_fault (fault : site -> bool) (now : Z) (ss : session)
    (id : string) (bdate : option string) (s : store) :
  let out := run fault (close_date now ss id bdate) s in
  (snd out = s /\ status (fst out) <> 200)
  \/ (exists uid eventId d ev,
        session_user ss = Some uid /\ isAdmin ss = true
        /\ param_id id = Some eventId /\ bdate = Some d
        /\ JS.is_date_shape d = true
        /\ select_event eventId s = Some ev
        /\ within_dates ev d = true
        /\ select_closed eventId d s = None
        /\ out = (send (BClosedDate (next_id ecd_id (seq_event_closed_dates s)
                                             (event_closed_dates s))),
                  snd (insert_closed now eventId d uid s))).
Proof.
  unfold close_date, requireAdmin.
  destruct (session_user ss) as [uid|]; [|left; split; [reflexivity | discriminate]].
  destruct (isAdmin ss); [|left; split; [reflexivity | discriminate]].
  destruct (param_id id) as [eventId|]; [|left; split; [reflexivity | discriminate]].
  destruct bdate as [d|]; [|left; split; [reflexivity | discriminate]].
  destruct (String.eqb d ""); [left; split; [reflexivity | discriminate]|].
  destruct (JS.is_date_shape d) eqn:Hshape;
    [|left; split; [reflexivity | discriminate]].
  cbn [negb]. rewrite run_db_get.
  destruct (fault Close_event); [left; split; [reflexivity | discriminate]|].
  destruct (select_event eventId s) as [ev|] eqn:Hev;
    [|left; split; [reflexivity | discriminate]].
  destruct (String.ltb d (ev_start_date ev) || String.ltb (ev_end_date ev) d) eqn:Hw;
    [left; split; [reflexivity | discriminate]|].
  rewrite run_db_run.
  destruct (fault Close_insert); [left; split; [reflexivity | discriminate]|].
  unfold insert_closed.
  destruct (select_closed eventId d s) eqn:Hc;
    [left; split; [reflexivity | discriminate]|].
  right. exists uid, eventId, d, ev.
  apply orb_false_iff in Hw. destruct Hw as [W0 W1].
  assert (Hw : within_dates ev d = true).
  { unfold within_dates.
    rewrite (leb_of_ltb_false _ _ W0), (leb_of_ltb_false _ _ W1). reflexivity. }
  unfold insert_closed. rewrite Hc.
  repeat (split; [first [assumption | reflexivity]|]). reflexivity.
Qed.

(** X8: a date is closed only by an administrator, only in the form
    YYYY-MM-DD, only inside the period of an existing event and only
    when it was open; closing adds one row for that event and date and
    leaves every other date, of this and of any other event, as closed
    or as open as it was.  Any other answer than 200 stores nothing.
    This holds whichever store calls fail. *)
Theorem close_date_gate (fault : site -> bool) (now : Z) (ss : session)
    (id : string) (bdate : option string) (s : store) (r : response)
    (s' : store) :
  run fault (close_date now ss id bdate) s = (r, s') ->
  (status r <> 200 -> s' = s)
  /\ (status r = 200 ->
      exists uid eventId d ev c,
        session_user ss = Some uid /\ isAdmin ss = true
        /\ param_id id = Some eventId /\ bdate = Some d
        /\ JS.is_date_shape d = true
        /\ select_event eventId s = Some ev
        /\ within_dates ev d = true
        /\ select_closed eventId d s = None
        /\ event_closed_dates s' = (event_closed_dates s ++ [c])%list
        /\ ecd_event_id c = eventId /\ ecd_closed_date c = d
        /\ json r = BClosedDate (ecd_id c)
        /\ (forall eventId' d',
              (eventId', d') <> (eventId, d) ->
              select_closed eventId' d' s' = select_closed eventId' d' s)
        /\ entries s' = entries s /\ events s' = events s
        /\ event_participants s' = event_participants s).
Proof.
  intros Hrun. pose proof (close_date_any_fault fault now ss id bdate s) as H.
  cbv zeta in H. rewrite Hrun in H. cbn [fst snd] in H.
  destruct H as [[-> Hst] | (uid & eventId & d & ev & Hss & Hadm & Hid & Hb & Hshape
                              & Hev & Hw & Hc & Hout)].
  - split; [reflexivity | contradiction].
  - injection Hout as -> ->. split; [intros H; destruct H; reflexivity|]. intros _.
    exists uid, eventId, d, ev,
      (mkClosedDate (next_id ecd_id (seq_event_closed_dates s) (event_closed_dates s))
                    eventId d uid now).
    unfold insert_closed. rewrite Hc. cbn [snd].
    repeat (split; [first [assumption | reflexivity]|]).
    split; [|repeat split].
    intros eventId' d' Hne. unfold select_closed, first_row.
    cbn [event_closed_dates]. apply find_app_miss.
    cbn [ecd_event_id ecd_closed_date].
    destruct (eventId =? eventId') eqn:E1; [|reflexivity].
    destruct (String.eqb d d') eqn:E2; [|reflexivity].
    apply Z.eqb_eq in E1. apply String.eqb_eq in E2. subst. destruct Hne. reflexivity.
Qed.

Lemma close_date_gate_witness :
  exists c, event_closed_dates
              (snd (run no_fault (close_date Sample.mid_june Sample.asAdmin "1"
                                             (Some "2024-06-20")) joined_store))
            = [c]
            /\ ecd_closed_date c = "2024-06-20".
Proof.
  destruct (close_date_gate no_fault Sample.mid_june Sample.asAdmin "1"
              (Some "2024-06-20") joined_store (send (BClosedDate 1))
              (snd (run no_fault (close_date Sample.mid_june Sample.asAdmin "1"
                                             (Some "2024-06-20")) joined_store))
              eq_refl) as [_ H].
  destruct (H eq_refl) as (uid & eventId & d & ev & c & _ & _ & _ & Hb & _ & _ & _ & _
                           & Hrows & _ & Hd & _).
  exists c. split; [exact Hrows|]. rewrite Hd. injection Hb as <-. reflexivity.
Defined.

(** X9: closing an open date and then reopening it gives back the table
    of closed dates as it was, both requests being answered 200; a
    second request to reopen the same date is answered 404 "Closed date
    not found" and changes nothing. *)
Theorem close_then_open_restores (now admin eventId : Z) (adm : session)
    (id d : string) (s : store) (ev : event) :
  session_user adm = Some admin -> isAdmin adm = true ->
  param_id id = Some eventId ->
  JS.is_date_shape d = true ->
  select_event eventId s = Some ev ->
  within_dates ev d = true ->
  select_closed eventId d s = None ->
  let closing := run no_fault (close_date now adm id (Some d)) s in
  let opening := run no_fault (open_date adm id (Some d)) (snd closing) in
  let again := run no_fault (open_date adm id (Some d)) (snd opening) in
  status (fst closing) = 200
  /\ fst opening = send BOk
  /\ event_closed_dates (snd opening) = event_closed_dates s
  /\ again = (fail 404 "Closed date not found", snd opening).
Proof.
  intros Hss Hadm Hid Hshape Hev Hw Hc closing opening again.
  pose proof (close_date_outcome now admin eventId adm id d Hss Hadm Hid Hshape
                s ev Hev Hw Hc) as Hcl. fold closing in Hcl.
  assert (Hs1 : snd closing
                = mkStore (users s) (entries s) (uploads s) (events s)
                    (event_participants s)
                    (event_closed_dates s
                       ++ [mkClosedDate (next_id ecd_id (seq_event_closed_dates s)
                                                 (event_closed_dates s))
                                        eventId d admin now])
                    (seq_entries s) (seq_uploads s) (seq_event_participants s)
                    (next_id ecd_id (seq_event_closed_dates s)
                             (event_closed_dates s))).
  { rewrite Hcl. cbn [snd]. unfold insert_closed. rewrite Hc. reflexivity. }
  assert (Hc1 : exists c, select_closed eventId d (snd closing) = Some c).
  { rewrite Hs1. unfold select_closed, first_row. cbn [event_closed_dates].
    rewrite find_app_none by exact Hc.
    cbn [ecd_event_id ecd_closed_date]. rewrite Z.eqb_refl, String.eqb_refl.
    cbn [andb]. eexists. reflexivity. }
  destruct Hc1 as [c Hc1].
  pose proof (open_date_outcome admin eventId adm id d Hss Hadm Hid Hshape
                (snd closing) c Hc1) as Hop. fold opening in Hop.
  assert (Hrows : event_closed_dates (snd opening) = event_closed_dates s).
  { rewrite Hop. cbn [snd delete_closed event_closed_dates]. rewrite Hs1.
    cbn [event_closed_dates]. rewrite filter_app.
    cbn [filter ecd_event_id ecd_closed_date].
    rewrite Z.eqb_refl, String.eqb_refl. cbn [andb negb]. rewrite app_nil_r.
    apply filter_all. intros x Hx. apply negb_true_iff.
    apply (find_none_not_in _ _ x Hc Hx). }
  split; [rewrite Hcl; reflexivity|]. split; [rewrite Hop; reflexivity|].
  split; [exact Hrows|].
  unfold again, open_date, requireAdmin.
  rewrite Hss, Hadm, Hid, (date_shape_not_empty d Hshape), run_db_run.
  cbn [no_fault delete_closed fst snd changes].
  assert (Hnone : filter (fun c0 => (ecd_event_id c0 =? eventId)
                                    && String.eqb (ecd_closed_date c0) d)
                         (event_closed_dates (snd opening)) = []).
  { rewrite Hrows. apply find_some_filter. exact Hc. }
  rewrite Hnone. cbn [List.length Z.of_nat Z.eqb].
  rewrite (filter_all _ (event_closed_dates (snd opening))).
  - rewrite store_eta. reflexivity.
  - intros x Hx. apply negb_true_iff.
    rewrite Hrows in Hx. apply (find_none_not_in _ _ x Hc Hx).
Qed.

Lemma close_then_open_restores_witness :
  event_closed_dates
    (snd (run no_fault (open_date Sample.asAdmin "1" (Some "2024-06-20"))
              (snd (run no_fault (close_date Sample.mid_june Sample.asAdmin "1"
                                             (Some "2024-06-20")) joined_store))))
  = event_closed_dates joined_store.
Proof.
  assert (Hev : select_event 1 joined_store = Some Sample.june) by reflexivity.
  assert (Hc : select_closed 1 "2024-06-20" joined_store = None) by reflexivity.
  exact (proj1 (proj2 (proj2
           (close_then_open_restores Sample.mid_june 1 1 Sample.asAdmin "1"
              "2024-06-20" joined_store Sample.june eq_refl eq_refl eq_refl
              eq_refl Hev eq_refl Hc)))).
Defined.

(* ================================================================== *)
(** ** Further properties: whose entries an edit or a deletion touches *)

Lemma filter_map_fixed {A : Type} (p : A -> bool) (g : A -> A) (l : list A) :
  (forall x, In x l -> p (g x) = p x) ->
  (forall x, In x l -> p x = true -> g x = x) ->
  filter p (map g l) = filter p l.
Proof.
  induction l as [|x l IH]; intros H1 H2; [reflexivity|].
  cbn [map filter]. rewrite (H1 x (or_introl eq_refl)).
  rewrite IH by (intros; first [apply H1 | apply H2]; try right; assumption).
  destruct (p x) eqn:E; [|reflexivity].
  rewrite (H2 x (or_introl eq_refl) E). reflexivity.
Qed.

Lemma filter_filter_sub {A : Type} (p q : A -> bool) (l : list A) :
  (forall x, In x l -> p x = true -> q x = true) ->
  filter p (filter q l) = filter p l.
Proof.
  induction l as [|x l IH]; intros H; [reflexivity|].
  cbn [filter]. specialize (IH (fun y Hy => H y (or_intror Hy))).
  destruct (q x) eqn:Eq.
  - cbn [filter]. rewrite IH. reflexivity.
  - rewrite IH. destruct (p x) eqn:Ep; [|reflexivity].
    rewrite (H x (or_introl eq_refl) Ep) in Eq. discriminate.
Qed.

(** What UPDATE entries ... WHERE id = ? [AND user_id = ?] leaves alone. *)
Lemma update_entry_scope (entryId : Z) (owner : option Z) (d : option string)
    (k h : Qc) (p : option Qc) (s : store) :
  let s' := snd (update_entry entryId owner d k h p s) in
  map e_id (entries s') = map e_id (entries s)
  /\ map e_user_id (entries s') = map e_user_id (entries s)
  /\ filter (fun e => negb (e_id e =? entryId)) (entries s')
     = filter (fun e => negb (e_id e =? entryId)) (entries s)
  /\ (forall uid, owner = Some uid ->
        filter (fun e => negb (e_user_id e =? uid)) (entries s')
        = filter (fun e => negb (e_user_id e =? uid)) (entries s)).
Proof.
  unfold update_entry. destruct d as [d|].
  - cbn [snd entries]. repeat split.
    + rewrite map_map. apply map_ext. intros e.
      destruct (_ && _); reflexivity.
    + rewrite map_map. apply map_ext. intros e.
      destruct (_ && _); reflexivity.
    + apply filter_map_fixed.
      * intros e _. destruct (_ && _); reflexivity.
      * intros e _ He. apply negb_true_iff in He. rewrite He. reflexivity.
    + intros uid ->. apply filter_map_fixed.
      * intros e _. destruct (_ && _); reflexivity.
      * intros e _ He. apply negb_true_iff in He. rewrite He.
        rewrite andb_false_r. reflexivity.
  - destruct (existsb _ _); cbn [snd]; repeat split.
Qed.

(** What DELETE FROM entries WHERE id = ? [AND user_id = ?] leaves alone. *)
Lemma delete_entries_scope (fk : bool) (entryId : Z) (owner : option Z)
    (s : store) :
  let s' := snd (Admin.delete_entries fk entryId owner s) in
  incl (entries s') (entries s)
  /\ filter (fun e => negb (e_id e =? entryId)) (entries s')
     = filter (fun e => negb (e_id e =? entryId)) (entries s)
  /\ (forall uid, owner = Some uid ->
        filter (fun e => negb (e_user_id e =? uid)) (entries s')
        = filter (fun e => negb (e_user_id e =? uid)) (entries s)).
Proof.
  unfold Admin.delete_entries. cbn [snd entries]. repeat split.
  - intros e He. apply filter_In in He. exact (proj1 He).
  - apply filter_filter_sub. intros e _ He. apply negb_true_iff in He.
    rewrite He. reflexivity.
  - intros uid ->. apply filter_filter_sub. intros e _ He.
    apply negb_true_iff in He. rewrite He, andb_false_r. reflexivity.
Qed.

Lemma put_entry_store (fault : site -> bool) (ss : session) (id : string)
    (f : fields) (s : store) :
  snd (run fault (put_entry ss id f) s) = s
  \/ exists uid entryId,
       session_user ss = Some uid /\ param_id id = Some entryId
       /\ snd (run fault (put_entry ss id f) s)
          = snd (update_entry entryId (Some uid) (date f) (kmNum f)
                              (hoursNum f) (paceNum f) s).
Proof.
  unfold put_entry, requireAuth.
  destruct (session_user ss) as [uid|]; [|left; reflexivity].
  destruct (param_id id) as [entryId|]; [|left; reflexivity].
  rewrite run_db_get. destruct (fault Put_select); [left; reflexivity|].
  destruct (select_entry entryId (Some uid) s); [|left; reflexivity].
  rewrite run_db_run. destruct (fault Put_update); [left; reflexivity|].
  right. exists uid, entryId. split; [reflexivity|]. split; [reflexivity|].
  destruct (update_entry _ _ _ _ _ _ s) as [[info|err] s1]; cbn [fst snd].
  - destruct (changes info =? 0); reflexivity.
  - reflexivity.
Qed.

Lemma admin_put_entry_store (fault : site -> bool) (ss : session) (id : string)
    (f : fields) (s : store) :
  snd (run fault (admin_put_entry ss id f) s) = s
  \/ exists entryId,
       param_id id = Some entryId
       /\ snd (run fault (admin_put_entry ss id f) s)
          = snd (update_entry entryId None (date f) (kmNum f)
                              (hoursNum f) (paceNum f) s).
Proof.
  unfold admin_put_entry, requireAdmin.
  destruct (session_user ss) as [uid|]; [|left; reflexivity].
  destruct (isAdmin ss); [|left; reflexivity].
  destruct (param_id id) as [entryId|]; [|left; reflexivity].
  rewrite run_db_get. destruct (fault AdminPut_select); [left; reflexivity|].
  destruct (select_entry entryId None s); [|left; reflexivity].
  rewrite run_db_run. destruct (fault AdminPut_update); [left; reflexivity|].
  right. exists entryId. split; [reflexivity|].
  destruct (update_entry _ _ _ _ _ _ s) as [[info|err] s1]; cbn [fst snd].
  - destruct (changes info =? 0); reflexivity.
  - reflexivity.
Qed.

Lemma delete_entry_store (fault : Admin.call -> bool) (fk : bool)
    (ss : session) (id : string) (s : store) :
  snd (Admin.serve fault (Admin.delete_entry fk ss id) s) = s
  \/ exists uid entryId,
       session_user ss = Some uid /\ param_id id = Some entryId
       /\ snd (Admin.serve fault (Admin.delete_entry fk ss id) s)
          = snd (Admin.delete_entries fk entryId (Some uid) s).
Proof.
  unfold Admin.delete_entry, Admin.authed.
  destruct (session_user ss) as [uid|]; [|left; reflexivity].
  destruct (param_id id) as [entryId|]; [|left; reflexivity].
  rewrite serve_ask. destruct (fault Admin.Entry_delete); [left; reflexivity|].
  right. exists uid, entryId. split; [reflexivity|]. split; [reflexivity|].
  destruct (Admin.delete_entries fk entryId (Some uid) s) as [[info|err] s1];
    cbn [fst snd].
  - destruct (changes info =? 0); reflexivity.
  - reflexivity.
Qed.

Lemma admin_delete_entry_store (fault : Admin.call -> bool) (fk : bool)
    (ss : session) (id : string) (s : store) :
  snd (Admin.serve fault (Admin.admin_delete_entry fk ss id) s) = s
  \/ exists entryId,
       param_id id = Some entryId
       /\ snd (Admin.serve fault (Admin.admin_delete_entry fk ss id) s)
          = snd (Admin.delete_entries fk entryId None s).
Proof.
  unfold Admin.admin_delete_entry, Admin.as_admin.
  destruct (session_user ss) as [uid|]; [|left; reflexivity].
  destruct (isAdmin ss); [|left; reflexivity].
  destruct (param_id id) as [entryId|]; [|left; reflexivity].
  rewrite serve_ask. destruct (fault Admin.AdminEntry_delete); [left; reflexivity|].
  right. exists entryId. split; [reflexivity|].
  destruct (Admin.delete_entries fk entryId None s) as [[info|err] s1];
    cbn [fst snd].
  - destruct (changes info =? 0); reflexivity.
  - reflexivity.
Qed.

(** X10: whatever a signed-in user sends to PUT /api/entries/:id or to
    DELETE /api/entries/:id, and whichever store calls fail, the entries
    of every other user stay exactly as they were; the edit moves no
    entry to another id or owner, and the deletion adds none. *)
Theorem other_users_entries_are_safe (fault : site -> bool)
    (fault' : Admin.call -> bool) (fk : bool) (ss : session) (uid : Z)
    (id : string) (f : fields) (s : store) :
  session_user ss = Some uid ->
  let others := filter (fun e => negb (e_user_id e =? uid)) in
  let edited := snd (run fault (put_entry ss id f) s) in
  let deleted := snd (Admin.serve fault' (Admin.delete_entry fk ss id) s) in
  others (entries edited) = others (entries s)
  /\ map e_id (entries edited) = map e_id (entries s)
  /\ map e_user_id (entries edited) = map e_user_id (entries s)
  /\ others (entries deleted) = others (entries s)
  /\ incl (entries deleted) (entries s).
Proof.
  intros Hss others edited deleted.
  assert (He : others (entries edited) = others (entries s)
               /\ map e_id (entries edited) = map e_id (entries s)
               /\ map e_user_id (entries edited) = map e_user_id (entries s)).
  { destruct (put_entry_store fault ss id f s) as [H | (u & entryId & Hu & _ & H)];
      unfold edited; rewrite H; [repeat split|].
    assert (u = uid) by congruence. subst u.
    pose proof (update_entry_scope entryId (Some uid) (date f) (kmNum f)
                  (hoursNum f) (paceNum f) s) as (H1 & H2 & _ & H4).
    split; [exact (H4 uid eq_refl)|]. split; assumption. }
  assert (Hd : others (entries deleted) = others (entries s)
               /\ incl (entries deleted) (entries s)).
  { destruct (delete_entry_store fault' fk ss id s)
      as [H | (u & entryId & Hu & _ & H)];
      unfold deleted; rewrite H; [split; [reflexivity | apply incl_refl]|].
    assert (u = uid) by congruence. subst u.
    pose proof (delete_entries_scope fk entryId (Some uid) s) as (H1 & _ & H3).
    split; [exact (H3 uid eq_refl) | exact H1]. }
  tauto.
Qed.

Lemma other_users_entries_are_safe_witness :
  let s := snd (run no_fault (post_entry Sample.asA (five_km "2024-06-10") (Some shot))
                    Sample.s0) in
  filter (fun e => negb (e_user_id e =? 3))
         (entries (snd (Admin.serve (fun _ => false)
                          (Admin.delete_entry true Sample.asB "1") s)))
  = filter (fun e => negb (e_user_id e =? 3)) (entries s).
Proof.
  exact (proj1 (proj2 (proj2 (proj2
           (other_users_entries_are_safe no_fault (fun _ => false) true
              Sample.asB 3 "1" (five_km "2024-06-10")
              (snd (run no_fault (post_entry Sample.asA (five_km "2024-06-10") (Some shot))
                        Sample.s0))
              eq_refl))))).
Defined.

(** X11: an edit or a deletion, by the owner or by an administrator,
    changes no entry whose id is not the one in the path; this holds
    whichever store calls fail. *)
Theorem edits_touch_one_id (fault : site -> bool) (fault' : Admin.call -> bool)
    (fk : bool) (ss : session) (id : string) (entryId : Z) (f : fields)
    (s : store) (s' : store) :
  param_id id = Some entryId ->
  In s' [snd (run fault (put_entry ss id f) s);
         snd (run fault (admin_put_entry ss id f) s);
         snd (Admin.serve fault' (Admin.delete_entry fk ss id) s);
         snd (Admin.serve fault' (Admin.admin_delete_entry fk ss id) s)] ->
  filter (fun e => negb (e_id e =? entryId)) (entries s')
  = filter (fun e => negb (e_id e =? entryId)) (entries s).
Proof.
  intros Hid Hin. cbn [In] in Hin.
  destruct Hin as [<- | [<- | [<- | [<- | []]]]].
  - destruct (put_entry_store fault ss id f s) as [H | (u & i & _ & Hi & H)];
      rewrite H; [reflexivity|].
    assert (i = entryId) by congruence. subst i.
    exact (proj1 (proj2 (proj2 (update_entry_scope entryId (Some u) (date f)
                                  (kmNum f) (hoursNum f) (paceNum f) s)))).
  - destruct (admin_put_entry_store fault ss id f s) as [H | (i & Hi & H)];
      rewrite H; [reflexivity|].
    assert (i = entryId) by congruence. subst i.
    exact (proj1 (proj2 (proj2 (update_entry_scope entryId None (date f)
                                  (kmNum f) (hoursNum f) (paceNum f) s)))).
  - destruct (delete_entry_store fault' fk ss id s) as [H | (u & i & _ & Hi & H)];
      rewrite H; [reflexivity|].
    assert (i = entryId) by congruence. subst i.
    exact (proj1 (proj2 (delete_entries_scope fk entryId (Some u) s))).
  - destruct (admin_delete_entry_store fault' fk ss id s) as [H | (i & Hi & H)];
      rewrite H; [reflexivity|].
    assert (i = entryId) by congruence. subst i.
    exact (proj1 (proj2 (delete_entries_scope fk entryId None s))).
Qed.

Lemma edits_touch_one_id_witness :
  let s := snd (run no_fault (post_entry Sample.asA (five_km "2024-06-10") (Some shot))
                    Sample.s0) in
  filter (fun e => negb (e_id e =? 2))
         (entries (snd (run no_fault
                          (admin_put_entry Sample.asAdmin "2" (five_km "2024-06-11"))
                          s)))
  = filter (fun e => negb (e_id e =? 2)) (entries s).
Proof.
  apply (edits_touch_one_id no_fault (fun _ => false) true Sample.asAdmin "2" 2
           (five_km "2024-06-11")).
  - reflexivity.
  - right. left. reflexivity.
Defined.

(** X12: a signed-in user who names an entry that is not their own (or
    no entry at all) changes nothing: PUT answers 404 "Entry not found
    or not authorized" and DELETE answers 404 "Entry not found", and the
    store is the same after as before; with a failing store call the
    store is still the same. *)
Theorem foreign_entry_is_not_found (fault : site -> bool)
    (fault' : Admin.call -> bool) (fk : bool) (ss : session)
    (uid entryId : Z) (id : string) (f : fields) (s : store) :
  session_user ss = Some uid ->
  param_id id = Some entryId ->
  (forall e, In e (entries s) -> e_id e = entryId -> e_user_id e <> uid) ->
  run no_fault (put_entry ss id f) s
  = (fail 404 "Entry not found or not authorized", s)
  /\ Admin.serve (fun _ => false) (Admin.delete_entry fk ss id) s
     = (Admin.refuse 404 "Entry not found", s)
  /\ snd (run fault (put_entry ss id f) s) = s
  /\ snd (Admin.serve fault' (Admin.delete_entry fk ss id) s) = s.
Proof.
  intros Hss Hid Hown.
  assert (Hmiss : forall e, In e (entries s) ->
                    (e_id e =? entryId) && (e_user_id e =? uid) = false).
  { intros e He. destruct (e_id e =? entryId) eqn:E1; [|reflexivity].
    apply Z.eqb_eq in E1. cbn [andb]. apply Z.eqb_neq. exact (Hown e He E1). }
  assert (Hsel : select_entry entryId (Some uid) s = None).
  { unfold select_entry, first_row. apply find_some_filter.
    apply filter_none. exact Hmiss. }
  assert (Hdel : Admin.delete_entries fk entryId (Some uid) s
                 = (Ok (mkRun 0 0), s)).
  { unfold Admin.delete_entries.
    rewrite (filter_none _ (entries s) Hmiss).
    rewrite (filter_all _ (entries s))
      by (intros e He; rewrite (Hmiss e He); reflexivity).
    cbn [List.length Z.of_nat existsb negb].
    assert (Hup : (if fk
                   then filter (fun u : upload =>
                                  match up_entry_id u with
                                  | Some _ => true
                                  | None => true
                                  end) (uploads s)
                   else uploads s) = uploads s).
    { destruct fk; [|reflexivity]. apply filter_all.
      intros u _. destruct (up_entry_id u); reflexivity. }
    rewrite Hup, store_eta. reflexivity. }
  assert (Hput : forall ft, snd (run ft (put_entry ss id f) s) = s).
  { intros ft. unfold put_entry, requireAuth. rewrite Hss, Hid, run_db_get, Hsel.
    destruct (ft Put_select); reflexivity. }
  assert (Hdl : forall ft, snd (Admin.serve ft (Admin.delete_entry fk ss id) s) = s).
  { intros ft. unfold Admin.delete_entry, Admin.authed.
    rewrite Hss, Hid, serve_ask, Hdel. destruct (ft Admin.Entry_delete); reflexivity. }
  split; [|split; [|split; [apply Hput | apply Hdl]]].
  - unfold put_entry, requireAuth. rewrite Hss, Hid, run_db_get, Hsel. reflexivity.
  - unfold Admin.delete_entry, Admin.authed.
    rewrite Hss, Hid, serve_ask, Hdel. reflexivity.
Qed.

Lemma foreign_entry_is_not_found_witness :
  let s := snd (run no_fault (post_entry Sample.asA (five_km "2024-06-10") (Some shot))
                    Sample.s0) in
  run no_fault (put_entry Sample.asB "1" (five_km "2024-06-11")) s
  = (fail 404 "Entry not found or not authorized", s).
Proof.
  refine (proj1 (foreign_entry_is_not_found no_fault (fun _ => false) true
                   Sample.asB 3 1 "1" (five_km "2024-06-11")
                   (snd (run no_fault
                           (post_entry Sample.asA (five_km "2024-06-10") (Some shot))
                           Sample.s0))
                   eq_refl eq_refl _)).
  intros e He Hi.
  assert (Hs : map e_user_id
                  (entries (snd (run no_fault
                                   (post_entry Sample.asA (five_km "2024-06-10") (Some shot))
                                   Sample.s0)))
               = [2]) by reflexivity.
  apply (in_map e_user_id) in He. rewrite Hs in He.
  destruct He as [<- | []]. lia.
Defined.

(* ================================================================== *)
(** ** Further properties: what the two listings of entries show *)

Section EntryRows.
Variable P : entry -> bool.
Variable uid : Z.
Variable s : store.

(** The join of both listings, before it is ordered. *)
Let joined : list entry_row :=
  flat_map (fun e =>
     if (e_user_id e =? uid) && P e then
       match filter (fun u => match up_entry_id u with
                              | Some i => i =? e_id e
                              | None => false
                              end) (uploads s) with
       | [] => [mkEntryRow e None]
       | us => map (fun u => mkEntryRow e (Some u)) us
       end
     else []) (entries s).

Lemma joined_row_inv (row : entry_row) :
  In row joined ->
  In (er_entry row) (entries s)
  /\ e_user_id (er_entry row) = uid
  /\ P (er_entry row) = true
  /\ match er_upload row with
     | Some u => In u (uploads s) /\ up_entry_id u = Some (e_id (er_entry row))
     | None => forall u, In u (uploads s) ->
                         up_entry_id u <> Some (e_id (er_entry row))
     end.
Proof.
  unfold joined. intros H. apply in_flat_map in H. destruct H as (e & He & H).
  destruct ((e_user_id e =? uid) && P e) eqn:E; [|destruct H].
  apply andb_true_iff in E. destruct E as [E1 E2]. apply Z.eqb_eq in E1.
  destruct (filter _ (uploads s)) as [|u0 us] eqn:F.
  - destruct H as [<- | []]. cbn [er_entry er_upload].
    repeat (split; [assumption|]).
    intros u Hu Hup.
    assert (Hin : In u (filter (fun u => match up_entry_id u with
                                          | Some i => i =? e_id e
                                          | None => false
                                          end) (uploads s))).
    { apply filter_In. split; [exact Hu|]. rewrite Hup. apply Z.eqb_refl. }
    rewrite F in Hin. destruct Hin.
  - apply in_map_iff in H. destruct H as (u & <- & Hu).
    cbn [er_entry er_upload]. repeat (split; [assumption|]).
    rewrite <- F in Hu. apply filter_In in Hu. destruct Hu as [Hu Hm].
    split; [exact Hu|]. destruct (up_entry_id u) as [i|]; [|discriminate].
    apply Z.eqb_eq in Hm. congruence.
Qed.

Lemma joined_row_has (e : entry) :
  In e (entries s) -> e_user_id e = uid -> P e = true ->
  exists row, In row joined /\ er_entry row = e.
Proof.
  intros He Hu HP. unfold joined.
  destruct (filter (fun u => match up_entry_id u with
                             | Some i => i =? e_id e
                             | None => false
                             end) (uploads s)) as [|u0 us] eqn:F.
  - exists (mkEntryRow e None). split; [|reflexivity].
    apply in_flat_map. exists e. split; [exact He|].
    rewrite Hu, Z.eqb_refl, HP, F. left. reflexivity.
  - exists (mkEntryRow e (Some u0)). split; [|reflexivity].
    apply in_flat_map. exists e. split; [exact He|].
    rewrite Hu, Z.eqb_refl, HP, F. left. reflexivity.
Qed.
End EntryRows.

Lemma date_desc_sorted (l : list entry_row) :
  StronglySorted (fun a b => String.leb (e_entry_date (er_entry b))
                                        (e_entry_date (er_entry a)) = true)
    (order_by (fun a b => String.leb (e_entry_date (er_entry b))
                                     (e_entry_date (er_entry a))) l).
Proof.
  apply (order_by_sorted
           (fun a b : entry_row => String.leb (e_entry_date (er_entry b))
                                              (e_entry_date (er_entry a)))).
  - intros x y. destruct (String.leb_total (e_entry_date (er_entry x))
                                           (e_entry_date (er_entry y)));
      [right | left]; assumption.
  - intros x y z Hxy Hyz. exact (leb_trans _ _ _ Hyz Hxy).
Qed.



(** Every way GET /api/events/:id/entries can end. *)
Lemma event_entries_outcome (fault : Admin.call -> bool) (uid eventId : Z)
    (ss : session) (id : string) (s : store) :
  session_user ss = Some uid ->
  param_id id = Some eventId ->
  Admin.serve fault (Admin.event_entries ss id) s
  = if fault Admin.Entries_event then (Admin.refuse 500 "Database error", s)
    else match select_event eventId s with
         | None => (Admin.refuse 404 "Event not found", s)
         | Some ev =>
             if fault Admin.Entries_participant
             then (Admin.refuse 500 "Database error", s)
             else match select_participant eventId uid s with
                  | None => (Admin.refuse 403
                               "You are not a participant in this event", s)
                  | Some _ =>
                      if fault Admin.Entries_rows
                      then (Admin.refuse 500 "Failed to fetch entries", s)
                      else (Admin.accept
                              (Admin.AEntries
                                 (Admin.event_entries_select uid
                                    (ev_start_date ev) (ev_end_date ev) s) ev),
                            s)
                  end
         end.
Proof.
  intros Hss Hid. unfold Admin.event_entries, Admin.authed.
  rewrite Hss, Hid, serve_ask_get.
  destruct (fault Admin.Entries_event); [reflexivity|].
  destruct (select_event eventId s) as [ev|]; [|reflexivity].
  rewrite serve_ask_get.
  destruct (fault Admin.Entries_participant); [reflexivity|].
  destruct (select_participant eventId uid s); [|reflexivity].
  rewrite serve_ask_all.
  destruct (fault Admin.Entries_rows); reflexivity.
Qed.



(* ================================================================== *)
(** ** Further properties: the ten best of a month *)

Lemma Qc_leb_le (a b : Qc) : JS.Qc_leb a b = true <-> (a <= b)%Qc.
Proof.
  unfold JS.Qc_leb. rewrite Qcle_alt.
  destruct (a ?= b)%Qc; split; congruence.
Qed.

Lemma distinct_nodup (l : list Z) : NoDup (distinct Z.eqb l).
Proof.
  induction l as [|x l IH]; cbn [distinct]; constructor.
  - intros H. apply filter_In in H. destruct H as [_ H].
    rewrite Z.eqb_refl in H. discriminate.
  - apply NoDup_filter, IH.
Qed.

Lemma sorted_app {A : Type} (R : A -> A -> Prop) (l1 l2 : list A) :
  StronglySorted R (l1 ++ l2) ->
  StronglySorted R l1 /\ forall a b, In a l1 -> In b l2 -> R a b.
Proof.
  induction l1 as [|x l1 IH]; cbn [app]; intros H.
  - split; [constructor | intros a b []].
  - apply StronglySorted_inv in H. destruct H as [H Hx].
    destruct (IH H) as [IH1 IH2]. rewrite Forall_forall in Hx. split.
    + constructor; [exact IH1|]. apply Forall_forall. intros y Hy.
      apply Hx, in_or_app. left. exact Hy.
    + intros a b [<- | Ha] Hb; [apply Hx, in_or_app; right; exact Hb|].
      apply IH2; assumption.
Qed.

(** The rows of one group of the monthly sum: the entries of its user
    in the window, when user ids are unique. *)
Lemma month_group_km (start stop : string) (s : store) (u : user) :
  NoDup (map u_id (users s)) -> In u (users s) ->
  map (fun r => e_km_run (fst r))
      (filter (fun r => u_id u =? e_user_id (fst r)) (month_join start stop s))
  = map e_km_run
        (filter (fun e => (e_user_id e =? u_id u) && in_month start stop e)
                (entries s)).
Proof.
  intros Hnd Hu. unfold month_join.
  induction (entries s) as [|e l IH]; [reflexivity|].
  cbn [flat_map filter]. rewrite filter_app, map_app, IH.
  destruct (in_month start stop e); [|rewrite andb_false_r; reflexivity].
  rewrite andb_true_r. destruct (e_user_id e =? u_id u) eqn:E.
  - apply Z.eqb_eq in E. rewrite E.
    rewrite (filter_unique_key u_id (users s) u Hnd Hu).
    cbn [map filter fst]. rewrite E, Z.eqb_refl. reflexivity.
  - rewrite (filter_none _ (map (fun u0 => (e, u0)) _)); [reflexivity|].
    intros r Hr. apply in_map_iff in Hr. destruct Hr as (u0 & <- & _).
    cbn [fst]. rewrite Z.eqb_sym. exact E.
Qed.

(** Each row of the monthly sum comes from a group that has a first
    row. *)
Lemma top10_groups_inv (start stop : string) (s : store) (t : top10_row) :
  In t (top10_groups start stop s) ->
  exists e u,
    In (e, u) (month_join start stop s)
    /\ t = mkTop (u_id u) (u_email u)
                 (round2 (sum_Qc (map (fun r => e_km_run (fst r))
                                      (filter (fun r => u_id u =? e_user_id (fst r))
                                              (month_join start stop s))))).
Proof.
  unfold top10_groups, group_by. intros H.
  apply in_flat_map in H. destruct H as (g & Hg & H).
  apply in_map_iff in Hg. destruct Hg as (k & <- & _). cbn [snd] in H.
  destruct (filter _ (month_join start stop s)) as [|[e u] rest] eqn:F;
    [destruct H|].
  destruct H as [<- | []].
  assert (Hin : In (e, u) (filter (fun r => k =? e_user_id (fst r))
                                  (month_join start stop s)))
    by (rewrite F; left; reflexivity).
  apply filter_In in Hin. destruct Hin as [Hin Hk].
  cbn [fst] in Hk. apply Z.eqb_eq in Hk.
  pose proof (proj1 (month_join_in start stop s e u) Hin) as (_ & _ & Hid & _).
  exists e, u. split; [exact Hin|].
  assert (Hku : k = u_id u) by congruence. rewrite <- Hku, F. reflexivity.
Qed.

Lemma top10_groups_ids (start stop : string) (s : store) :
  map t_user_id (top10_groups start stop s)
  = distinct Z.eqb (map (fun r => e_user_id (fst r)) (month_join start stop s)).
Proof.
  unfold top10_groups, group_by.
  assert (H : forall ks,
            (forall k, In k ks ->
               In k (map (fun r => e_user_id (fst r)) (month_join start stop s))) ->
            map t_user_id
              (flat_map (fun g : Z * list (entry * user) =>
                 match snd g with
                 | [] => []
                 | (_, u) :: _ =>
                     [mkTop (u_id u) (u_email u)
                            (round2 (sum_Qc (map (fun r => e_km_run (fst r)) (snd g))))]
                 end)
                 (map (fun k => (k, filter (fun r => k =? e_user_id (fst r))
                                           (month_join start stop s))) ks))
            = ks).
  { induction ks as [|k ks IH]; intros Hks; [reflexivity|].
    cbn [map flat_map snd]. rewrite map_app.
    rewrite IH by (intros k' Hk'; apply Hks; right; exact Hk'). clear IH.
    specialize (Hks k (or_introl eq_refl)).
    apply in_map_iff in Hks. destruct Hks as (r & Hr & Hin).
    destruct (filter _ (month_join start stop s)) as [|[e u] rest] eqn:F.
    - assert (Hf : In r (filter (fun r => k =? e_user_id (fst r))
                                (month_join start stop s)))
        by (apply filter_In; split; [exact Hin | rewrite Hr; apply Z.eqb_refl]).
      rewrite F in Hf. destruct Hf.
    - assert (Hf : In (e, u) (filter (fun r => k =? e_user_id (fst r))
                                     (month_join start stop s)))
        by (rewrite F; left; reflexivity).
      apply filter_In in Hf. destruct Hf as [Hf Hk].
      cbn [fst] in Hk. apply Z.eqb_eq in Hk.
      pose proof (proj1 (month_join_in start stop s e u) Hf) as (_ & _ & Hid & _).
      cbn [map app t_user_id]. f_equal. congruence. }
  apply H. intros k Hk. apply (distinct_in Z.eqb _ _ Hk).
Qed.


(* ================================================================== *)
(** ** Further properties: requests in flight together keep the schema *)

Lemma consistent_frame (s s' : store) :
  users s' = users s -> event_participants s' = event_participants s ->
  consistent s -> consistent s'.
Proof.
  intros Hu Hp [H1 H2 H3 H4]. constructor; rewrite ?Hu, ?Hp; assumption.
Qed.

Lemma nodup_snoc_fresh {A : Type} (id : A -> Z) (seq : Z) (rows : list A)
    (x : A) :
  id x = next_id id seq rows ->
  NoDup (map id rows) -> NoDup (map id (rows ++ [x])).
Proof.
  intros Hx Hnd. rewrite map_app. cbn [map].
  apply NoDup_app; [exact Hnd | repeat constructor; intros [] |].
  intros i Hi [<- | []]. rewrite Hx in Hi. exact (next_id_fresh id seq rows Hi).
Qed.

Lemma nodup_map_filter {A : Type} (id : A -> Z) (p : A -> bool) (l : list A) :
  NoDup (map id l) -> NoDup (map id (filter p l)).
Proof.
  induction l as [|x l IH]; cbn [map filter]; intros H; [constructor|].
  apply NoDup_cons_iff in H. destruct H as [Hx H].
  destruct (p x); [|apply IH, H].
  cbn [map]. constructor; [|apply IH, H].
  intros Hin. apply Hx. apply in_map_iff in Hin. destruct Hin as (y & Hy & Hin).
  apply in_map_iff. exists y. split; [exact Hy|].
  apply filter_In in Hin. exact (proj1 Hin).
Qed.

Section Schema.
Variable U : list user.

(** The schema, with the table of users that no route below writes. *)
Let schema (s : store) : Prop := users s = U /\ consistent s /\ keys_unique s.

Lemma insert_entry_schema (uid : Z) (d : string) (k h : Qc) (p : option Qc)
    (s : store) :
  schema s -> schema (snd (insert_entry uid d k h p s)).
Proof.
  intros (Hu & Hc & He & Hup & Hep). unfold insert_entry. cbn [snd].
  split; [exact Hu|]. split.
  - apply (consistent_frame s); [reflexivity | reflexivity | exact Hc].
  - split; [|split; assumption]. cbn [entries].
    apply (nodup_snoc_fresh e_id (seq_entries s)); [reflexivity | exact He].
Qed.

Lemma insert_upload_schema (uid entryId : Z) (f : file) (s : store) :
  schema s -> schema (snd (insert_upload uid entryId f s)).
Proof.
  intros (Hu & Hc & He & Hup & Hep). unfold insert_upload. cbn [snd].
  split; [exact Hu|]. split.
  - apply (consistent_frame s); [reflexivity | reflexivity | exact Hc].
  - split; [exact He|]. split; [|exact Hep]. cbn [uploads].
    apply (nodup_snoc_fresh up_id (seq_uploads s)); [reflexivity | exact Hup].
Qed.

Lemma update_entry_schema (entryId : Z) (owner : option Z) (d : option string)
    (k h : Qc) (p : option Qc) (s : store) :
  schema s -> schema (snd (update_entry entryId owner d k h p s)).
Proof.
  intros (Hu & Hc & He & Hup & Hep).
  pose proof (update_entry_scope entryId owner d k h p s) as (Hid & _).
  cbv zeta in Hid.
  assert (Hf : users (snd (update_entry entryId owner d k h p s)) = users s
               /\ event_participants (snd (update_entry entryId owner d k h p s))
                  = event_participants s
               /\ uploads (snd (update_entry entryId owner d k h p s))
                  = uploads s).
  { unfold update_entry. destruct d; [|destruct (existsb _ _)]; repeat split. }
  destruct Hf as (F1 & F2 & F3).
  split; [congruence|]. split.
  - apply (consistent_frame s); assumption.
  - split; [rewrite Hid; exact He|]. split; [rewrite F3 | rewrite F2]; assumption.
Qed.

Lemma insert_closed_schema (now eventId : Z) (d : string) (uid : Z)
    (s : store) :
  schema s -> schema (snd (insert_closed now eventId d uid s)).
Proof.
  intros H. unfold insert_closed. destruct (select_closed eventId d s);
    [exact H|].
  destruct H as (Hu & Hc & He & Hup & Hep). cbn [snd].
  split; [exact Hu|]. split.
  - apply (consistent_frame s); [reflexivity | reflexivity | exact Hc].
  - exact (conj He (conj Hup Hep)).
Qed.

Lemma delete_closed_schema (eventId : Z) (d : string) (s : store) :
  schema s -> schema (snd (delete_closed eventId d s)).
Proof.
  intros (Hu & Hc & He & Hup & Hep). unfold delete_closed. cbn [snd].
  split; [exact Hu|]. split.
  - apply (consistent_frame s); [reflexivity | reflexivity | exact Hc].
  - exact (conj He (conj Hup Hep)).
Qed.

Lemma insert_participant_schema (now eventId uid : Z) (s : store) (u : user) :
  In u U -> u_id u = uid ->
  schema s -> schema (snd (insert_participant now eventId uid s)).
Proof.
  intros Hin Hid (Hu & Hc & He & Hup & Hep).
  destruct (select_participant eventId uid s) eqn:Hp.
  - unfold insert_participant. rewrite Hp.
    exact (conj Hu (conj Hc (conj He (conj Hup Hep)))).
  - assert (Hsel : exists v, select_user uid s = Some v).
    { unfold select_user, first_row.
      destruct (find (fun u0 => u_id u0 =? uid) (users s)) as [v|] eqn:F;
        [exists v; reflexivity|].
      rewrite Hu in F. pose proof (find_none _ _ F u Hin) as Hn.
      cbn beta in Hn. rewrite Hid, Z.eqb_refl in Hn. discriminate. }
    destruct Hsel as (v & Hv).
    pose proof (insert_participant_consistent now eventId uid s v Hc Hp Hv) as Hc'.
    unfold insert_participant in *. rewrite Hp in *. cbn [snd] in *.
    split; [exact Hu|]. split; [exact Hc'|].
    split; [exact He|]. split; [exact Hup|]. cbn [event_participants].
    apply (nodup_snoc_fresh ep_id (seq_event_participants s));
      [reflexivity | exact Hep].
Qed.

Ltac walk :=
  repeat first
    [ apply keeps_respond
    | apply keeps_call;
        [ intros ? ?;
          first [ assumption
                | apply insert_entry_schema; assumption
                | apply insert_upload_schema; assumption
                | apply update_entry_schema; assumption
                | apply insert_closed_schema; assumption
                | apply delete_closed_schema; assumption ]
        | intros ? _ ]
    | match goal with
      | |- keeps _ (match ?x with _ => _ end) => destruct x
      end ].

Lemma events_views_keeps (uid : Z) (evs : list event_row) :
  forall k, (forall vs, keeps schema (k vs)) ->
            keeps schema (events_views uid evs k).
Proof.
  induction evs as [|ev evs IH]; intros k Hk; cbn [events_views]; [apply Hk|].
  destruct (negb (er_has_joined ev)).
  - apply IH. intros vs. apply Hk.
  - unfold db_all. apply keeps_call; [intros ? ?; assumption|].
    intros r _. apply IH. intros vs. apply Hk.
Qed.

Lemma route_keeps (t : task) : route t -> keeps schema t.
Proof.
  intros [now ss id | ss id | now ss | ss f fl | ss id f fl | now ss id bdate
          | ss id bdate | ss id f | ss id f | localNow ss month
          | localNow ss month].
  - unfold join, requireAuth, db_get, db_run.
    destruct (session_user ss) as [uid|]; [|walk].
    destruct (param_id id) as [eventId|]; [|walk].
    apply keeps_call; [intros ? ?; assumption|]. intros r _.
    destruct r as [[ev|]|]; [|walk..].
    cbv zeta. destruct (JS.Date_lt _ _); [walk|].
    destruct (JS.Date_gt _ _); [walk|].
    apply keeps_call; [intros ? ?; assumption|]. intros r _.
    destruct r as [[p|]|]; [walk| |walk].
    apply keeps_call; [intros ? ?; assumption|]. intros r Hr.
    destruct r as [[u|]|]; [|walk..].
    destruct (_ && _); [walk|].
    destruct Hr as [Hr | (s1 & (Hu1 & _) & Hr)]; [discriminate|].
    cbn [fst] in Hr. injection Hr as Hr. symmetry in Hr.
    unfold select_user, first_row in Hr. apply find_some in Hr.
    destruct Hr as [Hin Hid]. apply Z.eqb_eq in Hid. rewrite Hu1 in Hin.
    apply keeps_call; [|intros r _; walk].
    intros s Hs. exact (insert_participant_schema now eventId uid s u Hin Hid Hs).
  - unfold ranking, requireAuth, db_get, db_all. walk.
  - unfold list_events, requireAuth, db_all.
    destruct (session_user ss) as [uid|]; [|walk].
    apply keeps_call; [intros ? ?; assumption|]. intros r _.
    destruct r as [evs|]; [|walk].
    apply events_views_keeps. intros vs. walk.
  - unfold post_entry, requireAuth, save_entry, db_run. walk.
  - unfold event_entry, requireAuth, save_entry, db_run, db_get. walk.
  - unfold close_date, requireAdmin, db_get, db_run. walk.
  - unfold open_date, requireAdmin, db_run. walk.
  - unfold put_entry, requireAuth, db_get, db_run. walk.
  - unfold admin_put_entry, requireAdmin, db_get, db_run. walk.
  - unfold list_entries, requireAuth, db_all. walk.
  - unfold top10, requireAdmin, db_all. walk.
Qed.

Lemma keeps_step (fault : site -> bool) (t : task) (s : store) :
  keeps schema t -> schema s ->
  keeps schema (fst (step fault t s)) /\ schema (snd (step fault t s)).
Proof.
  intros Ht Hs. destruct Ht as [r | A q op k Hop Hk]; cbn [step].
  - split; [constructor | exact Hs].
  - destruct (fault q); cbn [fst snd].
    + split; [apply Hk; left; reflexivity | exact Hs].
    + specialize (Hop s Hs). destruct (op s) as [r s'] eqn:E. cbn [fst snd] in *.
      split; [|exact Hop]. apply Hk. right. exists s. rewrite E. split; [exact Hs|].
      reflexivity.
Qed.

Lemma forall_update_nth {A : Type} (P : A -> Prop) (n : nat) (x : A)
    (l : list A) :
  P x -> Forall P l -> Forall P (update_nth n x l).
Proof.
  intros Hx Hl. revert n. induction Hl as [|y l Hy Hl IH]; intros n.
  - destruct n; constructor.
  - destruct n; cbn [update_nth]; constructor; auto.
Qed.

Lemma keeps_interleave (fault : site -> bool) (sched : list nat) :
  forall pool s,
  Forall (keeps schema) pool -> schema s ->
  schema (snd (interleave fault sched pool s)).
Proof.
  induction sched as [|i rest IH]; intros pool s Hpool Hs; cbn [interleave];
    [exact Hs|].
  destruct (nth_error pool i) as [t|] eqn:E; [|apply IH; assumption].
  assert (Ht : keeps schema t).
  { rewrite Forall_forall in Hpool. apply Hpool. exact (nth_error_In _ _ E). }
  destruct (keeps_step fault t s Ht Hs) as [Ht' Hs'].
  destruct (step fault t s) as [t' s']. cbn [fst snd] in *.
  apply IH; [apply forall_update_nth; assumption | exact Hs'].
Qed.
End Schema.

(** X16: however many requests to the routes of entries, events,
    rankings, listings and closed dates are in flight at once, however
    their store calls take turns and whichever of them fail, the store
    they leave keeps what the schema declares: unique user ids and
    emails, one participant row per user and event with a user behind
    it, and pairwise different ids of entries, of uploads and of
    participant rows; the table of users is the one they met. *)
Theorem requests_keep_the_schema (fault : site -> bool) (sched : list nat)
    (pool : list task) (s : store) :
  Forall route pool ->
  consistent s -> keys_unique s ->
  let s' := snd (interleave fault sched pool s) in
  consistent s' /\ keys_unique s' /\ users s' = users s.
Proof.
  intros Hpool Hc Hk s'.
  pose proof (keeps_interleave (users s) fault sched pool s) as H.
  cbv zeta in H.
  assert (Hp : Forall (keeps (fun s0 => users s0 = users s /\ consistent s0
                                        /\ keys_unique s0)) pool).
  { apply Forall_forall. intros t Ht. apply route_keeps.
    rewrite Forall_forall in Hpool. exact (Hpool t Ht). }
  destruct (H Hp (conj eq_refl (conj Hc Hk))) as (H1 & H2 & H3).
  split; [exact H2|]. split; [exact H3 | exact H1].
Qed.

Lemma requests_keep_the_schema_witness :
  let s' := snd (interleave no_fault [0; 1; 0; 1; 0; 1; 0; 1; 2; 2]%nat
                   [join Sample.mid_june Sample.asA "1";
                    join Sample.mid_june Sample.asA "1";
                    post_entry Sample.asA (five_km "2024-06-10") (Some shot)]
                   Sample.s0) in
  consistent s' /\ keys_unique s' /\ users s' = users Sample.s0.
Proof.
  apply requests_keep_the_schema.
  - repeat constructor.
  - constructor; simpl.
    + repeat constructor; simpl; intuition discriminate.
    + repeat constructor; simpl; intuition discriminate.
    + constructor.
    + intros ep [].
  - repeat split; constructor.
Defined.

(* ================================================================== *)
(** ** Further properties: the events an administrator writes *)

Lemma missing_false (v : option string) :
  missing v = false -> Admin.text_of v <> EmptyString.
Proof.
  destruct v as [t|]; cbn [missing Admin.text_of]; [|discriminate].
  intros H. apply String.eqb_neq. exact H.
Qed.

Lemma one_of (x : string) (l : list string) :
  negb (existsb (String.eqb x) l) = false -> In x l.
Proof.
  intros H. apply negb_false_iff in H. apply existsb_exists in H.
  destruct H as (y & Hy & E). apply String.eqb_eq in E. congruence.
Qed.

Lemma Qc_ltb_false (a b : Qc) : JS.Qc_ltb a b = false -> (b <= a)%Qc.
Proof.
  intros H. apply Qcnot_lt_le. intros L. apply Qc_ltb_lt in L. congruence.
Qed.

(** What a body that passes the checks of the two routes is like. *)
Lemma event_checks_pass (getTime : string -> option Z) (b : Admin.event_body) :
  Admin.event_checks getTime b = None ->
  Admin.text_of (Admin.name b) <> EmptyString
  /\ Admin.text_of (Admin.start_date b) <> EmptyString
  /\ Admin.text_of (Admin.end_date b) <> EmptyString
  /\ In (Admin.text_of (Admin.category b)) ["advanced"; "intermediate"]
  /\ In (Admin.text_of (Admin.gender_restriction b)) ["male"; "female"; "both"]
  /\ (JS.Qc_of_Z 0 <= Admin.kmGoalNum b)%Qc
  /\ Admin.Date_ge (getTime (Admin.text_of (Admin.start_date b)))
                   (getTime (Admin.text_of (Admin.end_date b))) = false.
Proof.
  unfold Admin.event_checks.
  destruct (missing (Admin.name b)) eqn:M1; [discriminate|].
  destruct (missing (Admin.start_date b)) eqn:M2; [discriminate|].
  destruct (missing (Admin.end_date b)) eqn:M3; [discriminate|].
  destruct (missing (Admin.category b)) eqn:M4; [discriminate|].
  destruct (missing (Admin.gender_restriction b)) eqn:M5; [discriminate|].
  cbn [orb].
  destruct (match Admin.km_goal b with
            | JS.JUndefined | JS.JNull => true
            | _ => false
            end); [discriminate|].
  destruct (negb (existsb _ ["advanced"; "intermediate"])) eqn:C; [discriminate|].
  destruct (negb (existsb _ ["male"; "female"; "both"])) eqn:G; [discriminate|].
  destruct (Admin.Date_ge _ _) eqn:D; [discriminate|].
  destruct (JS.Qc_ltb _ _) eqn:K; [discriminate|]. intros _.
  repeat (split; [first [apply missing_false; assumption
                        | apply one_of; assumption
                        | apply Qc_ltb_false; assumption]|]).
  reflexivity.
Qed.

Lemma create_event_any_fault (getTime : string -> option Z) (now rowid : Z)
    (fault : Admin.call -> bool) (ss : session) (b : Admin.event_body)
    (s : store) :
  let out := Admin.serve fault (Admin.create_event getTime now rowid ss b) s in
  (snd out = s /\ Admin.http_status (fst out) <> 200)
  \/ (exists uid,
        session_user ss = Some uid /\ isAdmin ss = true
        /\ Admin.event_checks getTime b = None
        /\ out = (Admin.accept (Admin.AEvent rowid),
                  snd (Admin.insert_event now rowid uid b s))).
Proof.
  unfold Admin.create_event, Admin.as_admin.
  destruct (session_user ss) as [uid|]; [|left; split; [reflexivity | discriminate]].
  destruct (isAdmin ss); [|left; split; [reflexivity | discriminate]].
  destruct (Admin.event_checks getTime b) as [r|] eqn:E.
  - left. split; [reflexivity|]. revert E. unfold Admin.event_checks.
    repeat match goal with
           | |- (if ?c then _ else _) = _ -> _ => destruct c
           end; intros E;
      first [discriminate E | injection E as <-; discriminate].
  - rewrite serve_ask. destruct (fault Admin.Event_insert);
      [left; split; [reflexivity | discriminate]|].
    right. exists uid. repeat (split; [reflexivity|]). reflexivity.
Qed.



Lemma forall_map_if {A : Type} (P : A -> Prop) (hit : A -> bool) (g : A -> A)
    (l : list A) :
  (forall x, P x -> hit x = true -> P (g x)) ->
  Forall P l -> Forall P (map (fun x => if hit x then g x else x) l).
Proof.
  intros Hg Hl. induction Hl as [|x l Hx Hl IH]; cbn [map]; constructor;
    [|exact IH].
  destruct (hit x) eqn:E; [apply Hg; assumption | exact Hx].
Qed.

(** X18: every event keeps the form that the checks ask for.  If all
    events of the store have their texts, a category and a gender
    restriction of the allowed values and a km goal that is not
    negative, they still have after a request to create, to edit or to
    end an event, whatever the body, the session and the store calls
    that fail; an edit changes neither the id, nor the creator, nor
    whether the event is ended. *)
Theorem events_stay_well_formed (getTime : string -> option Z)
    (now rowid : Z) (fault : Admin.call -> bool) (ss : session) (id : string)
    (b : Admin.event_body) (s : store) :
  Forall event_well_formed (events s) ->
  Forall event_well_formed
    (events (snd (Admin.serve fault
                    (Admin.create_event getTime now rowid ss b) s)))
  /\ Forall event_well_formed
       (events (snd (Admin.serve fault (Admin.update_event getTime ss id b) s)))
  /\ Forall event_well_formed
       (events (snd (Admin.serve fault (Admin.end_event ss id) s)))
  /\ map (fun e => (ev_id e, ev_created_by e, ev_is_ended e))
         (events (snd (Admin.serve fault (Admin.update_event getTime ss id b) s)))
     = map (fun e => (ev_id e, ev_created_by e, ev_is_ended e)) (events s).
Proof.
  intros Hs. split; [|split; [|split]].
  - destruct (create_event_any_fault getTime now rowid fault ss b s)
      as [[-> _] | (uid & _ & _ & Hchk & ->)]; [exact Hs|].
    destruct (event_checks_pass getTime b Hchk)
      as (H1 & H2 & H3 & H4 & H5 & H6 & _).
    cbn [snd Admin.insert_event events]. apply Forall_app. split; [exact Hs|].
    constructor; [|constructor]. unfold event_well_formed.
    cbn [ev_name ev_start_date ev_end_date ev_category ev_gender_restriction
         ev_km_goal]. tauto.
  - unfold Admin.update_event, Admin.as_admin.
    destruct (session_user ss) as [uid|]; [|exact Hs].
    destruct (isAdmin ss); [|exact Hs].
    destruct (param_id id) as [eventId|]; [|exact Hs].
    destruct (Admin.event_checks getTime b) as [r|] eqn:E; [exact Hs|].
    rewrite serve_ask. destruct (fault Admin.Event_update); [exact Hs|].
    destruct (event_checks_pass getTime b E) as (H1 & H2 & H3 & H4 & H5 & H6 & _).
    assert (Hw : Forall event_well_formed
                   (events (snd (Admin.update_events eventId b s)))).
    { unfold Admin.update_events. cbn [snd events].
      apply (forall_map_if event_well_formed (fun e => ev_id e =? eventId));
        [|exact Hs].
      intros e _ _. unfold event_well_formed.
      cbn [ev_name ev_start_date ev_end_date ev_category ev_gender_restriction
           ev_km_goal]. tauto. }
    destruct (Admin.update_events eventId b s) as [[info|err] s1]; cbn [fst snd] in *;
      [destruct (changes info =? 0)|]; exact Hw.
  - unfold Admin.end_event, Admin.as_admin.
    destruct (session_user ss) as [uid|]; [|exact Hs].
    destruct (isAdmin ss); [|exact Hs].
    destruct (param_id id) as [eventId|]; [|exact Hs].
    rewrite serve_ask. destruct (fault Admin.Event_end); [exact Hs|].
    assert (Hw : Forall event_well_formed
                   (events (snd (Admin.end_events eventId s)))).
    { unfold Admin.end_events. cbn [snd events].
      apply (forall_map_if event_well_formed (fun e => ev_id e =? eventId));
        [|exact Hs].
      intros e He _. exact He. }
    destruct (Admin.end_events eventId s) as [[info|err] s1]; cbn [fst snd] in *;
      [destruct (changes info =? 0)|]; exact Hw.
  - unfold Admin.update_event, Admin.as_admin.
    destruct (session_user ss) as [uid|]; [|reflexivity].
    destruct (isAdmin ss); [|reflexivity].
    destruct (param_id id) as [eventId|]; [|reflexivity].
    destruct (Admin.event_checks getTime b) as [r|] eqn:E; [reflexivity|].
    rewrite serve_ask. destruct (fault Admin.Event_update); [reflexivity|].
    assert (Hw : map (fun e => (ev_id e, ev_created_by e, ev_is_ended e))
                     (events (snd (Admin.update_events eventId b s)))
                 = map (fun e => (ev_id e, ev_created_by e, ev_is_ended e))
                       (events s)).
    { unfold Admin.update_events. cbn [snd events]. rewrite map_map.
      apply map_ext. intros e. destruct (ev_id e =? eventId); reflexivity. }
    destruct (Admin.update_events eventId b s) as [[info|err] s1]; cbn [fst snd] in *;
      [destruct (changes info =? 0)|]; exact Hw.
Qed.

Lemma events_stay_well_formed_witness :
  Forall event_well_formed
    (events (snd (Admin.serve (fun _ => false)
                    (Admin.update_event JS.Date_parse Sample.asAdmin "1"
                       (Admin.mkEventBody (Some "June run, longer")
                          (Some "2024-06-01") (Some "2024-07-15")
                          (Some "intermediate") (Some "both") (JS.JStr "150")))
                    Sample.s0))).
Proof.
  refine (proj1 (proj2 (events_stay_well_formed JS.Date_parse Sample.mid_june 2
                          (fun _ => false) Sample.asAdmin "1" _ Sample.s0 _))).
  constructor; [|constructor].
  unfold event_well_formed, Sample.june. simpl.
  repeat (split; [first [discriminate | tauto]|]).
  vm_compute. discriminate.
Defined.

Lemma end_events_twice (eventId : Z) (s : store) :
  snd (Admin.end_events eventId (snd (Admin.end_events eventId s)))
  = snd (Admin.end_events eventId s).
Proof.
  unfold Admin.end_events. cbn [snd events users entries uploads
    event_participants event_closed_dates seq_entries seq_uploads
    seq_event_participants seq_event_closed_dates].
  f_equal. rewrite map_map. apply map_ext. intros e.
  destruct (ev_id e =? eventId) eqn:E; cbn [ev_id]; rewrite E; reflexivity.
Qed.

Lemma ended_count (eventId : Z) (s : store) :
  List.length (filter (fun e => ev_id e =? eventId)
                      (events (snd (Admin.end_events eventId s))))
  = List.length (filter (fun e => ev_id e =? eventId) (events s)).
Proof.
  unfold Admin.end_events. cbn [snd events].
  induction (events s) as [|e l IH]; [reflexivity|].
  cbn [map filter]. destruct (ev_id e =? eventId) eqn:E; cbn [ev_id]; rewrite E;
    cbn [List.length]; rewrite IH; reflexivity.
Qed.

Lemma end_event_outcome (fault : Admin.call -> bool) (uid eventId : Z)
    (ss : session) (id : string) (s : store) :
  session_user ss = Some uid -> isAdmin ss = true ->
  param_id id = Some eventId ->
  Admin.serve fault (Admin.end_event ss id) s
  = if fault Admin.Event_end then (Admin.refuse 500 "Failed to end event", s)
    else if Z.of_nat (List.length (filter (fun e => ev_id e =? eventId)
                                          (events s))) =? 0
         then (Admin.refuse 404 "Event not found",
               snd (Admin.end_events eventId s))
         else (Admin.accept Admin.AOk, snd (Admin.end_events eventId s)).
Proof.
  intros Hss Hadm Hid. unfold Admin.end_event, Admin.as_admin.
  rewrite Hss, Hadm, Hid, serve_ask.
  destruct (fault Admin.Event_end); [reflexivity|].
  unfold Admin.end_events at 1. cbn [fst changes].
  destruct (_ =? 0); reflexivity.
Qed.

(** X19: ending an event is idempotent and touches nothing else.  A
    second POST /api/admin/events/:id/end is answered like the first
    (200 for an event that exists, ended or not; 404 for one that does
    not) and leaves the store of the first; the request changes no
    field of any event but is_ended, which it raises for the events of
    that id only and never lowers. *)
Theorem ending_is_idempotent (ss : session) (id : string) (s : store) :
  let first := Admin.serve (fun _ => false) (Admin.end_event ss id) s in
  let second := Admin.serve (fun _ => false) (Admin.end_event ss id) (snd first) in
  second = first
  /\ map (fun e => (ev_id e, ev_name e, ev_start_date e, ev_end_date e,
                    ev_category e, ev_gender_restriction e, ev_km_goal e,
                    ev_created_at e, ev_created_by e))
         (events (snd first))
     = map (fun e => (ev_id e, ev_name e, ev_start_date e, ev_end_date e,
                      ev_category e, ev_gender_restriction e, ev_km_goal e,
                      ev_created_at e, ev_created_by e))
           (events s)
  /\ Forall2 (fun e e' => ev_is_ended e' = ev_is_ended e
                          \/ (ev_is_ended e' = true
                              /\ param_id id = Some (ev_id e)))
             (events s) (events (snd first)).
Proof.
  assert (Hsame : Forall2 (fun e e' => ev_is_ended e' = ev_is_ended e
                                       \/ (ev_is_ended e' = true
                                           /\ param_id id = Some (ev_id e)))
                          (events s) (events s)).
  { induction (events s); constructor; [left; reflexivity | assumption]. }
  destruct (session_user ss) as [uid|] eqn:Hss;
    [|unfold Admin.end_event, Admin.as_admin; rewrite Hss;
      repeat split; exact Hsame].
  destruct (isAdmin ss) eqn:Hadm;
    [|unfold Admin.end_event, Admin.as_admin; rewrite Hss, Hadm;
      repeat split; exact Hsame].
  destruct (param_id id) as [eventId|] eqn:Hid;
    [|unfold Admin.end_event, Admin.as_admin; rewrite Hss, Hadm, Hid;
      repeat split; exact Hsame].
  cbv zeta.
  rewrite (end_event_outcome (fun _ => false) uid eventId ss id s Hss Hadm Hid).
  cbn beta iota.
  split; [|split].
  - rewrite (end_event_outcome (fun _ => false) uid eventId ss id _ Hss Hadm Hid).
    cbn beta iota.
    destruct (Z.of_nat (List.length (filter (fun e => ev_id e =? eventId)
                                            (events s))) =? 0) eqn:E;
      cbn [snd]; rewrite ended_count, E, end_events_twice; reflexivity.
  - assert (Hw : map (fun e => (ev_id e, ev_name e, ev_start_date e, ev_end_date e,
                                ev_category e, ev_gender_restriction e, ev_km_goal e,
                                ev_created_at e, ev_created_by e))
                     (events (snd (Admin.end_events eventId s)))
                 = map (fun e => (ev_id e, ev_name e, ev_start_date e, ev_end_date e,
                                  ev_category e, ev_gender_restriction e,
                                  ev_km_goal e, ev_created_at e, ev_created_by e))
                       (events s)).
    { unfold Admin.end_events. cbn [snd events]. rewrite map_map.
      apply map_ext. intros e. destruct (ev_id e =? eventId); reflexivity. }
    destruct (_ =? 0); exact Hw.
  - assert (Hw : Forall2 (fun e e' => ev_is_ended e' = ev_is_ended e
                                      \/ (ev_is_ended e' = true
                                          /\ Some eventId = Some (ev_id e)))
                         (events s) (events (snd (Admin.end_events eventId s)))).
    { unfold Admin.end_events. cbn [snd events]. clear Hsame.
      induction (events s) as [|e l IH]; cbn [map]; [constructor|].
      constructor; [|exact IH].
      destruct (ev_id e =? eventId) eqn:E; [|left; reflexivity].
      right. apply Z.eqb_eq in E. split; [reflexivity | congruence]. }
    destruct (_ =? 0); exact Hw.
Qed.

(* ================================================================== *)
(** ** Further properties: which users an administrator can delete *)

Lemma delete_user_any_fault (cascade : Z -> store -> store)
    (fault : Admin.call -> bool) (ss : session) (id : string) (s : store) :
  let out := Admin.serve fault (Admin.delete_user cascade ss id) s in
  (snd out = s /\ Admin.http_status (fst out) <> 200)
  \/ (exists uid targetId row,
        session_user ss = Some uid /\ isAdmin ss = true
        /\ param_id id = Some targetId
        /\ targetId <> uid
        /\ select_user targetId s = Some row
        /\ u_email row <> "admin"
        /\ out = (Admin.accept
                    (Admin.ADeleted
                       (Z.of_nat (List.length
                                    (filter (fun u => u_id u =? targetId)
                                            (users s))))),
                  snd (Admin.delete_users cascade targetId s))).
Proof.
  unfold Admin.delete_user, Admin.as_admin.
  destruct (session_user ss) as [uid|]; [|left; split; [reflexivity | discriminate]].
  destruct (isAdmin ss); [|left; split; [reflexivity | discriminate]].
  destruct (param_id id) as [targetId|]; [|left; split; [reflexivity | discriminate]].
  destruct (targetId =? uid) eqn:E; [left; split; [reflexivity | discriminate]|].
  rewrite serve_ask_get.
  destruct (fault Admin.User_lookup); [left; split; [reflexivity | discriminate]|].
  destruct (select_user targetId s) as [row|] eqn:Hrow;
    [|left; split; [reflexivity | discriminate]].
  destruct (String.eqb (u_email row) "admin") eqn:Em;
    [left; split; [reflexivity | discriminate]|].
  rewrite serve_ask.
  destruct (fault Admin.User_delete); [left; split; [reflexivity | discriminate]|].
  right. exists uid, targetId, row.
  apply Z.eqb_neq in E. apply String.eqb_neq in Em.
  repeat (split; [first [assumption | reflexivity]|]). reflexivity.
Qed.

(** X20: DELETE /api/admin/users/:id never deletes the account of the
    caller nor, user ids being unique, an account whose email is
    [admin]; it deletes no user whose id is not the one in the path and
    adds none; and it answers 200 only to an administrator, for a user
    that exists.  This holds whichever store calls fail, the deletion
    being followed in the other tables by whatever the store cascades. *)
Theorem delete_user_protects (cascade : Z -> store -> store)
    (fault : Admin.call -> bool) (ss : session) (id : string) (s : store) :
  (forall i s0, users (cascade i s0) = users s0) ->
  NoDup (map u_id (users s)) ->
  let out := Admin.serve fault (Admin.delete_user cascade ss id) s in
  (forall u, In u (users s) ->
     session_user ss = Some (u_id u) \/ u_email u = "admin"
     \/ param_id id <> Some (u_id u) ->
     In u (users (snd out)))
  /\ incl (users (snd out)) (users s)
  /\ (Admin.http_status (fst out) = 200 ->
      isAdmin ss = true
      /\ exists row, In row (users s) /\ param_id id = Some (u_id row)
                     /\ ~ In row (users (snd out))).
Proof.
  intros Hcas Hnd out.
  pose proof (delete_user_any_fault cascade fault ss id s) as H.
  cbv zeta in H. fold out in H.
  destruct H as [[Hs Hst] | (uid & targetId & row & Hss & Hadm & Hid & Hne & Hrow
                             & Hmail & Hout)].
  - rewrite Hs. split; [intros; assumption|]. split; [apply incl_refl|].
    intros H. contradiction.
  - assert (Husers : users (snd out)
                     = filter (fun u => negb (u_id u =? targetId)) (users s)).
    { rewrite Hout. cbn [snd Admin.delete_users]. rewrite Hcas. reflexivity. }
    unfold select_user, first_row in Hrow. apply find_some in Hrow.
    destruct Hrow as [Hin Hrid]. apply Z.eqb_eq in Hrid.
    split; [|split].
    + intros u Hu Hsafe. rewrite Husers. apply filter_In. split; [exact Hu|].
      apply negb_true_iff, Z.eqb_neq. intros Heq.
      destruct Hsafe as [Hme | [Hadmin | Hother]].
      * rewrite Hss in Hme. injection Hme as Hme. congruence.
      * assert (u = row).
        { apply (NoDup_map_inj u_id (users s)); [assumption..| congruence]. }
        subst u. contradiction.
      * apply Hother. rewrite Hid, Heq. reflexivity.
    + rewrite Husers. intros u Hu. apply filter_In in Hu. exact (proj1 Hu).
    + intros _. split; [exact Hadm|]. exists row.
      split; [exact Hin|]. split; [rewrite Hid, Hrid; reflexivity|].
      rewrite Husers. intros Hf. apply filter_In in Hf. destruct Hf as [_ Hf].
      rewrite Hrid, Z.eqb_refl in Hf. discriminate.
Qed.

Lemma delete_user_protects_witness :
  In Sample.admin
     (users (snd (Admin.serve (fun _ => false)
                    (Admin.delete_user (fun _ s => s) Sample.asAdmin "1")
                    Sample.s0)))
  /\ In Sample.userA
        (users (snd (Admin.serve (fun _ => false)
                       (Admin.delete_user (fun _ s => s) Sample.asAdmin "3")
                       Sample.s0))).
Proof.
  assert (Hnd : NoDup (map u_id (users Sample.s0))).
  { simpl. repeat constructor; simpl; intuition discriminate. }
  split.
  - apply (proj1 (delete_user_protects (fun _ s => s) (fun _ => false)
                    Sample.asAdmin "1" Sample.s0 (fun _ _ => eq_refl) Hnd)).
    + simpl. tauto.
    + left. reflexivity.
  - apply (proj1 (delete_user_protects (fun _ s => s) (fun _ => false)
                    Sample.asAdmin "3" Sample.s0 (fun _ _ => eq_refl) Hnd)).
    + simpl. tauto.
    + right. right. vm_compute. discriminate.
Defined.

(* ================================================================== *)
(** ** Further properties: the file name sent back in a header *)

Lemma strip_quotes_clean (s : string) :
  ~ In Admin.quote (list_ascii_of_string (Admin.strip_quotes s)).
Proof.
  induction s as [|c s IH]; cbn [Admin.strip_quotes]; [intros []|].
  destruct (Ascii.eqb c Admin.quote) eqn:E; [exact IH|].
  cbn [list_ascii_of_string]. intros [H | H]; [|exact (IH H)].
  apply Ascii.eqb_neq in E. congruence.
Qed.

Lemma strip_quotes_fixed (s : string) :
  ~ In Admin.quote (list_ascii_of_string s) -> Admin.strip_quotes s = s.
Proof.
  induction s as [|c s IH]; cbn [Admin.strip_quotes list_ascii_of_string];
    [reflexivity|].
  intros H. destruct (Ascii.eqb c Admin.quote) eqn:E.
  - apply Ascii.eqb_eq in E. destruct H. left. congruence.
  - rewrite IH; [reflexivity|]. intros Hin. apply H. right. exact Hin.
Qed.

(** X21: the file name that the download routes put in the
    Content-Disposition header holds no double quote, whatever name
    the file was uploaded under: the header is [inline; filename=]
    followed by one quote, the name without its quotes and one closing
    quote, so that the name cannot end the quoted string early.  A name
    without quotes is sent as it is, and the other characters of a name
    keep their order. *)
Theorem header_name_has_no_quote (originalname : string) :
  let sent := Admin.strip_quotes originalname in
  Admin.content_disposition originalname
  = ("inline; filename=" ++ String Admin.quote sent
       ++ String Admin.quote EmptyString)%string
  /\ ~ In Admin.quote (list_ascii_of_string sent)
  /\ list_ascii_of_string sent
     = filter (fun c => negb (Ascii.eqb c Admin.quote))
              (list_ascii_of_string originalname)
  /\ (~ In Admin.quote (list_ascii_of_string originalname) ->
      sent = originalname)
  /\ Admin.strip_quotes sent = sent.
Proof.
  intros sent. split; [reflexivity|].
  split; [apply strip_quotes_clean|]. split; [|split].
  - unfold sent. induction originalname as [|c s IH];
      cbn [Admin.strip_quotes list_ascii_of_string filter]; [reflexivity|].
    destruct (Ascii.eqb c Admin.quote); cbn [negb list_ascii_of_string];
      rewrite IH; reflexivity.
  - apply strip_quotes_fixed.
  - apply strip_quotes_fixed, strip_quotes_clean.
Qed.

(* ================================================================== *)
(** ** Further properties: the events a user is shown, and their totals *)

Lemma events_select_inv (uid : Z) (today : string) (s : store)
    (row : event_row) :
  In row (events_select uid today s) ->
  In (er_event row) (events s)
  /\ String.leb today (ev_end_date (er_event row)) = true
  /\ (exists u, In u (users s) /\ u_id u = ev_created_by (er_event row)
                /\ er_created_by_email row = u_email u)
  /\ (er_has_joined row = true <->
      exists ep, In ep (event_participants s)
                 /\ ep_event_id ep = ev_id (er_event row)
                 /\ ep_user_id ep = uid).
Proof.
  unfold events_select. intros H. apply order_by_in in H.
  apply in_flat_map in H. destruct H as (e & He & H).
  destruct (String.leb today (ev_end_date e)) eqn:Hend; [|destruct H].
  apply in_flat_map in H. destruct H as (u & Hu & H).
  destruct (u_id u =? ev_created_by e) eqn:Hc; [|destruct H].
  apply Z.eqb_eq in Hc.
  destruct (filter (fun ep => (ep_event_id ep =? ev_id e) && (ep_user_id ep =? uid))
                   (event_participants s)) as [|ep0 eps] eqn:F.
  - destruct H as [<- | []]. cbn [er_event er_created_by_email er_has_joined].
    split; [exact He|]. split; [exact Hend|].
    split; [exists u; repeat split; assumption|].
    split; [discriminate|]. intros (ep & Hep & H1 & H2).
    assert (Hin : In ep (filter (fun ep => (ep_event_id ep =? ev_id e)
                                           && (ep_user_id ep =? uid))
                                (event_participants s))).
    { apply filter_In. split; [exact Hep|]. rewrite H1, H2, !Z.eqb_refl. reflexivity. }
    rewrite F in Hin. destruct Hin.
  - apply in_map_iff in H. destruct H as (ep & <- & Hep).
    cbn [er_event er_created_by_email er_has_joined].
    split; [exact He|]. split; [exact Hend|].
    split; [exists u; repeat split; assumption|].
    split; [|reflexivity]. intros _.
    assert (Hin : In ep0 (filter (fun ep => (ep_event_id ep =? ev_id e)
                                            && (ep_user_id ep =? uid))
                                 (event_participants s)))
      by (rewrite F; left; reflexivity).
    apply filter_In in Hin. destruct Hin as [Hin Hm].
    apply andb_true_iff in Hm. destruct Hm as [H1 H2].
    apply Z.eqb_eq in H1, H2. exists ep0. repeat split; assumption.
Qed.

Lemma events_select_has (uid : Z) (today : string) (s : store) (e : event)
    (u : user) :
  In e (events s) -> String.leb today (ev_end_date e) = true ->
  In u (users s) -> u_id u = ev_created_by e ->
  exists row, In row (events_select uid today s) /\ er_event row = e.
Proof.
  intros He Hend Hu Hc. unfold events_select.
  destruct (filter (fun ep => (ep_event_id ep =? ev_id e) && (ep_user_id ep =? uid))
                   (event_participants s)) as [|ep0 eps] eqn:F.
  - exists (mkEventRow e (u_email u) false). split; [|reflexivity].
    apply order_by_in, in_flat_map. exists e. split; [exact He|].
    rewrite Hend. apply in_flat_map. exists u. split; [exact Hu|].
    rewrite Hc, Z.eqb_refl, F. left. reflexivity.
  - exists (mkEventRow e (u_email u) true). split; [|reflexivity].
    apply order_by_in, in_flat_map. exists e. split; [exact He|].
    rewrite Hend. apply in_flat_map. exists u. split; [exact Hu|].
    rewrite Hc, Z.eqb_refl, F. left. reflexivity.
Qed.



Lemma find_unique_key {A : Type} (id : A -> Z) (l : list A) (x : A) :
  NoDup (map id l) -> In x l ->
  find (fun y => id y =? id x) l = Some x.
Proof.
  intros Hnd Hx.
  destruct (find (fun y => id y =? id x) l) as [y|] eqn:F.
  - apply find_some in F. destruct F as [Hy E]. apply Z.eqb_eq in E.
    rewrite (NoDup_map_inj id l y x Hnd Hy Hx E). reflexivity.
  - pose proof (find_none _ _ F x Hx) as H. cbn beta in H.
    rewrite Z.eqb_refl in H. discriminate.
Qed.



(* ================================================================== *)
(** ** Further properties: the id in the path *)

Lemma digit_not_space (c : ascii) : JS.is_digit c = true -> JS.is_space c = false.
Proof.
  unfold JS.is_digit, JS.is_space. cbv zeta. intros H.
  apply andb_true_iff in H. destruct H as [H1 H2].
  apply N.leb_le in H1, H2.
  apply orb_false_iff. split; [apply N.eqb_neq; lia|].
  apply andb_false_iff. right. apply N.leb_gt. lia.
Qed.

Lemma digit_not_char (c d : ascii) :
  JS.is_digit c = true -> JS.is_digit d = false -> Ascii.eqb c d = false.
Proof.
  intros Hc Hd. apply Ascii.eqb_neq. intros ->. congruence.
Qed.

Lemma rtrim_digits (s : string) :
  JS.all_digits s = true -> JS.rtrim s = s.
Proof.
  induction s as [|c s IH]; cbn [JS.all_digits JS.rtrim]; [reflexivity|].
  intros H. apply andb_true_iff in H. destruct H as [Hc Hs].
  rewrite (IH Hs). destruct s; [|reflexivity].
  rewrite (digit_not_space c Hc). reflexivity.
Qed.

Lemma split_dot_digits (s : string) :
  JS.all_digits s = true -> JS.split_dot s = (s, None).
Proof.
  induction s as [|c s IH]; cbn [JS.all_digits JS.split_dot]; [reflexivity|].
  intros H. apply andb_true_iff in H. destruct H as [Hc Hs].
  rewrite (digit_not_char c "."%char Hc eq_refl), (IH Hs). reflexivity.
Qed.

Lemma Qred_inject_Z (a : Z) : Qred (inject_Z a) = inject_Z a.
Proof.
  unfold Qred, inject_Z.
  pose proof (Z.ggcd_gcd a 1) as Hg.
  pose proof (Z.ggcd_correct_divisors a 1) as Hd.
  destruct (Z.ggcd a 1) as [g [aa bb]]. cbn [fst snd] in *.
  rewrite Z.gcd_1_r in Hg. subst g. destruct Hd as [Ha Hb].
  assert (bb = 1) by lia. subst bb. f_equal. lia.
Qed.

Lemma digits_number (s : string) :
  JS.all_digits s = true -> s <> EmptyString ->
  JS.StringToNumber s = JS.Num (JS.Qc_of_Z (JS.digits_value s)).
Proof.
  intros Hd Hne. destruct s as [|c r]; [contradiction|].
  assert (Hc : JS.is_digit c = true).
  { cbn [JS.all_digits] in Hd. apply andb_true_iff in Hd. exact (proj1 Hd). }
  unfold JS.StringToNumber, JS.trim.
  assert (Hl : JS.ltrim (String c r) = String c r).
  { cbn [JS.ltrim]. rewrite (digit_not_space c Hc). reflexivity. }
  rewrite Hl, (rtrim_digits _ Hd).
  rewrite (digit_not_char c "-"%char Hc eq_refl),
          (digit_not_char c "+"%char Hc eq_refl).
  unfold JS.unsigned_decimal. rewrite (split_dot_digits _ Hd), Hd.
  cbn [JS.all_digits andb String.length Nat.add Nat.eqb negb Z.of_nat].
  unfold JS.Qc_of_Z, inject_Z.
  change (JS.digits_value EmptyString) with 0. change (10 ^ 0) with 1.
  change (Z.to_pos 1) with 1%positive.
  rewrite Z.mul_1_r, Z.add_0_r. reflexivity.
Qed.


(* ================================================================== *)
(** ** Further properties: the lists of participants and of closed dates *)

Lemma participants_select_in (eventId : Z) (s : store)
    (row : Admin.participant_row) :
  In row (Admin.participants_select eventId s) <->
  exists ep u,
    In ep (event_participants s) /\ ep_event_id ep = eventId
    /\ In u (users s) /\ u_id u = ep_user_id ep
    /\ row = Admin.mkParticipantRow (u_id u) (u_email u) (ep_joined_at ep).
Proof.
  unfold Admin.participants_select. rewrite order_by_in, in_flat_map. split.
  - intros (ep & Hep & H).
    destruct (ep_event_id ep =? eventId) eqn:E; [|destruct H].
    apply Z.eqb_eq in E. apply in_map_iff in H. destruct H as (u & <- & Hu).
    apply filter_In in Hu. destruct Hu as [Hu Hid]. apply Z.eqb_eq in Hid.
    exists ep, u. repeat split; assumption.
  - intros (ep & u & Hep & He & Hu & Hid & ->). exists ep. split; [exact Hep|].
    rewrite He, Z.eqb_refl.
    apply (in_map (fun u0 => Admin.mkParticipantRow (u_id u0) (u_email u0)
                                                    (ep_joined_at ep))).
    apply filter_In. split; [exact Hu|]. rewrite Hid. apply Z.eqb_refl.
Qed.

Lemma participants_select_length (eventId : Z) (s : store) :
  List.length (Admin.participants_select eventId s)
  = List.length (participant_users eventId s).
Proof.
  unfold Admin.participants_select, participant_users.
  rewrite order_by_length.
  induction (event_participants s) as [|ep l IH]; [reflexivity|].
  cbn [flat_map]. rewrite !length_app, IH. f_equal.
  destruct (ep_event_id ep =? eventId); [apply length_map | reflexivity].
Qed.

(** X25: when GET /api/events/:id/participants answers 200, its rows are
    the participant rows of the event, each with the id and the email
    of its user and the time of joining, earliest first; over a
    consistent store there is one row per participant row, as many as
    the ranking of the event has. *)
Theorem participants_listing (fault : Admin.call -> bool) (ss : session)
    (id : string) (s : store) (rows : list Admin.participant_row) :
  fst (Admin.serve fault (Admin.participants ss id) s)
  = Admin.accept (Admin.AParticipants rows) ->
  exists eventId,
    param_id id = Some eventId
    /\ (forall row, In row rows <->
          exists ep u,
            In ep (event_participants s) /\ ep_event_id ep = eventId
            /\ In u (users s) /\ u_id u = ep_user_id ep
            /\ row = Admin.mkParticipantRow (u_id u) (u_email u)
                                            (ep_joined_at ep))
    /\ StronglySorted (fun a b => Admin.pr_joined_at a <= Admin.pr_joined_at b)
                      rows
    /\ (consistent s ->
        forall sd ed,
        List.length rows = List.length (participants_of eventId s)
        /\ List.length rows = List.length (ranking_select eventId sd ed s)).
Proof.
  unfold Admin.participants, Admin.authed. intros H.
  destruct (session_user ss) as [uid|]; [|discriminate].
  destruct (param_id id) as [eventId|]; [|discriminate].
  rewrite serve_ask_all in H.
  destruct (fault Admin.Participants_rows); [discriminate|].
  cbn [Admin.serve fst] in H. injection H as <-.
  exists eventId. split; [reflexivity|]. split; [|split].
  - apply participants_select_in.
  - unfold Admin.participants_select.
    assert (Hs : StronglySorted
                   (fun a b => (Admin.pr_joined_at a <=? Admin.pr_joined_at b) = true)
                   (order_by (fun a b => Admin.pr_joined_at a <=? Admin.pr_joined_at b)
                      (flat_map (fun ep =>
                         if ep_event_id ep =? eventId then
                           map (fun u => Admin.mkParticipantRow (u_id u) (u_email u)
                                                                (ep_joined_at ep))
                               (filter (fun u => u_id u =? ep_user_id ep) (users s))
                         else []) (event_participants s)))).
    { apply order_by_sorted.
      - intros x y. rewrite !Z.leb_le. lia.
      - intros x y z. rewrite !Z.leb_le. lia. }
    induction Hs as [|a l Hl IH Ha]; constructor; [exact IH|].
    apply Forall_forall. rewrite Forall_forall in Ha. intros b Hb.
    apply Z.leb_le. exact (Ha b Hb).
  - intros Hc sd ed. rewrite participants_select_length.
    rewrite (participant_users_length eventId s Hc).
    split; [reflexivity|]. symmetry. apply ranking_length, Hc.
Qed.

Lemma participants_listing_witness :
  exists eventId,
    param_id "1" = Some eventId
    /\ In (Admin.mkParticipantRow 2 "a@x.com" Sample.mid_june)
          (Admin.participants_select 1 joined_store).
Proof.
  destruct (participants_listing (fun _ => false) Sample.asB "1" joined_store
              (Admin.participants_select 1 joined_store) eq_refl)
    as (eventId & Hid & Hrows & _).
  exists eventId. split; [exact Hid|]. apply Hrows.
  injection Hid as <-.
  exists (mkParticipant 1 1 2 Sample.mid_june), Sample.userA.
  simpl. repeat split; tauto.
Defined.

(** X26: a user whose join was answered 200 is on the list of
    participants of that event from then on: asked right after, GET
    /api/events/:id/participants answers 200 with a row that carries
    the id and the email of the user and the time of the join. *)
Theorem joined_user_is_listed (fault : site -> bool) (now uid : Z)
    (ss : session) (id : string) (s : store) :
  session_user ss = Some uid ->
  status (fst (run fault (join now ss id) s)) = 200 ->
  let s' := snd (run fault (join now ss id) s) in
  exists rows u,
    Admin.serve (fun _ => false) (Admin.participants ss id) s'
    = (Admin.accept (Admin.AParticipants rows), s')
    /\ select_user uid s = Some u
    /\ In (Admin.mkParticipantRow uid (u_email u) now) rows.
Proof.
  intros Hss H200 s'.
  pose proof (join_any_fault fault now ss id s) as H. cbv zeta in H.
  destruct H as [[_ Hst] | (uid' & eventId & ev & u & Hss' & Hid & _ & _ & _ & Hp
                            & Hu & _ & Hout)]; [contradiction|].
  assert (uid' = uid) by congruence. subst uid'.
  assert (Hs' : s' = snd (insert_participant now eventId uid s))
    by (unfold s'; rewrite Hout; reflexivity).
  exists (Admin.participants_select eventId s'), u.
  split; [|split; [exact Hu|]].
  - unfold Admin.participants, Admin.authed. rewrite Hss, Hid. reflexivity.
  - apply participants_select_in.
    unfold select_user, first_row in Hu. apply find_some in Hu.
    destruct Hu as [Hin Huid]. apply Z.eqb_eq in Huid.
    exists (mkParticipant (next_id ep_id (seq_event_participants s)
                                   (event_participants s)) eventId uid now), u.
    rewrite Hs'. unfold insert_participant. rewrite Hp.
    cbn [snd event_participants users ep_event_id ep_user_id ep_joined_at].
    split; [apply in_or_app; right; left; reflexivity|].
    split; [reflexivity|]. split; [exact Hin|]. split; [exact Huid|].
    rewrite Huid. reflexivity.
Qed.

Lemma joined_user_is_listed_witness :
  exists rows u,
    Admin.serve (fun _ => false) (Admin.participants Sample.asA "1") joined_store
    = (Admin.accept (Admin.AParticipants rows), joined_store)
    /\ select_user 2 Sample.s0 = Some u
    /\ In (Admin.mkParticipantRow 2 (u_email u) Sample.mid_june) rows.
Proof.
  exact (joined_user_is_listed no_fault Sample.mid_june 2 Sample.asA "1"
           Sample.s0 eq_refl eq_refl).
Defined.

Lemma closed_dates_select_in (eventId : Z) (s : store) (row : Admin.closed_row) :
  In row (Admin.closed_dates_select eventId s) <->
  exists c u,
    In c (event_closed_dates s) /\ ecd_event_id c = eventId
    /\ In u (users s) /\ u_id u = ecd_created_by c
    /\ row = Admin.mkClosedRow (ecd_id c) (ecd_closed_date c)
                               (ecd_created_at c) (u_email u).
Proof.
  unfold Admin.closed_dates_select. rewrite order_by_in, in_flat_map. split.
  - intros (c & Hc & H).
    destruct (ecd_event_id c =? eventId) eqn:E; [|destruct H].
    apply Z.eqb_eq in E. apply in_map_iff in H. destruct H as (u & <- & Hu).
    apply filter_In in Hu. destruct Hu as [Hu Hid]. apply Z.eqb_eq in Hid.
    exists c, u. repeat split; assumption.
  - intros (c & u & Hc & He & Hu & Hid & ->). exists c. split; [exact Hc|].
    rewrite He, Z.eqb_refl.
    apply (in_map (fun u0 => Admin.mkClosedRow (ecd_id c) (ecd_closed_date c)
                                               (ecd_created_at c) (u_email u0))).
    apply filter_In. split; [exact Hu|]. rewrite Hid. apply Z.eqb_refl.
Qed.

(** X27: the list of closed dates follows the closing and the
    reopening.  Once an administrator has closed an open date of an
    event, GET /api/admin/events/:id/closed-dates shows that date with
    the id that the closing answered and the email of the
    administrator; once the date is reopened the list shows it no
    longer; and the list comes by date, earliest first. *)
Theorem closed_date_is_listed (now admin eventId : Z) (adm : session)
    (id d : string) (s : store) (ev : event) (u : user) :
  session_user adm = Some admin -> isAdmin adm = true ->
  param_id id = Some eventId ->
  JS.is_date_shape d = true ->
  select_event eventId s = Some ev ->
  within_dates ev d = true ->
  select_closed eventId d s = None ->
  select_user admin s = Some u ->
  let closing := run no_fault (close_date now adm id (Some d)) s in
  let opening := run no_fault (open_date adm id (Some d)) (snd closing) in
  exists closedId shown hidden,
    fst closing = send (BClosedDate closedId)
    /\ Admin.serve (fun _ => false) (Admin.closed_dates adm id) (snd closing)
       = (Admin.accept (Admin.AClosedDates shown), snd closing)
    /\ In (Admin.mkClosedRow closedId d now (u_email u)) shown
    /\ StronglySorted (fun a b => String.leb (Admin.cr_closed_date a)
                                             (Admin.cr_closed_date b) = true)
                      shown
    /\ Admin.serve (fun _ => false) (Admin.closed_dates adm id) (snd opening)
       = (Admin.accept (Admin.AClosedDates hidden), snd opening)
    /\ (forall row, In row hidden -> Admin.cr_closed_date row <> d).
Proof.
  intros Hss Hadm Hid Hshape Hev Hw Hc Hu closing opening.
  pose proof (close_date_outcome now admin eventId adm id d Hss Hadm Hid Hshape
                s ev Hev Hw Hc) as Hcl. fold closing in Hcl.
  set (closedId := next_id ecd_id (seq_event_closed_dates s)
                           (event_closed_dates s)) in *.
  assert (Hrows1 : event_closed_dates (snd closing)
                   = (event_closed_dates s
                        ++ [mkClosedDate closedId eventId d admin now])%list
                   /\ users (snd closing) = users s).
  { rewrite Hcl. cbn [snd]. unfold insert_closed. rewrite Hc. split; reflexivity. }
  destruct Hrows1 as [Hrows1 Husers1].
  assert (Hc1 : select_closed eventId d (snd closing)
                = Some (mkClosedDate closedId eventId d admin now)).
  { unfold select_closed, first_row. rewrite Hrows1.
    rewrite find_app_none by exact Hc.
    cbn [ecd_event_id ecd_closed_date]. rewrite Z.eqb_refl, String.eqb_refl.
    reflexivity. }
  pose proof (open_date_outcome admin eventId adm id d Hss Hadm Hid Hshape
                (snd closing) _ Hc1) as Hop. fold opening in Hop.
  exists closedId, (Admin.closed_dates_select eventId (snd closing)),
         (Admin.closed_dates_select eventId (snd opening)).
  split; [rewrite Hcl; reflexivity|].
  split; [unfold Admin.closed_dates, Admin.as_admin; rewrite Hss, Hadm, Hid;
          reflexivity|].
  split; [|split; [|split]].
  - apply closed_dates_select_in.
    unfold select_user, first_row in Hu. apply find_some in Hu.
    destruct Hu as [Hin Huid]. apply Z.eqb_eq in Huid.
    exists (mkClosedDate closedId eventId d admin now), u.
    rewrite Hrows1, Husers1.
    split; [apply in_or_app; right; left; reflexivity|].
    split; [reflexivity|]. split; [exact Hin|]. split; [exact Huid | reflexivity].
  - unfold Admin.closed_dates_select.
    apply (order_by_sorted
             (fun a b : Admin.closed_row =>
                String.leb (Admin.cr_closed_date a) (Admin.cr_closed_date b))).
    + intros x y. apply String.leb_total.
    + intros x y z. apply leb_trans.
  - unfold Admin.closed_dates, Admin.as_admin. rewrite Hss, Hadm, Hid. reflexivity.
  - intros row Hrow Hd. apply closed_dates_select_in in Hrow.
    destruct Hrow as (c & u0 & Hin & He & _ & _ & ->).
    cbn [Admin.cr_closed_date] in Hd.
    rewrite Hop in Hin. cbn [snd delete_closed event_closed_dates] in Hin.
    apply filter_In in Hin. destruct Hin as [_ Hf].
    rewrite He, Hd, Z.eqb_refl, String.eqb_refl in Hf. discriminate.
Qed.

Lemma closed_date_is_listed_witness :
  exists closedId shown,
    Admin.serve (fun _ => false) (Admin.closed_dates Sample.asAdmin "1")
      (snd (run no_fault (close_date Sample.mid_june Sample.asAdmin "1"
                                     (Some "2024-06-20")) joined_store))
    = (Admin.accept (Admin.AClosedDates shown),
       snd (run no_fault (close_date Sample.mid_june Sample.asAdmin "1"
                                     (Some "2024-06-20")) joined_store))
    /\ In (Admin.mkClosedRow closedId "2024-06-20" Sample.mid_june "admin") shown.
Proof.
  assert (Hev : select_event 1 joined_store = Some Sample.june) by reflexivity.
  assert (Hc : select_closed 1 "2024-06-20" joined_store = None) by reflexivity.
  assert (Hu : select_user 1 joined_store = Some Sample.admin) by reflexivity.
  destruct (closed_date_is_listed Sample.mid_june 1 1 Sample.asAdmin "1"
              "2024-06-20" joined_store Sample.june Sample.admin
              eq_refl eq_refl eq_refl eq_refl Hev eq_refl Hc Hu)
    as (closedId & shown & hidden & _ & Hshown & Hin & _).
  exists closedId, shown. split; [exact Hshown | exact Hin].
Defined.
